(** * Threat-AI front end: the chat page and the query page

    A shallow embedding of the browser-side scripts of the repository:
    - [src/static/js/app.js]   (the query page, module [App]);
    - [src/unnamed/part_001]   (the chat page, module [Chat]).

    Pure helpers are Rocq functions.  An [async] handler is split at its
    [await]: one function for the part that runs until the request is
    issued, one for the continuation that runs when the request settles.
    Handlers return the new page state together with the effects they
    performed (alerts, console errors, requests); an event system
    interleaves user events and settling requests the way the browser's
    event loop does. *)

From stdpp Require Import strings gmap list.
From Stdlib Require Import NArith DecimalN.

Local Open Scope N_scope.

(** ** JavaScript strings *)

Module Js.

(** A JavaScript string is a sequence of UTF-16 code units. *)
Abbreviation jsstring := (list N).

(** An ASCII literal of the source, as a JavaScript string. *)
Definition lit (s : string) : jsstring :=
  Ascii.N_of_ascii <$> String.list_ascii_of_string s.

(** [a + b] on strings. *)
Notation "a +++ b" := (@app N a b) (at level 60, right associativity).

(** [String.prototype.substring(0, n)]. *)
Definition substring0 (n : nat) (s : jsstring) : jsstring := take n s.

(** White space and line terminators removed by [String.prototype.trim]. *)
Definition is_space (c : N) : bool :=
  ((9 <=? c) && (c <=? 13)) || (c =? 32) || (c =? 160) || (c =? 5760)
  || ((8192 <=? c) && (c <=? 8202)) || (c =? 8232) || (c =? 8233)
  || (c =? 8239) || (c =? 8287) || (c =? 12288) || (c =? 65279).

Fixpoint trim_start (s : jsstring) : jsstring :=
  match s with
  | [] => []
  | c :: r => if is_space c then trim_start r else s
  end.

(** [String.prototype.trim]. *)
Definition trim (s : jsstring) : jsstring :=
  rev (trim_start (rev (trim_start s))).

(** Truthiness of a string: only the empty string is falsy. *)
Definition truthy (s : jsstring) : bool :=
  match s with [] => false | _ => true end.

(** [x || d] where [x] is a string property that may be absent. *)
Definition or_else (x : option jsstring) (d : jsstring) : jsstring :=
  match x with
  | Some s => if truthy s then s else d
  | None => d
  end.

(** Truthiness of a string property that may be absent. *)
Definition present (x : option jsstring) : bool :=
  match x with Some s => truthy s | None => false end.

(** Decimal digits of a non-negative integer, as [String(n)] prints it. *)
Fixpoint uint_codes (d : Decimal.uint) : jsstring :=
  match d with
  | Decimal.Nil => []
  | Decimal.D0 r => 48 :: uint_codes r
  | Decimal.D1 r => 49 :: uint_codes r
  | Decimal.D2 r => 50 :: uint_codes r
  | Decimal.D3 r => 51 :: uint_codes r
  | Decimal.D4 r => 52 :: uint_codes r
  | Decimal.D5 r => 53 :: uint_codes r
  | Decimal.D6 r => 54 :: uint_codes r
  | Decimal.D7 r => 55 :: uint_codes r
  | Decimal.D8 r => 56 :: uint_codes r
  | Decimal.D9 r => 57 :: uint_codes r
  end.

Definition decimal (n : N) : jsstring := uint_codes (N.to_uint n).

(** [String(arr.length)] and [String(i + 1)] for list positions. *)
Definition decimal_nat (n : nat) : jsstring := decimal (N.of_nat n).

End Js.

Import Js.

(** ** What the scripts take from the browser

    Number formatting, date formatting and the contents of
    [Object.prototype] belong to the JavaScript engine, not to the
    repository; they are parameters of the development. *)

Class Platform := {
  (** IEEE-754 numbers of the backend responses (confidence, score). *)
  number : Type;
  (** [0] *)
  num_zero : number;
  (** [!x] on a number: zero and NaN are falsy. *)
  num_falsy : number -> bool;
  (** [x * 100] *)
  num_times100 : number -> number;
  (** [x.toFixed(d)] *)
  toFixed : number -> nat -> jsstring;
  (** [new Date(t).toLocaleTimeString()] for a backend timestamp [t]. *)
  toLocaleTimeString : jsstring -> jsstring;
  (** The property names that every plain object inherits from
      [Object.prototype] ([constructor], [toString], ...). *)
  proto_has : jsstring -> bool;
  (** The message of the [TypeError] raised when a property is read from
      [undefined]; the argument is the property name. *)
  type_error_message : jsstring -> jsstring
}.

(** ** Generated HTML

    The scripts build HTML by template literals.  The embedding keeps
    the token structure of each template and, for every [${...}] hole,
    where the substituted value came from. *)

Module Html.

Inductive chunk :=
  (** text written in the template itself *)
  | Lit (s : jsstring)
  (** a string supplied by the user or by a backend response, in the
      form in which the script substitutes it *)
  | Str (s : jsstring)
  (** a value the page computed itself from numbers, the clock or the
      random generator: counts, positions, formatted numbers and times,
      generated message ids *)
  | Gen (s : jsstring).

Inductive piece :=
  (** an opening tag with its attributes; an attribute value is a
      sequence of chunks *)
  | Open (tag : string) (attrs : list (string * list chunk))
  (** a closing tag *)
  | Close (tag : string)
  (** text between tags *)
  | Content (c : chunk).

Abbreviation html := (list piece).

(** Template text. *)
Definition T (s : string) : piece := Content (Lit (lit s)).

(** An opening tag that has only a [class] attribute. *)
Definition Div (tag : string) (cls : string) : piece :=
  Open tag [("class"%string, [Lit (lit cls)])].

Definition chunk_strs (c : chunk) : list jsstring :=
  match c with Str s => [s] | _ => [] end.

Definition piece_strs (p : piece) : list jsstring :=
  match p with
  | Open _ attrs => a ← attrs; c ← a.2; chunk_strs c
  | Close _ => []
  | Content c => chunk_strs c
  end.

(** Every user- or backend-supplied string of a fragment, as inserted. *)
Definition strs (h : html) : list jsstring := h ≫= piece_strs.

(** The flat string the template literal evaluates to. *)
Definition chunk_text (c : chunk) : jsstring :=
  match c with Lit s | Str s | Gen s => s end.

Definition attr_text (a : string * list chunk) : jsstring :=
  [32] +++ lit a.1 +++ [61; 34] +++ (a.2 ≫= chunk_text) +++ [34].

Definition piece_text (p : piece) : jsstring :=
  match p with
  | Open tag attrs => [60] +++ lit tag +++ (attrs ≫= attr_text) +++ [62]
  | Close tag => [60; 47] +++ lit tag +++ [62]
  | Content c => chunk_text c
  end.

Definition serialize (h : html) : jsstring := h ≫= piece_text.

(** *** Escaped text *)

Fixpoint starts_with (p s : jsstring) : bool :=
  match p, s with
  | [], _ => true
  | a :: p', b :: s' => (a =? b) && starts_with p' s'
  | _ :: _, [] => false
  end.

(** The character references the two [escapeHtml] functions produce. *)
Definition entities : list jsstring :=
  [lit "&amp;"; lit "&lt;"; lit "&gt;"; lit "&quot;"; lit "&#039;"; lit "&nbsp;"].

Definition entity_at (s : jsstring) : bool :=
  existsb (fun e => starts_with e s) entities.

(** [no_raw bad s]: no code unit of [bad] occurs in [s], and every
    ampersand of [s] begins a character reference. *)
Fixpoint no_raw (bad : list N) (s : jsstring) : bool :=
  match s with
  | [] => true
  | c :: r =>
      (if c =? 38 then entity_at s else negb (existsb (N.eqb c) bad))
      && no_raw bad r
  end.

(** No raw [<], [>], double quote, apostrophe or ampersand. *)
Definition escaped5 (s : jsstring) : bool := no_raw [60; 62; 34; 39] s.

(** No raw [<], [>] or ampersand: enough for text between tags. *)
Definition escaped3 (s : jsstring) : bool := no_raw [60; 62] s.

End Html.

Import Html.

(** ** The DOM operations the scripts rely on *)

Module Dom.

(** The value of [style.display]: not set by a script yet, or one of the
    three values the scripts assign. *)
Inductive display := DInitial | DNone | DFlex | DBlock.

#[export] Instance display_eq_dec : EqDecision display.
Proof. solve_decision. Defined.

(** Reading [innerHTML] of an element whose only child is a text node:
    the HTML serialisation algorithm escapes the ampersand, the
    no-break space, [<] and [>] of the text, and nothing else. *)
Definition escape_text_unit (c : N) : jsstring :=
  if c =? 38 then lit "&amp;"
  else if c =? 160 then lit "&nbsp;"
  else if c =? 60 then lit "&lt;"
  else if c =? 62 then lit "&gt;"
  else [c].

Definition text_innerHTML (text : jsstring) : jsstring :=
  text ≫= escape_text_unit.

End Dom.

Import Dom.

(** Glyphs of the templates that are not ASCII, as UTF-16. *)
Module Glyph.
Definition warning : jsstring := [9888; 65039].
Definition books : jsstring := [55357; 56538].
Definition bullet : jsstring := [32; 8226; 32].
Definition magnifier : jsstring := [55357; 56589].
Definition page : jsstring := [55357; 56516].
Definition chart : jsstring := [55357; 56522].
Definition bust : jsstring := [55357; 56420].
Definition shield : jsstring := [55357; 57057; 65039].
Definition speech : jsstring := [55357; 56492].
Definition thumbs_up : jsstring := [55357; 56397].
Definition thumbs_down : jsstring := [55357; 56398].
Definition bin : jsstring := [55357; 56785; 65039].
Definition check_mark : jsstring := [10003].
End Glyph.

(** ** Backend data shared by both pages *)

Section BackendData.
Context {P : Platform}.

(** An evidence item of a response: [{actor?, source, text, score}]. *)
Record EvidenceItem := {
  actor : option jsstring;
  source : jsstring;
  text : jsstring;
  score : number
}.

(** [x || 0] on a number property that may be absent. *)
Definition num_or_zero (x : option number) : number :=
  match x with
  | Some v => if num_falsy v then num_zero else v
  | None => num_zero
  end.

End BackendData.

(** ** The query page, [src/static/js/app.js] *)

Module App.
Section WithPlatform.
Context {P : Platform}.

(** The first declaration of [escapeHtml] (line 16).  It is shadowed:
    function declarations are hoisted and the declaration of line 453
    is the one every call of the file reaches. *)
Definition escapeHtml_line16 (text : jsstring) : jsstring :=
  text_innerHTML text.

(** The object [map] of line 454: the five characters it has a key
    for (ampersand, [<], [>], double quote, apostrophe) and the
    character reference of each; [m] is the matched character. *)
Definition escape_map (m : N) : jsstring :=
  if m =? 38 then lit "&amp;"
  else if m =? 60 then lit "&lt;"
  else if m =? 62 then lit "&gt;"
  else if m =? 34 then lit "&quot;"
  else if m =? 39 then lit "&#039;"
  else [m].

(** [escapeHtml] (line 453): every match of the character class of the
    five characters is replaced by its entry in [map]; other code units
    are kept. *)
Definition escapeHtml (text : jsstring) : jsstring := text ≫= escape_map.

(** The envelope of a successful [/api/query] response. *)
Record Result := {
  query : jsstring;
  answer : jsstring;
  confidence : option number;
  evidence : list EvidenceItem;
  model : jsstring;
  source_count : N;
  timestamp : jsstring;
  trace_id : option jsstring
}.

(** The page: the globals [lastResult] and the parts of the document
    that [submitQuery] and its callees read or write. *)
Record State := {
  lastResult : option Result;
  query_value : jsstring;          (* #query .value *)
  submit_disabled : bool;          (* #submit-btn .disabled *)
  results : html;                  (* #results .innerHTML *)
  center_display : display;        (* #center-container *)
  results_area_display : display;  (* #results-area *)
  feedback_display : display;      (* #feedback-section *)
  stars_active : list N;           (* active .star-btn of #rating-stars *)
  feedback_relevance : jsstring;
  feedback_accuracy : jsstring;
  feedback_comments : jsstring
}.

Inductive request := PostQuery (query : jsstring).

(** What settles the [fetch] of [submitQuery]: the promise rejects (or
    the body is not JSON), or a response arrives whose JSON body is a
    result (status 2xx) or an object with an optional [error]. *)
Inductive reply :=
  | Rejected (message : jsstring)
  | Failed (error : option jsstring)
  | Succeeded (result : Result).

(** [showError(message)], the HTML it assigns to [#results]. *)
Definition showError_html (message : jsstring) : html :=
  [ Div "div" "error";
    Div "span" "error-icon"; Content (Lit Glyph.warning); Close "span";
    Open "div" [];
    Open "strong" []; T "Error:"; Close "strong"; T " ";
    Content (Str (escapeHtml message));
    Close "div";
    Close "div" ].

Definition showError (message : jsstring) (st : State) : State :=
  {| lastResult := lastResult st; query_value := query_value st;
     submit_disabled := submit_disabled st;
     results := showError_html message;
     center_display := center_display st;
     results_area_display := results_area_display st;
     feedback_display := feedback_display st;
     stars_active := stars_active st;
     feedback_relevance := feedback_relevance st;
     feedback_accuracy := feedback_accuracy st;
     feedback_comments := feedback_comments st |}.

(** One evidence item of [displayResults]; [i] is the index that
    [forEach] passes. *)
Definition evidence_item_html (i : nat) (e : EvidenceItem) : html :=
  [ Div "div" "evidence-item";
    Div "div" "evidence-meta";
    Div "span" "evidence-source";
    T "["; Content (Gen (decimal_nat (i + 1))); T "] ";
    Content (Str (escapeHtml (or_else (actor e) (lit "Unknown"))));
    Content (Lit Glyph.bullet);
    Content (Str (escapeHtml (source e)));
    Close "span";
    Div "span" "evidence-score";
    T "Score: "; Content (Gen (toFixed (score e) 3));
    Close "span";
    Close "div";
    Div "div" "evidence-text";
    Content (Str (escapeHtml (text e)));
    Close "div";
    Close "div" ].

Definition evidence_section_html (ev : list EvidenceItem) : html :=
  match ev with
  | [] => []
  | _ :: _ =>
      [ Div "div" "evidence-section";
        Div "div" "evidence-header";
        Open "span" []; Content (Lit Glyph.books); T " Evidence Sources";
        Close "span";
        Div "span" "evidence-count";
        Content (Gen (decimal_nat (length ev)));
        Close "span";
        Close "div";
        Div "div" "evidence-list" ]
      ++ mjoin (imap evidence_item_html ev)
      ++ [ Close "div"; Close "div" ]
  end.

Definition metadata_item (label : string) (value : chunk) : html :=
  [ Div "div" "metadata-item";
    Div "span" "metadata-label"; T label; Close "span";
    Div "span" "metadata-value"; Content value; Close "span";
    Close "div" ].

(** The metadata block (lines 184-203).  The model name goes through
    [escapeHtml]; the trace id is cut to eight code units and
    substituted as it is. *)
Definition metadata_html (result : Result) : html :=
  [ Div "div" "metadata" ]
  ++ metadata_item "Model" (Str (escapeHtml (model result)))
  ++ metadata_item "Sources" (Gen (decimal (source_count result)))
  ++ metadata_item "Timestamp" (Gen (toLocaleTimeString (timestamp result)))
  ++ match trace_id result with
     | Some t =>
         if truthy t
         then metadata_item "Trace ID" (Str (substring0 8 t))
         else []
     | None => []
     end
  ++ [ Close "div" ].

(** The string [html] that [displayResults] accumulates. *)
Definition displayResults_html (result : Result) : html :=
  let confidencePercent :=
    toFixed (num_times100 (num_or_zero (confidence result))) 1 in
  [ Div "div" "result-card";
    Div "div" "result-header";
    Div "div" "result-query";
    Content (Str (escapeHtml (query result)));
    Close "div";
    Div "div" "confidence-badge";
    Open "span" []; T "Confidence"; Close "span";
    Div "div" "confidence-bar";
    Open "div" [ ("class"%string, [Lit (lit "confidence-fill")]);
                 ("style"%string,
                  [Lit (lit "width: "); Gen confidencePercent; Lit (lit "%")]) ];
    Close "div"; Close "div";
    Open "span" []; Content (Gen confidencePercent); T "%"; Close "span";
    Close "div";
    Close "div";
    Div "div" "result-answer";
    Content (Str (escapeHtml (answer result)));
    Close "div" ]
  ++ evidence_section_html (evidence result)
  ++ metadata_html result
  ++ [ Close "div" ].

(** [addExportButtons]: the element appended to [#results]. *)
Definition export_buttons_html : html :=
  [ Open "div" [ ("id"%string, [Lit (lit "export-buttons")]);
                 ("class"%string, [Lit (lit "export-buttons")]) ];
    Open "button" [ ("onclick"%string, [Lit (lit "exportPDF()")]);
                    ("class"%string, [Lit (lit "export-btn export-btn-pdf")]);
                    ("title"%string, [Lit (lit "Download as PDF")]) ];
    Content (Lit Glyph.page); T " Export as PDF"; Close "button";
    Open "button" [ ("onclick"%string, [Lit (lit "exportCSV()")]);
                    ("class"%string, [Lit (lit "export-btn export-btn-csv")]);
                    ("title"%string, [Lit (lit "Download as CSV")]) ];
    Content (Lit Glyph.chart); T " Export as CSV"; Close "button";
    Close "div" ].

(** [displayResults(result)]. *)
Definition displayResults (result : Result) (st : State) : State :=
  {| lastResult := Some result; query_value := query_value st;
     submit_disabled := submit_disabled st;
     results := displayResults_html result ++ export_buttons_html;
     center_display := DNone;
     results_area_display := DBlock;
     feedback_display := feedback_display st;
     stars_active := stars_active st;
     feedback_relevance := feedback_relevance st;
     feedback_accuracy := feedback_accuracy st;
     feedback_comments := feedback_comments st |}.

(** [showFeedbackSection()], which calls [resetFeedbackForm()]. *)
Definition showFeedbackSection (st : State) : State :=
  {| lastResult := lastResult st; query_value := query_value st;
     submit_disabled := submit_disabled st;
     results := results st;
     center_display := center_display st;
     results_area_display := results_area_display st;
     feedback_display := DBlock;
     stars_active := [];
     feedback_relevance := [];
     feedback_accuracy := [];
     feedback_comments := [] |}.

Definition set_submit_disabled (b : bool) (st : State) : State :=
  {| lastResult := lastResult st; query_value := query_value st;
     submit_disabled := b;
     results := results st;
     center_display := center_display st;
     results_area_display := results_area_display st;
     feedback_display := feedback_display st;
     stars_active := stars_active st;
     feedback_relevance := feedback_relevance st;
     feedback_accuracy := feedback_accuracy st;
     feedback_comments := feedback_comments st |}.

Definition set_results (h : html) (st : State) : State :=
  {| lastResult := lastResult st; query_value := query_value st;
     submit_disabled := submit_disabled st;
     results := h;
     center_display := center_display st;
     results_area_display := results_area_display st;
     feedback_display := feedback_display st;
     stars_active := stars_active st;
     feedback_relevance := feedback_relevance st;
     feedback_accuracy := feedback_accuracy st;
     feedback_comments := feedback_comments st |}.

Definition loading_html : html :=
  [ Div "div" "loading";
    Div "div" "spinner"; Close "div";
    Div "div" "loading-text";
    Content (Lit Glyph.magnifier); T " Analyzing threat intelligence...";
    Close "div";
    Open "div" [ ("class"%string, [Lit (lit "loading-text")]);
                 ("style"%string, [Lit (lit "margin-top: 8px; opacity: 0.7;")]) ];
    T "Searching vector database and generating insights";
    Close "div";
    Close "div" ].

(** [submitQuery()] up to its [await fetch(...)]: the new page and the
    requests issued. *)
Definition submitQuery (st : State) : State * list request :=
  let query := trim (query_value st) in
  if negb (truthy query)
  then (showError (lit "Please enter a threat intelligence query") st, [])
  else (set_results loading_html (set_submit_disabled true st),
        [PostQuery query]).

(** [submitQuery()] from the moment its request settles. *)
Definition submitQuery_settled (r : reply) (st : State) : State :=
  set_submit_disabled false
    match r with
    | Succeeded result => showFeedbackSection (displayResults result st)
    | Failed error =>
        showError (or_else error (lit "Unknown error occurred")) st
    | Rejected message =>
        showError (lit "Connection error: " +++ message) st
    end.

End WithPlatform.
End App.

(** ** The chat page, [src/unnamed/part_001] *)

Module Chat.
Section WithPlatform.
Context {P : Platform}.

(** [escapeHtml] (line 478): the text is assigned to [textContent] of a
    fresh [div] and read back through [innerHTML]. *)
Definition escapeHtml (text : jsstring) : jsstring := text_innerHTML text.

(** *** Data *)

(** The metadata bag of an assistant message; every property may be
    absent.  An absent [evidence] is the empty list: the script only
    tests [metadata.evidence && metadata.evidence.length > 0] and
    [metadata.evidence || []]. *)
Record Metadata := {
  evidence : list EvidenceItem;
  confidence : option number;
  model : option jsstring;
  trace_id : option jsstring;
  source_count : option N
}.

(** The default [metadata = {}] of [appendAssistantMessage]. *)
Definition no_metadata : Metadata :=
  {| evidence := []; confidence := None; model := None;
     trace_id := None; source_count := None |}.

(** A message of a stored conversation:
    [{role, content, metadata?, timestamp}]. *)
Record Message := {
  role : jsstring;
  content : jsstring;
  metadata : option Metadata;
  timestamp : option jsstring
}.

(** A value of [window.messageMetadata]: [{content, metadata}].  The
    content is [undefined] ([None]) when the message was rendered from
    a response without [assistant_message]. *)
Record Entry := {
  entry_content : option jsstring;
  entry_metadata : Metadata
}.

(** What one run of a handler reads from the clock and the random
    generator. *)
Record Clock := {
  date_now : N;            (* Date.now() *)
  random36 : jsstring;     (* Math.random().toString(36).substr(2, 9) *)
  time_now : jsstring;     (* new Date().toLocaleTimeString() *)
  iso_now : jsstring       (* new Date().toISOString() *)
}.

(** The children of [#messages-container].  Each call of
    [insertAdjacentHTML('beforeend', ...)] of the script adds one
    element; its kind is read off the root [div] of the template:
    [message user], [message assistant] with the action buttons of a
    message id, [message assistant] with the warning avatar, and
    [message assistant typing-message]. *)
Inductive elkind :=
  | KUser
  | KAssistant (messageId : jsstring)
  | KError
  | KTyping.

#[export] Instance elkind_eq_dec : EqDecision elkind.
Proof. solve_decision. Defined.

(** The two icon buttons among the action buttons of an assistant
    message: thumbs up (title [Helpful]) and thumbs down (title
    [Not Helpful]). *)
Inductive icon := Helpful | NotHelpful.

#[export] Instance icon_eq_dec : EqDecision icon.
Proof. solve_decision. Defined.

(** The [type] that the [onclick] attribute of an icon button passes
    to [quickFeedback]. *)
Definition icon_type (b : icon) : jsstring :=
  match b with
  | Helpful => lit "positive"
  | NotHelpful => lit "negative"
  end.

(** An element of the transcript: its kind, the HTML it was inserted
    with, and the icon button that carries the class [active], if one
    does.  The templates insert the buttons without that class; only
    [quickFeedback] changes it, and only assistant messages have icon
    buttons. *)
Record element := {
  kind : elkind;
  outer : html;
  active : option icon
}.

(** The fields of the feedback modal. *)
Record Modal := {
  modal_display : display;     (* #feedback-modal *)
  modal_relevance : jsstring;  (* #modal-relevance .value *)
  modal_accuracy : jsstring;   (* #modal-accuracy .value *)
  modal_comments : jsstring    (* #modal-comments .value *)
}.

(** The page: the four globals of the script, [window.messageMetadata]
    ([None] while it is still undefined), and the parts of the document
    the handlers read or write. *)
Record State := {
  currentConversationId : option jsstring;   (* null or undefined: None *)
  isWaitingForResponse : bool;
  messageMetadata : option (gmap jsstring Entry);
  currentFeedbackMessageId : option jsstring;
  currentFeedbackRating : N;
  welcome_display : display;       (* #welcome-screen *)
  messages_display : display;      (* #messages-container *)
  container : list element;        (* #messages-container children *)
  title : jsstring;                (* .conversation-title h2 textContent *)
  input_value : jsstring;          (* #message-input .value *)
  send_disabled : bool;            (* #send-btn .disabled *)
  conversations_list : html;       (* #conversations-list .innerHTML *)
  modal : Modal
}.

Definition set_currentConversationId (v : option jsstring) (st : State) : State :=
  {| currentConversationId := v;
     isWaitingForResponse := isWaitingForResponse st;
     messageMetadata := messageMetadata st;
     currentFeedbackMessageId := currentFeedbackMessageId st;
     currentFeedbackRating := currentFeedbackRating st;
     welcome_display := welcome_display st;
     messages_display := messages_display st;
     container := container st; title := title st;
     input_value := input_value st; send_disabled := send_disabled st;
     conversations_list := conversations_list st; modal := modal st |}.

Definition set_isWaitingForResponse (v : bool) (st : State) : State :=
  {| currentConversationId := currentConversationId st;
     isWaitingForResponse := v;
     messageMetadata := messageMetadata st;
     currentFeedbackMessageId := currentFeedbackMessageId st;
     currentFeedbackRating := currentFeedbackRating st;
     welcome_display := welcome_display st;
     messages_display := messages_display st;
     container := container st; title := title st;
     input_value := input_value st; send_disabled := send_disabled st;
     conversations_list := conversations_list st; modal := modal st |}.

Definition set_messageMetadata (v : gmap jsstring Entry) (st : State) : State :=
  {| currentConversationId := currentConversationId st;
     isWaitingForResponse := isWaitingForResponse st;
     messageMetadata := Some v;
     currentFeedbackMessageId := currentFeedbackMessageId st;
     currentFeedbackRating := currentFeedbackRating st;
     welcome_display := welcome_display st;
     messages_display := messages_display st;
     container := container st; title := title st;
     input_value := input_value st; send_disabled := send_disabled st;
     conversations_list := conversations_list st; modal := modal st |}.

Definition set_feedback (id : option jsstring) (rating : N) (m : Modal)
    (st : State) : State :=
  {| currentConversationId := currentConversationId st;
     isWaitingForResponse := isWaitingForResponse st;
     messageMetadata := messageMetadata st;
     currentFeedbackMessageId := id;
     currentFeedbackRating := rating;
     welcome_display := welcome_display st;
     messages_display := messages_display st;
     container := container st; title := title st;
     input_value := input_value st; send_disabled := send_disabled st;
     conversations_list := conversations_list st; modal := m |}.

Definition set_displays (welcome messages : display) (st : State) : State :=
  {| currentConversationId := currentConversationId st;
     isWaitingForResponse := isWaitingForResponse st;
     messageMetadata := messageMetadata st;
     currentFeedbackMessageId := currentFeedbackMessageId st;
     currentFeedbackRating := currentFeedbackRating st;
     welcome_display := welcome;
     messages_display := messages;
     container := container st; title := title st;
     input_value := input_value st; send_disabled := send_disabled st;
     conversations_list := conversations_list st; modal := modal st |}.

Definition set_container (v : list element) (st : State) : State :=
  {| currentConversationId := currentConversationId st;
     isWaitingForResponse := isWaitingForResponse st;
     messageMetadata := messageMetadata st;
     currentFeedbackMessageId := currentFeedbackMessageId st;
     currentFeedbackRating := currentFeedbackRating st;
     welcome_display := welcome_display st;
     messages_display := messages_display st;
     container := v; title := title st;
     input_value := input_value st; send_disabled := send_disabled st;
     conversations_list := conversations_list st; modal := modal st |}.

Definition set_title (v : jsstring) (st : State) : State :=
  {| currentConversationId := currentConversationId st;
     isWaitingForResponse := isWaitingForResponse st;
     messageMetadata := messageMetadata st;
     currentFeedbackMessageId := currentFeedbackMessageId st;
     currentFeedbackRating := currentFeedbackRating st;
     welcome_display := welcome_display st;
     messages_display := messages_display st;
     container := container st; title := v;
     input_value := input_value st; send_disabled := send_disabled st;
     conversations_list := conversations_list st; modal := modal st |}.

Definition set_input_value (v : jsstring) (st : State) : State :=
  {| currentConversationId := currentConversationId st;
     isWaitingForResponse := isWaitingForResponse st;
     messageMetadata := messageMetadata st;
     currentFeedbackMessageId := currentFeedbackMessageId st;
     currentFeedbackRating := currentFeedbackRating st;
     welcome_display := welcome_display st;
     messages_display := messages_display st;
     container := container st; title := title st;
     input_value := v; send_disabled := send_disabled st;
     conversations_list := conversations_list st; modal := modal st |}.

Definition set_send_disabled (v : bool) (st : State) : State :=
  {| currentConversationId := currentConversationId st;
     isWaitingForResponse := isWaitingForResponse st;
     messageMetadata := messageMetadata st;
     currentFeedbackMessageId := currentFeedbackMessageId st;
     currentFeedbackRating := currentFeedbackRating st;
     welcome_display := welcome_display st;
     messages_display := messages_display st;
     container := container st; title := title st;
     input_value := input_value st; send_disabled := v;
     conversations_list := conversations_list st; modal := modal st |}.

Definition set_conversations_list (v : html) (st : State) : State :=
  {| currentConversationId := currentConversationId st;
     isWaitingForResponse := isWaitingForResponse st;
     messageMetadata := messageMetadata st;
     currentFeedbackMessageId := currentFeedbackMessageId st;
     currentFeedbackRating := currentFeedbackRating st;
     welcome_display := welcome_display st;
     messages_display := messages_display st;
     container := container st; title := title st;
     input_value := input_value st; send_disabled := send_disabled st;
     conversations_list := v; modal := modal st |}.

(** *** Requests, replies and effects *)

Inductive format := PDF | CSV.

#[export] Instance format_eq_dec : EqDecision format.
Proof. solve_decision. Defined.

(** The [result] object posted to [/api/export/pdf] and [/csv]; a
    property whose value is [undefined] is left out by
    [JSON.stringify]. *)
Record Envelope := {
  env_query : jsstring;
  env_answer : option jsstring;
  env_evidence : list EvidenceItem;
  env_confidence : number;
  env_model : jsstring;
  env_trace_id : jsstring;
  env_source_count : N;
  env_timestamp : jsstring
}.

(** The body posted to [/api/feedback]; [evidence_count] is only sent
    by [submitFeedback]. *)
Record Feedback := {
  fb_query : jsstring;
  fb_answer : option jsstring;
  fb_rating : N;
  fb_relevance : jsstring;
  fb_accuracy : jsstring;
  fb_comments : jsstring;
  fb_trace_id : jsstring;
  fb_evidence_count : option nat
}.

Inductive request :=
  | GetConversations                                  (* GET /api/conversations *)
  | PostConversations (title : jsstring)              (* POST /api/conversations *)
  | GetConversation (convId : jsstring)               (* GET /api/conversations/id *)
  | DeleteConversation (convId : jsstring)            (* DELETE /api/conversations/id *)
  | PostMessage (conv : option jsstring) (message : jsstring)
  | PostExport (f : format) (result : Envelope)
  | PostFeedback (body : Feedback).

(** The handler that is suspended on a request. *)
Inductive cont :=
  | KLoadConversations
  | KCreateNewChat
  | KLoadConversation (convId : jsstring)
  | KDeleteConversation (convId : jsstring)
  | KSendMessage
  | KExport (f : format)
  | KQuickFeedback
  | KSubmitFeedback.

#[export] Instance cont_eq_dec : EqDecision cont.
Proof. solve_decision. Defined.

(** The JSON bodies of the service, and the binary payload of an
    export.  [BError] is the [{error}] object of a non-2xx response. *)
Inductive body :=
  | BConversations (conversations : list (jsstring * jsstring))  (* id, title *)
  | BCreated (conversation_id : jsstring)
  | BConversation (title : jsstring) (messages : list Message)
  | BAnswer (assistant_message : jsstring) (metadata : option Metadata)
  | BError (error : option jsstring)
  | BOther.

(** How a request settles: the promise of [fetch] (or of reading the
    body) rejects with an error message, or a response arrives with its
    [ok] flag and body. *)
Inductive reply :=
  | Rejected (message : jsstring)
  | Response (ok : bool) (b : body).

Inductive effect :=
  | Alert (message : jsstring)
  | ConsoleError (label : jsstring)
  | Fetch (r : request) (k : cont)
  | Download (filename : jsstring)
  | Toast (message : jsstring)
  (** an exception leaves an [async] function outside any [try] *)
  | UnhandledRejection (message : jsstring).

Definition is_fetch (e : effect) : bool :=
  match e with Fetch _ _ => true | _ => false end.

Definition is_alert (e : effect) : bool :=
  match e with Alert _ => true | _ => false end.

(** *** Message rendering *)

(** [timestamp ? new Date(timestamp).toLocaleTimeString()
              : new Date().toLocaleTimeString()] *)
Definition message_time (c : Clock) (timestamp : option jsstring) : jsstring :=
  match timestamp with
  | Some t => if truthy t then toLocaleTimeString t else time_now c
  | None => time_now c
  end.

Definition append_element (e : element) (st : State) : State :=
  set_container (container st ++ [e]) st.

Definition message_header (who : string) (time : jsstring) : html :=
  [ Div "div" "message-header";
    Div "span" "message-role"; T who; Close "span";
    Div "span" "message-time"; Content (Gen time); Close "span";
    Close "div" ].

Definition userMessage_html (content time : jsstring) : html :=
  [ Div "div" "message user";
    Div "div" "message-avatar"; Content (Lit Glyph.bust); Close "div";
    Div "div" "message-content" ]
  ++ message_header "You" time
  ++ [ Div "div" "message-text";
       Content (Str (escapeHtml content));
       Close "div";
       Close "div";
       Close "div" ].

(** [appendUserMessage(content, timestamp = null)] *)
Definition appendUserMessage (c : Clock) (content : jsstring)
    (timestamp : option jsstring) (st : State) : State :=
  append_element
    {| kind := KUser;
       outer := userMessage_html content (message_time c timestamp);
       active := None |} st.

(** ['msg-' + Date.now() + '-' + Math.random().toString(36).substr(2, 9)] *)
Definition new_messageId (c : Clock) : jsstring :=
  lit "msg-" +++ decimal (date_now c) +++ lit "-" +++ random36 c.

(** One evidence item of the chat transcript; [i] is the index [map]
    passes. *)
Definition evidence_item_html (i : nat) (e : EvidenceItem) : html :=
  [ Div "div" "evidence-item";
    Div "div" "evidence-source";
    T "["; Content (Gen (decimal_nat (i + 1))); T "] ";
    Content (Str (escapeHtml (or_else (actor e) (lit "Unknown"))));
    Content (Lit Glyph.bullet);
    Content (Str (escapeHtml (source e)));
    Close "div";
    Div "div" "evidence-text";
    Content (Str (escapeHtml (text e)));
    Close "div";
    Close "div" ].

(** [metadata.evidence.slice(0, 3).map(...).join('')] *)
Definition evidence_items_html (ev : list EvidenceItem) : html :=
  mjoin (imap evidence_item_html (take 3 ev)).

(** The block added when [metadata.evidence] is a non-empty array. *)
Definition evidence_html (ev : list EvidenceItem) : html :=
  match ev with
  | [] => []
  | _ :: _ =>
      [ Div "div" "message-evidence";
        Div "div" "evidence-header";
        Open "span" []; Content (Lit Glyph.books); T " Evidence Sources";
        Close "span";
        Div "span" "evidence-count";
        Content (Gen (decimal_nat (length ev)));
        Close "span";
        Close "div";
        Div "div" "evidence-list" ]
      ++ evidence_items_html ev
      ++ [ Close "div"; Close "div" ]
  end.

Definition action_button (cls : string) (call : string) (messageId : jsstring)
    (rest : string) (tip : string) (label : html) : html :=
  [ Open "button"
      [ ("class"%string, [Lit (lit cls)]);
        ("onclick"%string, [Lit (lit call); Gen messageId; Lit (lit rest)]);
        ("title"%string, [Lit (lit tip)]) ] ]
  ++ label ++ [ Close "button" ].

Definition message_actions_html (messageId : jsstring) : html :=
  [ Div "div" "message-actions" ]
  ++ action_button "action-btn feedback-btn" "openFeedbackModal('" messageId "')"
       "Provide Feedback" [Content (Lit Glyph.speech); T " Feedback"]
  ++ action_button "action-btn" "exportMessagePDF('" messageId "')"
       "Export as PDF" [Content (Lit Glyph.page); T " PDF"]
  ++ action_button "action-btn" "exportMessageCSV('" messageId "')"
       "Export as CSV" [Content (Lit Glyph.chart); T " CSV"]
  ++ action_button "action-btn-icon" "quickFeedback('" messageId "', 'positive')"
       "Helpful" [Content (Lit Glyph.thumbs_up)]
  ++ action_button "action-btn-icon" "quickFeedback('" messageId "', 'negative')"
       "Not Helpful" [Content (Lit Glyph.thumbs_down)]
  ++ [ Close "div" ].

Definition assistantMessage_html (messageId content : jsstring)
    (metadata : Metadata) (time : jsstring) : html :=
  [ Div "div" "message assistant";
    Div "div" "message-avatar"; Content (Lit Glyph.shield); Close "div";
    Div "div" "message-content" ]
  ++ message_header "Threat-AI" time
  ++ [ Div "div" "message-text";
       Content (Str (escapeHtml content));
       Close "div" ]
  ++ evidence_html (evidence metadata)
  ++ message_actions_html messageId
  ++ [ Close "div"; Close "div" ].

(** [appendAssistantMessage(content, metadata = {}, timestamp = null)]:
    the id is generated, the registry entry is written (the registry is
    created first if it does not exist yet), then the element is
    inserted.  An [undefined] content is stored as it is; assigned to
    [textContent] by [escapeHtml] it gives the empty text. *)
Definition appendAssistantMessage (c : Clock) (content : option jsstring)
    (metadata : option Metadata) (timestamp : option jsstring)
    (st : State) : State :=
  let metadata := default no_metadata metadata in
  let time := message_time c timestamp in
  let messageId := new_messageId c in
  let registry := default ∅ (messageMetadata st) in
  let st := set_messageMetadata
              (<[ messageId := {| entry_content := content;
                                  entry_metadata := metadata |} ]> registry) st in
  append_element
    {| kind := KAssistant messageId;
       outer := assistantMessage_html messageId (default [] content)
                  metadata time;
       active := None |} st.

Definition errorMessage_html (error time : jsstring) : html :=
  [ Div "div" "message assistant";
    Div "div" "message-avatar"; Content (Lit Glyph.warning); Close "div";
    Div "div" "message-content" ]
  ++ message_header "System" time
  ++ [ Open "div" [ ("class"%string, [Lit (lit "message-text")]);
                    ("style"%string, [Lit (lit "color: var(--error);")]) ];
       Open "strong" []; T "Error:"; Close "strong"; T " ";
       Content (Str (escapeHtml error));
       Close "div";
       Close "div";
       Close "div" ].

(** [appendErrorMessage(error)] *)
Definition appendErrorMessage (c : Clock) (error : jsstring) (st : State) : State :=
  append_element
    {| kind := KError; outer := errorMessage_html error (time_now c); active := None |} st.

Definition typingIndicator_html : html :=
  [ Div "div" "message assistant typing-message";
    Div "div" "message-avatar"; Content (Lit Glyph.shield); Close "div";
    Div "div" "message-content";
    Div "div" "typing-indicator";
    Div "div" "typing-dot"; Close "div";
    Div "div" "typing-dot"; Close "div";
    Div "div" "typing-dot"; Close "div";
    Close "div";
    Close "div";
    Close "div" ].

(** [appendTypingIndicator()] *)
Definition appendTypingIndicator (st : State) : State :=
  append_element {| kind := KTyping; outer := typingIndicator_html; active := None |} st.

Definition is_typing (e : element) : bool :=
  match kind e with KTyping => true | _ => false end.

(** [document.querySelector('.typing-message')] followed by [remove()]:
    the first element of that class, if there is one, is removed.  The
    class is carried by typing indicators only. *)
Fixpoint remove_first_typing (l : list element) : list element :=
  match l with
  | [] => []
  | e :: r => if is_typing e then r else e :: remove_first_typing r
  end.

(** [removeTypingIndicator()] *)
Definition removeTypingIndicator (st : State) : State :=
  set_container (remove_first_typing (container st)) st.

(** *** Conversation management *)

(** [loadConversations()] up to its [await fetch('/api/conversations')]. *)
Definition loadConversations (st : State) : State * list effect :=
  (st, [Fetch GetConversations KLoadConversations]).

Definition conversation_item_html (current : option jsstring)
    (conv : jsstring * jsstring) : html :=
  let '(id, title) := conv in
  [ Open "div"
      [ ("class"%string,
         [Lit (lit "conversation-item ");
          Lit (if decide (Some id = current) then lit "active" else [])]);
        ("onclick"%string,
         [Lit (lit "loadConversation('"); Str id; Lit (lit "')")]) ];
    Div "span" "conversation-title";
    Content (Str (escapeHtml title));
    Close "span";
    Open "button"
      [ ("class"%string, [Lit (lit "conversation-delete")]);
        ("onclick"%string,
         [Lit (lit "event.stopPropagation(); deleteConversation('");
          Str id; Lit (lit "')")]);
        ("title"%string, [Lit (lit "Delete")]) ];
    Content (Lit Glyph.bin);
    Close "button";
    Close "div" ].

(** [data.conversations] of a response body; [None] is [undefined]. *)
Definition body_conversations (b : body) : option (list (jsstring * jsstring)) :=
  match b with BConversations cs => Some cs | _ => None end.

(** [loadConversations()] from the moment its request settles.  Reading
    [length] of an absent [conversations] raises a [TypeError], which
    the [catch] logs. *)
Definition loadConversations_settled (r : reply) (st : State)
    : State * list effect :=
  match r with
  | Rejected _ => (st, [ConsoleError (lit "Error loading conversations:")])
  | Response _ b =>
      match body_conversations b with
      | None => (st, [ConsoleError (lit "Error loading conversations:")])
      | Some [] =>
          (set_conversations_list
             [ Div "div" "empty-conversations"; T "No conversations yet";
               Close "div" ] st, [])
      | Some cs =>
          (set_conversations_list
             (mjoin (conversation_item_html (currentConversationId st) <$> cs)) st,
           [])
      end
  end.

(** [createNewChat()] up to its [await fetch(...)]. *)
Definition createNewChat (st : State) : State * list effect :=
  (st, [Fetch (PostConversations (lit "New Chat")) KCreateNewChat]).

(** [data.conversation_id] of a response body. *)
Definition body_conversation_id (b : body) : option jsstring :=
  match b with BCreated id => Some id | _ => None end.

(** [createNewChat()] from the moment its request settles. *)
Definition createNewChat_settled (r : reply) (st : State)
    : State * list effect :=
  match r with
  | Rejected _ =>
      (st, [ConsoleError (lit "Error creating conversation:");
            Alert (lit "Error creating new chat")])
  | Response _ b =>
      let st := set_currentConversationId (body_conversation_id b) st in
      let st := set_displays DFlex DNone st in
      let st := set_container [] st in
      let st := set_title (lit "Threat Intelligence Chat") st in
      loadConversations st
  end.

(** [loadConversation(convId)] up to its [await fetch(...)]. *)
Definition loadConversation (convId : jsstring) (st : State)
    : State * list effect :=
  (st, [Fetch (GetConversation convId) (KLoadConversation convId)]).

(** The body of [conversation.messages.forEach]; [env i] is what the
    [i]-th iteration reads from the clock and the random generator. *)
Fixpoint render_messages (env : nat -> Clock) (i : nat) (ms : list Message)
    (st : State) : State :=
  match ms with
  | [] => st
  | msg :: rest =>
      let st :=
        if decide (role msg = lit "user")
        then appendUserMessage (env i) (content msg) (timestamp msg) st
        else appendAssistantMessage (env i) (Some (content msg))
               (metadata msg) (timestamp msg) st in
      render_messages env (S i) rest st
  end.

(** [conversation.title] and [conversation.messages] of a response
    body; [None] is [undefined]. *)
Definition body_title (b : body) : option jsstring :=
  match b with BConversation t _ => Some t | _ => None end.

Definition body_messages (b : body) : option (list Message) :=
  match b with BConversation _ ms => Some ms | _ => None end.

(** [loadConversation(convId)] from the moment its request settles.
    The [ok] flag of the response is not consulted.  Assigning
    [undefined] to [textContent] empties the title; calling [forEach]
    on an absent [messages] raises a [TypeError], which the [catch]
    logs and reports. *)
Definition loadConversation_settled (convId : jsstring) (env : nat -> Clock)
    (r : reply) (st : State) : State * list effect :=
  let failed := [ConsoleError (lit "Error loading conversation:");
                 Alert (lit "Error loading conversation")] in
  match r with
  | Rejected _ => (st, failed)
  | Response _ conversation =>
      let st := set_currentConversationId (Some convId) st in
      let st := set_displays DNone DBlock st in
      let st := set_title (default [] (body_title conversation)) st in
      let st := set_container [] st in
      match body_messages conversation with
      | None => (st, failed)
      | Some ms => loadConversations (render_messages env 0 ms st)
      end
  end.

(** [deleteConversation(convId)] up to its [await fetch(...)];
    [confirmed] is the answer to the [confirm] dialog. *)
Definition deleteConversation (convId : jsstring) (confirmed : bool)
    (st : State) : State * list effect :=
  if negb confirmed then (st, [])
  else (st, [Fetch (DeleteConversation convId) (KDeleteConversation convId)]).

(** [deleteConversation(convId)] from the moment its request settles.
    The response is not read. *)
Definition deleteConversation_settled (convId : jsstring) (r : reply)
    (st : State) : State * list effect :=
  match r with
  | Rejected _ =>
      (st, [ConsoleError (lit "Error deleting conversation:");
            Alert (lit "Error deleting conversation")])
  | Response _ _ =>
      if decide (Some convId = currentConversationId st)
      then createNewChat st
      else loadConversations st
  end.

(** *** Messaging *)

(** [sendMessage()] up to its [await fetch(...)]. *)
Definition sendMessage (c : Clock) (st : State) : State * list effect :=
  let message := trim (input_value st) in
  if negb (truthy message) || isWaitingForResponse st then (st, [])
  else
    let conv := currentConversationId st in
    let st :=
      if decide (welcome_display st ≠ DNone)
      then set_displays DNone DBlock st else st in
    let st := set_input_value [] st in
    let st := appendUserMessage c message None st in
    let st := appendTypingIndicator st in
    let st := set_isWaitingForResponse true st in
    let st := set_send_disabled true st in
    (st, [Fetch (PostMessage conv message) KSendMessage]).

(** The [finally] block of [sendMessage]. *)
Definition sendMessage_finally (st : State) : State :=
  set_send_disabled false (set_isWaitingForResponse false st).

(** [data.error], [data.assistant_message] and [data.metadata] of a
    response body; [None] is [undefined]. *)
Definition body_error (b : body) : option jsstring :=
  match b with BError e => e | _ => None end.

Definition body_assistant_message (b : body) : option jsstring :=
  match b with BAnswer a _ => Some a | _ => None end.

Definition body_metadata (b : body) : option Metadata :=
  match b with BAnswer _ md => md | _ => None end.

(** [sendMessage()] from the moment its request settles.  When a 2xx
    body has no [assistant_message], the message is still rendered and
    registered; the call of [substring] then raises a [TypeError] and
    the [catch] block runs. *)
Definition sendMessage_settled (c : Clock) (r : reply) (st : State)
    : State * list effect :=
  match r with
  | Response true data =>
      let st := removeTypingIndicator st in
      let st := appendAssistantMessage c (body_assistant_message data)
                  (body_metadata data) None st in
      match body_assistant_message data with
      | Some assistant_message =>
          let st := set_title (substring0 50 assistant_message) st in
          let '(st, fx) := loadConversations st in
          (sendMessage_finally st, fx)
      | None =>
          let st := removeTypingIndicator st in
          let st := appendErrorMessage c
                      (lit "Connection error: "
                       +++ type_error_message (lit "substring")) st in
          (sendMessage_finally st, [])
      end
  | Response false data =>
      let st := removeTypingIndicator st in
      let st := appendErrorMessage c
                  (or_else (body_error data) (lit "Unknown error")) st in
      (sendMessage_finally st, [])
  | Rejected message =>
      let st := removeTypingIndicator st in
      let st := appendErrorMessage c (lit "Connection error: " +++ message) st in
      (sendMessage_finally st, [])
  end.

(** [useExample(prompt)] *)
Definition useExample (c : Clock) (prompt : jsstring) (st : State)
    : State * list effect :=
  sendMessage c (set_input_value prompt st).

(** *** The registry seen from a reader *)

(** The outcome of [window.messageMetadata[messageId]]. *)
Inductive lookup :=
  (** [window.messageMetadata] is undefined: the read raises *)
  | NoRegistry
  (** no such property: [undefined] *)
  | Absent
  (** no own property, but [Object.prototype] has one of that name: a
      truthy value without [content] and [metadata] *)
  | Inherited
  (** an entry written by [appendAssistantMessage] *)
  | Own (e : Entry).

Definition registry_get (messageId : jsstring) (st : State) : lookup :=
  match messageMetadata st with
  | None => NoRegistry
  | Some registry =>
      match registry !! messageId with
      | Some e => Own e
      | None => if proto_has messageId then Inherited else Absent
      end
  end.

(** *** Export *)

Definition envelope (c : Clock) (msgData : Entry) : Envelope :=
  let md := entry_metadata msgData in
  {| env_query := lit "Chat Export";
     env_answer := entry_content msgData;
     env_evidence := evidence md;
     env_confidence := num_or_zero (confidence md);
     env_model := or_else (model md) (lit "Unknown");
     env_trace_id := or_else (trace_id md) [];
     env_source_count := default 0 (source_count md);
     env_timestamp := iso_now c |}.

Definition export_label (f : format) : jsstring :=
  match f with
  | PDF => lit "Error exporting PDF:"
  | CSV => lit "Error exporting CSV:"
  end.

Definition export_alert (f : format) (message : jsstring) : jsstring :=
  match f with
  | PDF => lit "Error exporting PDF: " +++ message
  | CSV => lit "Error exporting CSV: " +++ message
  end.

(** The [catch] block of the two export functions. *)
Definition export_failed (f : format) (message : jsstring) : list effect :=
  [ConsoleError (export_label f); Alert (export_alert f message)].

(** The common text of [exportMessagePDF] and [exportMessageCSV] up to
    the [await fetch(...)]. *)
Definition exportMessage (f : format) (c : Clock) (messageId : jsstring)
    (st : State) : State * list effect :=
  match registry_get messageId st with
  | NoRegistry => (st, export_failed f (type_error_message messageId))
  | Absent => (st, export_failed f (lit "Message data not found"))
  | Inherited => (st, export_failed f (type_error_message (lit "evidence")))
  | Own msgData =>
      (st, [Fetch (PostExport f (envelope c msgData)) (KExport f)])
  end.

(** [exportMessagePDF(messageId)] *)
Definition exportMessagePDF := exportMessage PDF.

(** [exportMessageCSV(messageId)] *)
Definition exportMessageCSV := exportMessage CSV.

Definition export_filename (f : format) (c : Clock) : jsstring :=
  match f with
  | PDF => lit "threat-ai-report-" +++ decimal (date_now c) +++ lit ".pdf"
  | CSV => lit "threat-ai-export-" +++ decimal (date_now c) +++ lit ".csv"
  end.

(** An export function from the moment its request settles. *)
Definition exportMessage_settled (f : format) (c : Clock) (r : reply)
    (st : State) : State * list effect :=
  match r with
  | Rejected message => (st, export_failed f message)
  | Response false _ => (st, export_failed f (lit "Export failed"))
  | Response true _ => (st, [Download (export_filename f c)])
  end.

(** *** Feedback *)

Definition closed_modal (m : Modal) : Modal :=
  {| modal_display := DNone; modal_relevance := modal_relevance m;
     modal_accuracy := modal_accuracy m; modal_comments := modal_comments m |}.

(** Lines 612-614 of [quickFeedback]: the icon buttons next to the
    clicked one lose the class [active] and the clicked one gets it.
    [target] stands for [event.target]: the position in the transcript
    of the message whose button was clicked, and the button. *)
Definition highlight (target : nat * icon) (st : State) : State :=
  set_container
    (alter (λ e, {| kind := kind e; outer := outer e;
                    active := Some target.2 |})
       target.1 (container st)) st.

(** [quickFeedback(messageId, type)] up to its [await fetch(...)].
    The registry is read first, outside the [try]; when the guard
    passes the clicked button is highlighted, and only then the request
    is built.  For an inherited property the guard passes, the button
    is highlighted and building the request body raises inside the
    [try]. *)
Definition quickFeedback (target : nat * icon) (messageId type : jsstring)
    (st : State) : State * list effect :=
  match registry_get messageId st with
  | NoRegistry => (st, [UnhandledRejection (type_error_message messageId)])
  | Absent => (st, [])
  | Inherited =>
      (highlight target st,
       [ConsoleError (lit "Error submitting quick feedback:")])
  | Own msgData =>
      let positive := bool_decide (type = lit "positive") in
      (highlight target st,
       [Fetch (PostFeedback
                 {| fb_query := lit "Chat message";
                    fb_answer := entry_content msgData;
                    fb_rating := if positive then 5 else 1;
                    fb_relevance := if positive then lit "relevant"
                                    else lit "not_relevant";
                    fb_accuracy := [];
                    fb_comments := lit "Quick feedback: " +++ type;
                    fb_trace_id :=
                      or_else (trace_id (entry_metadata msgData)) [];
                    fb_evidence_count := None |})
              KQuickFeedback])
  end.

(** A click on icon button [b] of the element at position [i] of the
    transcript: the [onclick] attribute of the button calls
    [quickFeedback] with the id of its message and the type of the
    button.  Where there is no such button nothing happens. *)
Definition clickIcon (i : nat) (b : icon) (st : State)
    : State * list effect :=
  match kind <$> container st !! i with
  | Some (KAssistant messageId) =>
      quickFeedback (i, b) messageId (icon_type b) st
  | _ => (st, [])
  end.

(** [quickFeedback] from the moment its request settles. *)
Definition quickFeedback_settled (r : reply) (st : State)
    : State * list effect :=
  match r with
  | Rejected _ => (st, [ConsoleError (lit "Error submitting quick feedback:")])
  | Response _ _ => (st, [])
  end.

(** [openFeedbackModal(messageId)] *)
Definition openFeedbackModal (messageId : jsstring) (st : State) : State :=
  set_feedback (Some messageId) 0
    {| modal_display := DFlex; modal_relevance := [];
       modal_accuracy := []; modal_comments := [] |} st.

(** [closeFeedbackModal()] *)
Definition closeFeedbackModal (st : State) : State :=
  set_feedback None 0 (closed_modal (modal st)) st.

(** [setModalRating(rating)] *)
Definition setModalRating (rating : N) (st : State) : State :=
  set_feedback (currentFeedbackMessageId st) rating (modal st) st.

(** The user fills in the three fields of the modal. *)
Definition fillModal (relevance accuracy comments : jsstring) (st : State) : State :=
  set_feedback (currentFeedbackMessageId st) (currentFeedbackRating st)
    {| modal_display := modal_display (modal st); modal_relevance := relevance;
       modal_accuracy := accuracy; modal_comments := comments |} st.

(** [submitFeedback()] up to its [await fetch(...)]. *)
Definition submitFeedback (st : State) : State * list effect :=
  if negb (present (currentFeedbackMessageId st)) then (st, [])
  else
    let id := default [] (currentFeedbackMessageId st) in
    let relevance := modal_relevance (modal st) in
    let accuracy := modal_accuracy (modal st) in
    let comments := modal_comments (modal st) in
    let nothing_given :=
      (currentFeedbackRating st =? 0) && negb (truthy relevance)
      && negb (truthy accuracy) && negb (truthy comments) in
    let incomplete := [Alert (lit "Please provide at least one piece of feedback")] in
    match registry_get id st with
    | NoRegistry => (st, [UnhandledRejection (type_error_message id)])
    | Absent => (st, [Alert (lit "Message data not found")])
    | Inherited =>
        if nothing_given then (st, incomplete)
        else (st, [ConsoleError (lit "Error submitting feedback:");
                   Alert (lit "Error submitting feedback: "
                          +++ type_error_message (lit "trace_id"))])
    | Own msgData =>
        if nothing_given then (st, incomplete)
        else
          (st, [Fetch (PostFeedback
                         {| fb_query := lit "Chat message";
                            fb_answer := entry_content msgData;
                            fb_rating := currentFeedbackRating st;
                            fb_relevance := relevance;
                            fb_accuracy := accuracy;
                            fb_comments := comments;
                            fb_trace_id :=
                              or_else (trace_id (entry_metadata msgData)) [];
                            fb_evidence_count :=
                              Some (length (evidence (entry_metadata msgData))) |})
                      KSubmitFeedback])
    end.

(** [submitFeedback()] from the moment its request settles. *)
Definition submitFeedback_settled (r : reply) (st : State)
    : State * list effect :=
  match r with
  | Rejected message =>
      (st, [ConsoleError (lit "Error submitting feedback:");
            Alert (lit "Error submitting feedback: " +++ message)])
  | Response true _ =>
      (closeFeedbackModal st,
       [Toast (Glyph.check_mark +++ lit " Thank you for your feedback!")])
  | Response false _ => (st, [Alert (lit "Error submitting feedback")])
  end.

(** The [keydown] listener of the document: Escape closes an open modal. *)
Definition escapeKey (st : State) : State :=
  if decide (modal_display (modal st) = DFlex) then closeFeedbackModal st else st.

(** *** The event loop

    The page reacts to user events and to settling requests, one handler
    at a time.  [inflight] lists the suspended handlers in the order in
    which their requests were issued; requests may settle in any order. *)

Record System := {
  page : State;
  inflight : list cont;
  log : list effect
}.

Inductive event :=
  | Types (s : jsstring)                      (* edits #message-input *)
  | PressesSend (c : Clock)                   (* send button, or Enter *)
  | PicksExample (c : Clock) (prompt : jsstring)
  | ClicksNewChat
  | ClicksConversation (convId : jsstring)
  | ClicksDelete (convId : jsstring) (confirmed : bool)
  | ClicksExport (f : format) (c : Clock) (messageId : jsstring)
  | ClicksQuickFeedback (i : nat) (b : icon)   (* an icon button of element i *)
  | OpensModal (messageId : jsstring)
  | ClosesModal
  | SetsRating (rating : N)
  | FillsModal (relevance accuracy comments : jsstring)
  | SubmitsFeedback
  | PressesEscape
  (** the [i]-th request in flight settles with [r] *)
  | Settles (i : nat) (r : reply) (env : nat -> Clock).

(** The handlers suspended by the requests of a list of effects. *)
Definition spawned (fx : list effect) : list cont :=
  fx ≫= λ e, match e with Fetch _ k => [k] | _ => [] end.

(** The continuation of a suspended handler. *)
Definition resume (k : cont) (env : nat -> Clock) (r : reply) (st : State)
    : State * list effect :=
  match k with
  | KLoadConversations => loadConversations_settled r st
  | KCreateNewChat => createNewChat_settled r st
  | KLoadConversation convId => loadConversation_settled convId env r st
  | KDeleteConversation convId => deleteConversation_settled convId r st
  | KSendMessage => sendMessage_settled (env 0%nat) r st
  | KExport f => exportMessage_settled f (env 0%nat) r st
  | KQuickFeedback => quickFeedback_settled r st
  | KSubmitFeedback => submitFeedback_settled r st
  end.

(** The handler a user event runs. *)
Definition handle (ev : event) (st : State) : State * list effect :=
  match ev with
  | Types s => (set_input_value s st, [])
  | PressesSend c => sendMessage c st
  | PicksExample c prompt => useExample c prompt st
  | ClicksNewChat => createNewChat st
  | ClicksConversation convId => loadConversation convId st
  | ClicksDelete convId confirmed => deleteConversation convId confirmed st
  | ClicksExport f c messageId => exportMessage f c messageId st
  | ClicksQuickFeedback i b => clickIcon i b st
  | OpensModal messageId => (openFeedbackModal messageId st, [])
  | ClosesModal => (closeFeedbackModal st, [])
  | SetsRating rating => (setModalRating rating st, [])
  | FillsModal relevance accuracy comments =>
      (fillModal relevance accuracy comments st, [])
  | SubmitsFeedback => submitFeedback st
  | PressesEscape => (escapeKey st, [])
  | Settles _ _ _ => (st, [])
  end.

Definition after (sys : System) (pending : list cont)
    (out : State * list effect) : System :=
  {| page := out.1;
     inflight := pending ++ spawned out.2;
     log := log sys ++ out.2 |}.

(** One turn of the event loop; [None] when the event cannot happen:
    no request is in flight at position [i]. *)
Definition step (sys : System) (ev : event) : option System :=
  match ev with
  | Settles i r env =>
      k ← inflight sys !! i;
      Some (after sys (delete i (inflight sys)) (resume k env r (page sys)))
  | _ => Some (after sys (inflight sys) (handle ev (page sys)))
  end.

Fixpoint run (sys : System) (evs : list event) : option System :=
  match evs with
  | [] => Some sys
  | ev :: rest => sys' ← step sys ev; run sys' rest
  end.

(** The page when the script is loaded: the globals have the values of
    their declarations and the transcript is empty. *)
Definition fresh (st : State) : Prop :=
  currentConversationId st = None
  ∧ isWaitingForResponse st = false
  ∧ messageMetadata st = None
  ∧ currentFeedbackMessageId st = None
  ∧ currentFeedbackRating st = 0
  ∧ container st = [].

(** The [DOMContentLoaded] listener: of the calls it makes,
    [loadConversations()] and [createNewChat()] touch the state
    described here; the status line and the example prompts have
    elements of their own. *)
Definition boot (st : State) : System :=
  let '(st, fx1) := loadConversations st in
  let '(st, fx2) := createNewChat st in
  {| page := st; inflight := spawned (fx1 ++ fx2); log := fx1 ++ fx2 |}.

Definition reachable (sys : System) : Prop :=
  ∃ st evs, fresh st ∧ run (boot st) evs = Some sys.

(** *** Observations used in the statements *)

(** [messageId] has an entry in the registry. *)
Definition has_entry (messageId : jsstring) (st : State) : Prop :=
  ∃ registry, messageMetadata st = Some registry
              ∧ is_Some (registry !! messageId).

(** The number of [sendMessage] calls that wait for their response. *)
Definition sends_in_flight (sys : System) : nat :=
  length (filter (λ k, k = KSendMessage) (inflight sys)).

(** The number of typing indicators in the transcript. *)
Definition typing_indicators (st : State) : nat :=
  length (filter (λ e, is_typing e = true) (container st)).


(** The requests of a list of effects. *)
Definition requests (fx : list effect) : list request :=
  fx ≫= λ e, match e with Fetch r _ => [r] | _ => [] end.

(** The alerts of a list of effects. *)
Definition alerts (fx : list effect) : list jsstring :=
  fx ≫= λ e, match e with Alert m => [m] | _ => [] end.

Definition is_chat_call (r : request) : bool :=
  match r with PostMessage _ _ => true | _ => false end.

(** The chat calls of a list of effects. *)
Definition chat_calls (fx : list effect) : list request :=
  filter (λ r, is_chat_call r = true) (requests fx).

(** Two elements that differ at most in the highlighting of an icon
    button. *)
Definition same_render (e e' : element) : Prop :=
  kind e = kind e' ∧ outer e = outer e'.

(** *** Invariants of the event loop *)

(** Every assistant message of the transcript has a registry entry
    under the id of its buttons. *)
Definition entries_ok (st : State) : Prop :=
  ∀ e messageId,
    e ∈ container st → kind e = KAssistant messageId → has_entry messageId st.

(** A typing indicator is shown only while a send waits, and there is
    at most one. *)
Definition indicator_ok (st : State) : Prop :=
  (typing_indicators st ≤ if isWaitingForResponse st then 1 else 0)%nat.

(** The pending flag is set exactly while one send is in flight. *)
Definition flag_ok (sys : System) : Prop :=
  sends_in_flight sys = if isWaitingForResponse (page sys) then 1%nat else 0%nat.

Definition invariant (sys : System) : Prop :=
  flag_ok sys ∧ indicator_ok (page sys) ∧ entries_ok (page sys).

(** The registry only grows. *)
Definition entries_kept (st st' : State) : Prop :=
  ∀ messageId, has_entry messageId st → has_entry messageId st'.

(** A handler run that neither starts nor finishes a send. *)
Definition neutral (st : State) (out : State * list effect) : Prop :=
  isWaitingForResponse out.1 = isWaitingForResponse st
  ∧ filter (λ k, k = KSendMessage) (spawned out.2) = []
  ∧ (typing_indicators out.1 ≤ typing_indicators st)%nat
  ∧ (entries_ok st → entries_ok out.1)
  ∧ entries_kept st out.1.

End WithPlatform.
End Chat.

(** ** Reading the generated HTML *)

Module Read.

#[export] Instance chunk_eq_dec : EqDecision chunk.
Proof. solve_decision. Defined.

(** An opening tag whose [class] attribute is exactly [cls]. *)
Definition opens (cls : string) (p : piece) : bool :=
  match p with
  | Open _ attrs =>
      bool_decide (("class"%string, [Lit (lit cls)]) ∈ attrs)
  | _ => false
  end.

(** The number of elements of class [cls] in a fragment. *)
Definition count_class (cls : string) (h : html) : nat :=
  length (filter (λ p, opens cls p = true) h).

(** The chunks that directly follow the opening tag of an element of
    class [cls]: the text such an element starts with. *)
Fixpoint first_text (cls : string) (h : html) : list chunk :=
  match h with
  | [] => []
  | p :: r =>
      (if opens cls p
       then match r with Content c :: _ => [c] | _ => [] end
       else [])
      ++ first_text cls r
  end.

(** The fragment does not begin with text. *)
Definition tag_first (h : html) : Prop :=
  match h with Content _ :: _ => False | _ => True end.

End Read.

(** ** Concrete inputs used by the examples *)

Module Sample.

(** A stand-in for the browser: numbers are counted in thousandths and
    printed as integers, times are printed as given, and the inherited
    property names are those of [Object.prototype]. *)
#[export] Instance platform : Platform := {|
  number := N;
  num_zero := 0;
  num_falsy := λ x, x =? 0;
  num_times100 := λ x, x * 100;
  toFixed := λ x _, decimal x;
  toLocaleTimeString := λ t, t;
  proto_has := λ k,
    bool_decide (k ∈ [lit "constructor"; lit "toString"; lit "valueOf";
                      lit "hasOwnProperty"; lit "isPrototypeOf";
                      lit "propertyIsEnumerable"; lit "toLocaleString";
                      lit "__proto__"; lit "__defineGetter__";
                      lit "__defineSetter__"; lit "__lookupGetter__";
                      lit "__lookupSetter__"]);
  type_error_message := λ p,
    lit "Cannot read properties of undefined (reading '" +++ p +++ lit "')"
|}.

Definition clock (n : N) : Chat.Clock :=
  {| Chat.date_now := 1700000000000 + n;
     Chat.random36 := lit "k3j9x0q2a";
     Chat.time_now := lit "10:15:00";
     Chat.iso_now := lit "2024-01-01T10:15:00.000Z" |}.

Definition env (i : nat) : Chat.Clock := clock (N.of_nat i).

(** The chat page as the document is loaded. *)
Definition blank : Chat.State :=
  {| Chat.currentConversationId := None;
     Chat.isWaitingForResponse := false;
     Chat.messageMetadata := None;
     Chat.currentFeedbackMessageId := None;
     Chat.currentFeedbackRating := 0;
     Chat.welcome_display := DInitial;
     Chat.messages_display := DInitial;
     Chat.container := [];
     Chat.title := lit "Threat Intelligence Chat";
     Chat.input_value := [];
     Chat.send_disabled := false;
     Chat.conversations_list := [];
     Chat.modal := {| Chat.modal_display := DInitial;
                      Chat.modal_relevance := [];
                      Chat.modal_accuracy := [];
                      Chat.modal_comments := [] |} |}.

(** The page after start-up: the list request returned no conversation
    and the first conversation was created with id [c1]. *)
Definition started : list Chat.event :=
  [ Chat.Settles 0 (Chat.Response true (Chat.BConversations [])) env;
    Chat.Settles 0 (Chat.Response true (Chat.BCreated (lit "c1"))) env;
    Chat.Settles 0 (Chat.Response true
                      (Chat.BConversations [(lit "c1", lit "New Chat")])) env ].

Definition evidence_item (n : N) : EvidenceItem :=
  {| actor := Some (lit "APT28"); source := lit "report-" +++ decimal n;
     text := lit "Spearphishing attachment"; score := 845 |}.

Definition four_items : Chat.Metadata :=
  {| Chat.evidence := evidence_item <$> [1; 2; 3; 4];
     Chat.confidence := Some 845;
     Chat.model := Some (lit "llama3");
     Chat.trace_id := Some (lit "7f3a9c1e-aaaa");
     Chat.source_count := Some 4 |}.

(** The query page as the document is loaded. *)
Definition app_blank : App.State :=
  {| App.lastResult := None; App.query_value := [];
     App.submit_disabled := false; App.results := [];
     App.center_display := DInitial; App.results_area_display := DInitial;
     App.feedback_display := DInitial; App.stars_active := [];
     App.feedback_relevance := []; App.feedback_accuracy := [];
     App.feedback_comments := [] |}.

Definition app_result (trace : option jsstring) : App.Result :=
  {| App.query := lit "What are common tactics used by APT28?";
     App.answer := lit "APT28 relies on spearphishing.";
     App.confidence := Some 845;
     App.evidence := evidence_item <$> [1; 2];
     App.model := lit "llama3";
     App.source_count := 2;
     App.timestamp := lit "10:15:00";
     App.trace_id := trace |}.

(** Runs of the chat page from the loaded document. *)
Definition run_from_boot (evs : list Chat.event) : Chat.System :=
  default (Chat.boot blank) (Chat.run (Chat.boot blank) evs).

Definition asks (question : string) (n : N) : list Chat.event :=
  [ Chat.Types (lit question); Chat.PressesSend (clock n) ].

(** The user has sent a question in conversation [c1]; the response is
    awaited. *)
Definition waiting_events : list Chat.event :=
  started ++ asks "Describe Emotet" 1.

Definition waiting : Chat.System := run_from_boot waiting_events.

(** The question was answered. *)
Definition answered_events : list Chat.event :=
  waiting_events
  ++ [ Chat.Settles 0
         (Chat.Response true
            (Chat.BAnswer (lit "Emotet is a banking trojan.") (Some four_items)))
         env ].

Definition answered : Chat.System := run_from_boot answered_events.

(** A conversation stored by the service under the title
    [Emotet analysis]. *)
Definition stored : list Chat.Message :=
  [ {| Chat.role := lit "user"; Chat.content := lit "What is Emotet?";
       Chat.metadata := None; Chat.timestamp := Some (lit "09:00:00") |};
    {| Chat.role := lit "assistant";
       Chat.content := lit "Emotet is a banking trojan.";
       Chat.metadata := Some four_items;
       Chat.timestamp := Some (lit "09:00:05") |} ].

(** The user has opened that conversation. *)
Definition opened_events : list Chat.event :=
  started
  ++ [ Chat.ClicksConversation (lit "c7");
       Chat.Settles 0
         (Chat.Response true (Chat.BConversation (lit "Emotet analysis") stored))
         env ].

Definition opened : Chat.System := run_from_boot opened_events.

(** The user asks a further question in the opened conversation and
    the service answers. *)
Definition follow_up : list Chat.event :=
  asks "Which sectors does it target?" 5
  ++ [ Chat.Settles 1
         (Chat.Response true
            (Chat.BAnswer (lit "Mostly finance and government.") None))
         env ].

(** The user deletes the active conversation [c1]; the deletion
    succeeds and the request that creates the replacement fails. *)
Definition delete_then_create_fails : list Chat.event :=
  started
  ++ [ Chat.ClicksDelete (lit "c1") true;
       Chat.Settles 0 (Chat.Response true Chat.BOther) env;
       Chat.Settles 0 (Chat.Rejected (lit "Failed to fetch")) env ].

(** The service answers a request for conversation [c2] with status 404
    and an error object. *)
Definition not_found : Chat.reply :=
  Chat.Response false (Chat.BError (Some (lit "Conversation not found"))).

(** The chat page with only blanks in the input box. *)
Definition blank_input : Chat.State := Chat.set_input_value (lit "   ") blank.

End Sample.

(** ** Further observations on the chat page *)

Module ChatObs.
Section WithPlatform.
Context {P : Platform}.
Import Chat.

(** The id in the action buttons of an element, if it has any. *)
Definition message_id (e : element) : option jsstring :=
  match kind e with KAssistant messageId => Some messageId | _ => None end.



(** The assistant messages of the transcript, in order. *)
Definition assistants (st : State) : list element :=
  filter (λ e, is_Some (message_id e)) (container st).




(** A string without white space at either end. *)
Definition trimmed (s : jsstring) : Prop :=
  match s with
  | [] => True
  | c :: _ => is_space c = false ∧ (is_space <$> last s) = Some false
  end.

(** A chat call carries a message that is not empty and has no white
    space at either end. *)
Definition well_formed (r : request) : Prop :=
  match r with
  | PostMessage _ message => message ≠ [] ∧ trimmed message
  | _ => True
  end.

(** The kind of the element that [loadConversation] renders for a
    stored message. *)
Definition rendered_kind (c : Clock) (msg : Message) : elkind :=
  if decide (role msg = lit "user") then KUser
  else KAssistant (new_messageId c).

End WithPlatform.
End ChatObs.

(** ** Strings in attribute position *)

Module Attr.

(** [s.replace(/'/g, "\\'")]: a backslash before every apostrophe. *)
Definition escape_apostrophes (s : jsstring) : jsstring :=
  s ≫= λ c, if c =? 39 then [92; 39] else [c].

(** The five characters [escapeHtml] of the query page replaces. *)
Definition special5 (c : N) : bool :=
  (c =? 38) || (c =? 60) || (c =? 62) || (c =? 34) || (c =? 39).

(** The four code units the text serialisation of the DOM replaces. *)
Definition special4 (c : N) : bool :=
  (c =? 38) || (c =? 160) || (c =? 60) || (c =? 62).

End Attr.

(** ** The example prompts of the chat page

    [loadExamplePrompts] of [src/unnamed/part_001]. *)

Module Prompts.

(** The card of one sample: the sample is substituted twice, in the
    argument of the [onclick] handler and as the text of the card. *)
Definition promptCard_html (sample : jsstring) : html :=
  [ Open "div"
      [ ("class"%string, [Lit (lit "prompt-card")]);
        ("onclick"%string,
         [ Lit (lit "useExample('");
           Str (Attr.escape_apostrophes (Chat.escapeHtml sample));
           Lit (lit "')") ]) ];
    Div "div" "prompt-card-text";
    Content (Str (Chat.escapeHtml sample));
    Close "div";
    Close "div" ].

(** [data.samples.slice(0, 4).map(...).join('')] *)
Definition examplePrompts_html (samples : list jsstring) : html :=
  mjoin (promptCard_html <$> take 4 samples).

(** The string substituted into the [onclick] attribute of a card. *)
Definition onclick_argument (sample : jsstring) : jsstring :=
  Attr.escape_apostrophes (Chat.escapeHtml sample).

End Prompts.

(** ** [debounce(func, wait)] of [src/static/js/app.js]

    The closure keeps one variable, [timeout].  The browser's timers
    are modelled by the map of the timers that are still to fire, each
    with the arguments its [later] closure captured, and by a supply of
    fresh timer ids.  The delay [wait] is not modelled: a live timer
    may fire at any later turn of the event loop. *)

Module Debounce.
Section WithArgs.
Context {A : Type}.

Record Timers := {
  timeout : option nat;     (* the variable [timeout]; None: undefined *)
  live : gmap nat A;        (* timers set and neither fired nor cleared *)
  next : nat                (* the id the next [setTimeout] returns *)
}.

Definition initial : Timers := {| timeout := None; live := ∅; next := 0 |}.

(** [clearTimeout(timeout)] *)
Definition clearTimeout (t : Timers) : Timers :=
  {| timeout := timeout t;
     live := match timeout t with
             | Some id => delete id (live t)
             | None => live t
             end;
     next := next t |}.

(** [executedFunction(...args)]: the pending timer is cleared and a new
    one is set whose [later] holds [args]. *)
Definition executedFunction (args : A) (t : Timers) : Timers :=
  let t := clearTimeout t in
  {| timeout := Some (next t);
     live := <[ next t := args ]> (live t);
     next := S (next t) |}.

(** The browser fires timer [id]: it leaves the live timers and its
    [later] runs, which clears [timeout] and calls [func(...args)].
    The result is the new state and the arguments [func] is called
    with; [None] when no such timer is live. *)
Definition fires (id : nat) (t : Timers) : option (Timers * A) :=
  args ← live t !! id;
  Some (clearTimeout {| timeout := timeout t;
                        live := delete id (live t);
                        next := next t |},
        args).

Inductive event :=
  | Calls (args : A)
  | Fires (id : nat).

(** A run of calls and firing timers: the final state and the calls of
    [func], in order. *)
Fixpoint run (t : Timers) (evs : list event) : option (Timers * list A) :=
  match evs with
  | [] => Some (t, [])
  | Calls args :: rest => run (executedFunction args t) rest
  | Fires id :: rest =>
      '(t', args) ← fires id t;
      '(t'', calls) ← run t' rest;
      Some (t'', args :: calls)
  end.

Definition reachable (t : Timers) : Prop :=
  ∃ evs calls, run initial evs = Some (t, calls).

(** At most one timer is live, and it is the one [timeout] names. *)
Definition at_most_latest (t : Timers) : Prop :=
  (∀ id, is_Some (live t !! id) → timeout t = Some id)
  ∧ (∀ id, timeout t = Some id → (id < next t)%nat).

End WithArgs.
Arguments Timers : clear implicits.
Arguments event : clear implicits.
End Debounce.


(** ** The query page as a whole

    The handlers of [src/static/js/app.js] besides [submitQuery]:
    export, feedback, the history sidebar and its debounced search,
    and the event loop that runs them. *)

(** What this part of the script takes from the browser and from the
    template of the page. *)
Class Host `{P : Platform} := {
  (** [new Date(t).toLocaleDateString()] for a stored timestamp [t] *)
  toLocaleDateString : jsstring → jsstring;
  (** [String(x)] of a number substituted into a template literal *)
  number_toString : number → jsstring;
  (** the [data-rating] of the [.star-btn] elements of [#rating-stars],
      in document order *)
  star_ratings : list N
}.

Module Session.
Section WithHost.
Context `{H : Host}.

(** *** Data *)

Inductive format := PDF | CSV.

#[export] Instance session_format_eq_dec : EqDecision format.
Proof. solve_decision. Defined.

(** An entry of the [queries] array of [/api/history]. *)
Record HistoryItem := {
  query_id : jsstring;
  item_query : jsstring;
  item_timestamp : jsstring
}.

(** The [stats] object of [/api/history]. *)
Record Stats := {
  total_queries : N;
  storage_size_kb : number
}.

(** The body [submitFeedback] posts to [/api/feedback]; [None] is
    [null]. *)
Record Feedback := {
  fb_rating : option N;
  fb_relevance : jsstring;
  fb_accuracy : jsstring;
  fb_completeness : jsstring;
  fb_comments : jsstring;
  fb_corrections : jsstring;
  fb_timestamp : jsstring;
  fb_query : option jsstring;
  fb_answer : option jsstring;
  fb_trace_id : option jsstring;
  fb_model : option jsstring;
  fb_source_count : option N;
  fb_confidence : option number
}.

(** The sidebar: the global [historyCache] ([None]: [undefined]), the
    two elements the history functions write, the search box and the
    timers of its debounced listener.  The listener receives the event
    object and reads the box through it when the timer fires, so the
    captured arguments carry no data of their own. *)
Record Sidebar := {
  historyCache : option (list HistoryItem);
  history_list : html;            (* #history-list .innerHTML *)
  history_stats : html;           (* #history-stats .innerHTML *)
  search_value : jsstring;        (* #history-search .value *)
  search_timers : Debounce.Timers unit
}.

(** *** Requests, replies and effects *)

Inductive request :=
  | PostQuery (q : App.request)                    (* POST /api/query *)
  | PostExport (f : format) (result : App.Result)  (* POST /api/export/... *)
  | PostFeedback (body : Feedback)                 (* POST /api/feedback *)
  | GetHistory                                     (* GET /api/history *)
  | GetHistorySearch (term : jsstring)             (* GET /api/history/search *)
  | PostHistoryClear.                              (* POST /api/history/clear *)

(** The handler that is suspended on a request. *)
Inductive cont :=
  | KSubmitQuery
  | KExport (f : format)
  | KSubmitFeedback
  | KLoadQueryHistory
  | KSearchHistory
  | KClearHistory.

#[export] Instance session_cont_eq_dec : EqDecision cont.
Proof. solve_decision. Defined.

(** How the request of an export or of a feedback submission settles:
    the promise rejects, the response is not [ok] and its JSON body has
    an optional [error], or the response is [ok]. *)
Inductive outcome :=
  | Rejected (message : jsstring)
  | Refused (error : option jsstring)
  | Accepted.

(** How a history request settles: the promise rejects, or a response
    arrives whose JSON body may have [queries] and [stats]. *)
Inductive history_reply :=
  | HistoryRejected (message : jsstring)
  | HistoryBody (ok : bool) (queries : option (list HistoryItem))
                (stats : option Stats).

Inductive effect :=
  | Alert (message : jsstring)
  | ConsoleError (label : jsstring)
  | Fetch (r : request) (k : cont)
  | Download (filename : jsstring).

(** *** Export *)

Definition extension (f : format) : jsstring :=
  match f with PDF => lit "pdf" | CSV => lit "csv" end.

Definition format_name (f : format) : jsstring :=
  match f with PDF => lit "PDF" | CSV => lit "CSV" end.

(** [exportPDF()] and [exportCSV()] up to [await fetch(...)]. *)
Definition exportResult (f : format) (st : App.State) : list effect :=
  match App.lastResult st with
  | None => [Alert (lit "No results to export")]
  | Some result => [Fetch (PostExport f result) (KExport f)]
  end.

(** ['Error exporting PDF: ' + x] where [x] may be [undefined]. *)
Definition plus_maybe (prefix : jsstring) (x : option jsstring) : jsstring :=
  prefix +++ default (lit "undefined") x.

(** [exportPDF()] and [exportCSV()] from the moment the request
    settles. *)
Definition exportResult_settled (f : format) (r : outcome) : list effect :=
  let prefix := lit "Error exporting " +++ format_name f +++ lit ": " in
  match r with
  | Rejected message => [Alert (prefix +++ message)]
  | Refused error => [Alert (plus_maybe prefix error)]
  | Accepted => [Download (lit "threat-intelligence-report." +++ extension f)]
  end.

(** [showExportOptions()]; [choice] is the answer to [confirm]. *)
Definition showExportOptions (choice : bool) (st : App.State) : list effect :=
  match App.lastResult st with
  | None => [Alert (lit "No results to export. Please run a query first.")]
  | Some _ => exportResult (if choice then PDF else CSV) st
  end.

(** *** Feedback *)

Definition set_form (stars : list N) (relevance accuracy comments : jsstring)
    (st : App.State) : App.State :=
  {| App.lastResult := App.lastResult st;
     App.query_value := App.query_value st;
     App.submit_disabled := App.submit_disabled st;
     App.results := App.results st;
     App.center_display := App.center_display st;
     App.results_area_display := App.results_area_display st;
     App.feedback_display := App.feedback_display st;
     App.stars_active := stars;
     App.feedback_relevance := relevance;
     App.feedback_accuracy := accuracy;
     App.feedback_comments := comments |}.

Definition set_feedback_display (d : display) (st : App.State) : App.State :=
  {| App.lastResult := App.lastResult st;
     App.query_value := App.query_value st;
     App.submit_disabled := App.submit_disabled st;
     App.results := App.results st;
     App.center_display := App.center_display st;
     App.results_area_display := App.results_area_display st;
     App.feedback_display := d;
     App.stars_active := App.stars_active st;
     App.feedback_relevance := App.feedback_relevance st;
     App.feedback_accuracy := App.feedback_accuracy st;
     App.feedback_comments := App.feedback_comments st |}.

(** [hideFeedbackSection()] *)
Definition hideFeedbackSection (st : App.State) : App.State :=
  set_feedback_display DNone st.

(** [resetFeedbackForm()] *)
Definition resetFeedbackForm (st : App.State) : App.State :=
  set_form [] [] [] [] st.

(** [setRating(rating)]: the stars up to [rating] become active, the
    others inactive. *)
Definition setRating (rating : N) (st : App.State) : App.State :=
  set_form (filter (λ btnRating, btnRating ≤ rating) star_ratings)
    (App.feedback_relevance st) (App.feedback_accuracy st)
    (App.feedback_comments st) st.

(** The user edits the three fields that the script also resets. *)
Definition fillForm (relevance accuracy comments : jsstring)
    (st : App.State) : App.State :=
  set_form (App.stars_active st) relevance accuracy comments st.

(** [x || null] on a string. *)
Definition or_null (x : jsstring) : option jsstring :=
  if truthy x then Some x else None.

(** The rating [submitFeedback] reads off the active stars. *)
Definition read_rating (st : App.State) : option N :=
  match App.stars_active st with
  | [] => None
  | n :: rest => Some (foldr N.max n rest)
  end.

(** The object [feedback] of [submitFeedback]; [completeness] and
    [corrections] are the values of the two fields no function of the
    script writes, [iso] is [new Date().toISOString()]. *)
Definition feedback_body (completeness corrections iso : jsstring)
    (st : App.State) : Feedback :=
  let last := App.lastResult st in
  {| fb_rating := read_rating st;
     fb_relevance := App.feedback_relevance st;
     fb_accuracy := App.feedback_accuracy st;
     fb_completeness := completeness;
     fb_comments := App.feedback_comments st;
     fb_corrections := corrections;
     fb_timestamp := iso;
     fb_query := last ≫= λ r, or_null (App.query r);
     fb_answer := last ≫= λ r, or_null (App.answer r);
     fb_trace_id := last ≫= λ r, App.trace_id r ≫= or_null;
     fb_model := last ≫= λ r, or_null (App.model r);
     fb_source_count := App.source_count <$> last;
     fb_confidence := last ≫= App.confidence |}.

(** [submitFeedback()] up to [await fetch(...)]. *)
Definition submitFeedback (completeness corrections iso : jsstring)
    (st : App.State) : list effect :=
  [Fetch (PostFeedback (feedback_body completeness corrections iso st))
     KSubmitFeedback].

(** [submitFeedback()] from the moment the request settles. *)
Definition submitFeedback_settled (r : outcome) (st : App.State)
    : App.State * list effect :=
  let prefix := lit "Error submitting feedback: " in
  match r with
  | Rejected message => (st, [Alert (prefix +++ message)])
  | Refused error => (st, [Alert (plus_maybe prefix error)])
  | Accepted =>
      (hideFeedbackSection (resetFeedbackForm st),
       [Alert (Glyph.check_mark +++ lit " Feedback submitted successfully!")])
  end.

(** *** The query box *)

Definition set_query_value (s : jsstring) (st : App.State) : App.State :=
  {| App.lastResult := App.lastResult st;
     App.query_value := s;
     App.submit_disabled := App.submit_disabled st;
     App.results := App.results st;
     App.center_display := App.center_display st;
     App.results_area_display := App.results_area_display st;
     App.feedback_display := App.feedback_display st;
     App.stars_active := App.stars_active st;
     App.feedback_relevance := App.feedback_relevance st;
     App.feedback_accuracy := App.feedback_accuracy st;
     App.feedback_comments := App.feedback_comments st |}.

(** [loadQueryFromHistory(queryId, query)] *)
Definition loadQueryFromHistory (queryId query : jsstring) (st : App.State)
    : App.State :=
  set_query_value query st.

(** [newQuery()] *)
Definition newQuery (st : App.State) : App.State :=
  hideFeedbackSection
    {| App.lastResult := App.lastResult st;
       App.query_value := [];
       App.submit_disabled := App.submit_disabled st;
       App.results := App.results st;
       App.center_display := DFlex;
       App.results_area_display := DNone;
       App.feedback_display := App.feedback_display st;
       App.stars_active := App.stars_active st;
       App.feedback_relevance := App.feedback_relevance st;
       App.feedback_accuracy := App.feedback_accuracy st;
       App.feedback_comments := App.feedback_comments st |}.

(** [submitQuery()] with its request as an effect. *)
Definition submitQuery (st : App.State) : App.State * list effect :=
  let '(st', rs) := App.submitQuery st in
  (st', (λ q, Fetch (PostQuery q) KSubmitQuery) <$> rs).

(** *** The history sidebar *)

(** One item of [displayHistory]. *)
Definition history_item_html (q : HistoryItem) : html :=
  [ Open "div"
      [ ("class"%string, [Lit (lit "history-item")]);
        ("onclick"%string,
         [ Lit (lit "loadQueryFromHistory('");
           Str (query_id q);
           Lit (lit "', '");
           Str (Attr.escape_apostrophes (App.escapeHtml (item_query q)));
           Lit (lit "')") ]) ];
    Open "div"
      [("style"%string, [Lit (lit "font-weight: 600; margin-bottom: 2px;")])];
    Content (Str (App.escapeHtml (substring0 40 (item_query q))));
    Close "div";
    Open "div" [("style"%string, [Lit (lit "font-size: 11px; opacity: 0.7;")])];
    Content (Gen (toLocaleDateString (item_timestamp q)));
    Close "div";
    Close "div" ].

(** [displayHistory(queries)], the HTML it assigns to [#history-list]. *)
Definition displayHistory_html (queries : list HistoryItem) : html :=
  match queries with
  | [] => [ Div "div" "empty-history"; T "No queries yet"; Close "div" ]
  | _ :: _ => mjoin (history_item_html <$> queries)
  end.

(** [updateHistoryStats(stats)], the HTML it assigns to
    [#history-stats]. *)
Definition updateHistoryStats_html (stats : Stats) : html :=
  [ Open "p" []; T "Total: ";
    Content (Gen (decimal (total_queries stats))); Close "p";
    Open "p" []; T "Size: ";
    Content (Gen (number_toString (storage_size_kb stats))); T " KB";
    Close "p" ].

Definition set_history (cache : option (list HistoryItem)) (list stats : html)
    (sb : Sidebar) : Sidebar :=
  {| historyCache := cache; history_list := list; history_stats := stats;
     search_value := search_value sb; search_timers := search_timers sb |}.

(** [loadQueryHistory()]: the request, and what happens when it
    settles.  [response.ok] is not looked at.  Reading [length] of an
    absent [queries], or a property of an absent [stats], raises a
    [TypeError] that the [catch] logs; what was assigned before stays. *)
Definition loadQueryHistory : list effect :=
  [Fetch GetHistory KLoadQueryHistory].

Definition loadQueryHistory_settled (r : history_reply) (sb : Sidebar)
    : Sidebar * list effect :=
  let failed := [ConsoleError (lit "Error loading history:")] in
  match r with
  | HistoryRejected _ => (sb, failed)
  | HistoryBody _ None _ =>
      (set_history None (history_list sb) (history_stats sb) sb, failed)
  | HistoryBody _ (Some queries) None =>
      (set_history (Some queries) (displayHistory_html queries)
         (history_stats sb) sb, failed)
  | HistoryBody _ (Some queries) (Some stats) =>
      (set_history (Some queries) (displayHistory_html queries)
         (updateHistoryStats_html stats) sb, [])
  end.

(** [searchHistory(term)] *)
Definition searchHistory (term : jsstring) : list effect :=
  [Fetch (GetHistorySearch term) KSearchHistory].

Definition searchHistory_settled (r : history_reply) (sb : Sidebar)
    : Sidebar * list effect :=
  match r with
  | HistoryBody _ (Some queries) _ =>
      (set_history (historyCache sb) (displayHistory_html queries)
         (history_stats sb) sb, [])
  | _ => (sb, [ConsoleError (lit "Error searching history:")])
  end.

(** [clearHistory()]; [confirmed] is the answer to [confirm]. *)
Definition clearHistory (confirmed : bool) : list effect :=
  if confirmed then [Fetch PostHistoryClear KClearHistory] else [].

Definition clearHistory_settled (r : history_reply) (sb : Sidebar)
    : Sidebar * list effect :=
  match r with
  | HistoryRejected message =>
      (sb, [ ConsoleError (lit "Error clearing history:");
             Alert (lit "Error clearing history: " +++ message) ])
  | HistoryBody true _ _ =>
      (set_history (Some []) (displayHistory_html [])
         (updateHistoryStats_html
            {| total_queries := 0; storage_size_kb := num_zero |}) sb, [])
  | HistoryBody false _ _ => (sb, [])
  end.

(** The listener of the search box, as [debounce] calls it: the box is
    read when the timer fires. *)
Definition search_listener (sb : Sidebar) : list effect :=
  let term := trim (search_value sb) in
  if truthy term then searchHistory term else loadQueryHistory.

(** An [input] event on the search box with the new value [s]. *)
Definition search_input (s : jsstring) (sb : Sidebar) : Sidebar :=
  {| historyCache := historyCache sb; history_list := history_list sb;
     history_stats := history_stats sb;
     search_value := s;
     search_timers := Debounce.executedFunction () (search_timers sb) |}.

(** Timer [id] of the search box fires. *)
Definition search_fires (id : nat) (sb : Sidebar)
    : option (Sidebar * list effect) :=
  '(timers, _) ← Debounce.fires id (search_timers sb);
  let sb' := {| historyCache := historyCache sb;
                history_list := history_list sb;
                history_stats := history_stats sb;
                search_value := search_value sb;
                search_timers := timers |} in
  Some (sb', search_listener sb').

(** *** The event loop *)

Record System := {
  page : App.State;
  side : Sidebar;
  inflight : list cont;
  log : list effect
}.

(** What settles a request, by the handler that waits for it. *)
Inductive settlement :=
  | QuerySettled (r : App.reply)
  | ExportSettled (r : outcome)
  | FeedbackSettled (r : outcome)
  | HistorySettled (r : history_reply).

Inductive event :=
  | TypesQuery (s : jsstring)          (* edits #query, or picks a sample *)
  | ClicksSubmit                       (* #submit-btn, when it is enabled *)
  | PressesCtrlEnter
  | ClicksExport (f : format)
  | ClicksExportOptions (choice : bool)
  | ClicksStar (rating : N)
  | FillsForm (relevance accuracy comments : jsstring)
  | SubmitsFeedback (completeness corrections iso : jsstring)
  | ClicksNewQuery
  | ClicksHistoryItem (queryId query : jsstring)
  | TypesSearch (s : jsstring)
  | TimerFires (id : nat)
  | ClicksClearHistory (confirmed : bool)
  | ReloadsHistory                     (* the history panel is opened *)
  (** the [i]-th request in flight settles with [r] *)
  | Settles (i : nat) (r : settlement).

Definition spawned (fx : list effect) : list cont :=
  fx ≫= λ e, match e with Fetch _ k => [k] | _ => [] end.

Definition after (sys : System) (pending : list cont) (st : App.State)
    (sb : Sidebar) (fx : list effect) : System :=
  {| page := st; side := sb;
     inflight := pending ++ spawned fx;
     log := log sys ++ fx |}.

(** The continuation of a suspended handler; [None] when the
    settlement is not one of its request. *)
Definition resume (k : cont) (r : settlement) (st : App.State) (sb : Sidebar)
    : option (App.State * Sidebar * list effect) :=
  match k, r with
  | KSubmitQuery, QuerySettled r => Some (App.submitQuery_settled r st, sb, [])
  | KExport f, ExportSettled r => Some (st, sb, exportResult_settled f r)
  | KSubmitFeedback, FeedbackSettled r =>
      let '(st', fx) := submitFeedback_settled r st in Some (st', sb, fx)
  | KLoadQueryHistory, HistorySettled r =>
      let '(sb', fx) := loadQueryHistory_settled r sb in Some (st, sb', fx)
  | KSearchHistory, HistorySettled r =>
      let '(sb', fx) := searchHistory_settled r sb in Some (st, sb', fx)
  | KClearHistory, HistorySettled r =>
      let '(sb', fx) := clearHistory_settled r sb in Some (st, sb', fx)
  | _, _ => None
  end.

(** One turn of the event loop; [None] when the event cannot happen:
    a click on the disabled button, a timer that is not live, no
    matching request in flight at position [i]. *)
Definition step (sys : System) (ev : event) : option System :=
  let st := page sys in
  let sb := side sys in
  let go st sb fx := Some (after sys (inflight sys) st sb fx) in
  match ev with
  | TypesQuery s => go (set_query_value s st) sb []
  | ClicksSubmit =>
      if App.submit_disabled st then None
      else let '(st', fx) := submitQuery st in go st' sb fx
  | PressesCtrlEnter => let '(st', fx) := submitQuery st in go st' sb fx
  | ClicksExport f => go st sb (exportResult f st)
  | ClicksExportOptions choice => go st sb (showExportOptions choice st)
  | ClicksStar rating => go (setRating rating st) sb []
  | FillsForm relevance accuracy comments =>
      go (fillForm relevance accuracy comments st) sb []
  | SubmitsFeedback completeness corrections iso =>
      go st sb (submitFeedback completeness corrections iso st)
  | ClicksNewQuery => go (newQuery st) sb []
  | ClicksHistoryItem queryId query =>
      go (loadQueryFromHistory queryId query st) sb []
  | TypesSearch s => go st (search_input s sb) []
  | TimerFires id =>
      '(sb', fx) ← search_fires id sb; go st sb' fx
  | ClicksClearHistory confirmed => go st sb (clearHistory confirmed)
  | ReloadsHistory => go st sb loadQueryHistory
  | Settles i r =>
      k ← inflight sys !! i;
      '(st', sb', fx) ← resume k r st sb;
      Some (after sys (delete i (inflight sys)) st' sb' fx)
  end.

Fixpoint run (sys : System) (evs : list event) : option System :=
  match evs with
  | [] => Some sys
  | ev :: rest => sys' ← step sys ev; run sys' rest
  end.

(** The page when the script is loaded: the globals have the values of
    their declarations, the button is enabled and no export buttons are
    shown. *)
Definition fresh (st : App.State) (sb : Sidebar) : Prop :=
  App.lastResult st = None
  ∧ App.submit_disabled st = false
  ∧ Read.count_class "export-buttons" (App.results st) = 0%nat
  ∧ historyCache sb = Some []
  ∧ search_timers sb = Debounce.initial.

(** The [DOMContentLoaded] listener: of the calls it makes,
    [loadQueryHistory()] touches the state described here; the status
    line and the sample buttons have elements of their own. *)
Definition boot (st : App.State) (sb : Sidebar) : System :=
  {| page := st; side := sb;
     inflight := spawned loadQueryHistory; log := loadQueryHistory |}.

Definition reachable (sys : System) : Prop :=
  ∃ st sb evs, fresh st sb ∧ run (boot st sb) evs = Some sys.

(** *** Observations used in the statements *)

Definition requests (fx : list effect) : list request :=
  fx ≫= λ e, match e with Fetch r _ => [r] | _ => [] end.

Definition alerts (fx : list effect) : list jsstring :=
  fx ≫= λ e, match e with Alert m => [m] | _ => [] end.

(** The export buttons are on the page. *)
Definition export_buttons_shown (st : App.State) : Prop :=
  Read.count_class "export-buttons" (App.results st) ≠ 0%nat.

(** The results pane shows [result] with the export buttons below. *)
Definition shows (st : App.State) (result : App.Result) : Prop :=
  App.results st = App.displayResults_html result ++ App.export_buttons_html.

(** The number of [submitQuery] calls that wait for their response. *)
Definition queries_in_flight (sys : System) : nat :=
  length (filter (λ k, k = KSubmitQuery) (inflight sys)).

(** *** Invariants of the event loop *)

(** What is shown and what is exported agree. *)
Definition shown_ok (st : App.State) : Prop :=
  export_buttons_shown st →
  ∃ result, App.lastResult st = Some result ∧ shows st result.

(** A disabled button means that a query is in flight. *)
Definition button_ok (sys : System) : Prop :=
  App.submit_disabled (page sys) = true → (0 < queries_in_flight sys)%nat.

(** The timers of the search box are those of one debounced function. *)
Definition timers_ok (sys : System) : Prop :=
  Debounce.at_most_latest (search_timers (side sys)).

(** The system after the user has typed the values [l] into the search
    box, one [input] event each. *)
Definition typed (sys : System) (l : list jsstring) : System :=
  {| page := page sys;
     side := foldl (λ sb s, search_input s sb) (side sys) l;
     inflight := inflight sys;
     log := log sys |}.

(** The request the listener of the search box issues for the value
    [s] of the box. *)
Definition search_request (s : jsstring) : effect :=
  if truthy (trim s)
  then Fetch (GetHistorySearch (trim s)) KSearchHistory
  else Fetch GetHistory KLoadQueryHistory.

End WithHost.
End Session.


(** ** Further concrete inputs for the chat page *)

Module ChatSample.

(** After start-up the user has typed a question, with blanks around
    it, and not sent it yet. *)
Definition drafted_events : list Chat.event :=
  Sample.started ++ [ Chat.Types (lit " Describe Emotet ") ].

Definition drafted : Chat.System := Sample.run_from_boot drafted_events.

(** The id and the registry entry of the answer in [Sample.answered]. *)
Definition answer_id : jsstring := Chat.new_messageId (Sample.env 0).

Definition answer_entry : Chat.Entry :=
  {| Chat.entry_content := Some (lit "Emotet is a banking trojan.");
     Chat.entry_metadata := Sample.four_items |}.

(** An id that no message of the example has, and the page of the
    answered example after the feedback modal was opened for it. *)
Definition unknown_id : jsstring := lit "msg-0-unknown".

Definition modal_on_unknown : Chat.State :=
  Chat.openFeedbackModal unknown_id (Chat.page Sample.answered).






End ChatSample.

(** ** Concrete inputs for the query page *)

Module QuerySample.
Import Session.

#[local] Existing Instance Sample.platform.

(** Dates are printed as given, numbers as integers, and the page has
    the five stars of the template. *)
#[export] Instance host : Host := {|
  toLocaleDateString := λ t, t;
  number_toString := decimal;
  star_ratings := [1; 2; 3; 4; 5]
|}.

(** The sidebar as the document is loaded. *)
Definition sidebar_blank : Sidebar :=
  {| historyCache := Some []; history_list := []; history_stats := [];
     search_value := []; search_timers := Debounce.initial |}.

(** Runs of the query page from the loaded document. *)
Definition run_from_boot (evs : list event) : System :=
  default (boot Sample.app_blank sidebar_blank)
    (run (boot Sample.app_blank sidebar_blank) evs).

(** The user has typed a query and clicked the button; the query and
    the history request of start-up are in flight. *)
Definition asked_events : list event :=
  [ TypesQuery (lit " What are common tactics used by APT28? ");
    ClicksSubmit ].

Definition asked : System := run_from_boot asked_events.

(** The query was answered and the result is shown. *)
Definition shown_events : list event :=
  asked_events
  ++ [ Settles 1 (QuerySettled (App.Succeeded (Sample.app_result None))) ].

Definition shown : System := run_from_boot shown_events.

(** With the result on the page, a second query was sent by
    Ctrl+Enter. *)
Definition asked_again_events : list event :=
  shown_events ++ [ TypesQuery (lit "And APT29?"); PressesCtrlEnter ].

Definition asked_again : System := run_from_boot asked_again_events.

End QuerySample.

(** * Properties *)

Import Read.

(** ** Escaping *)

Section Escaping.
Context {P : Platform}.

Lemma no_raw_plain bad c r :
  (c =? 38) = false → existsb (N.eqb c) bad = false →
  no_raw bad (c :: r) = no_raw bad r.
Proof. intros Hamp Hbad. simpl. by rewrite Hamp, Hbad. Qed.

(** One step of the replacement of [app.js] keeps the output free of
    the five characters. *)
Lemma escape_map_no_raw c r :
  escaped5 (App.escape_map c ++ r) = escaped5 r.
Proof.
  unfold escaped5, App.escape_map.
  destruct (c =? 38) eqn:E38; [reflexivity|].
  destruct (c =? 60) eqn:E60; [reflexivity|].
  destruct (c =? 62) eqn:E62; [reflexivity|].
  destruct (c =? 34) eqn:E34; [reflexivity|].
  destruct (c =? 39) eqn:E39; [reflexivity|].
  apply no_raw_plain; [done|]. simpl. by rewrite E60, E62, E34, E39.
Qed.

Lemma app_escapeHtml_escaped5 s : escaped5 (App.escapeHtml s) = true.
Proof.
  induction s as [|c s IH]; [reflexivity|].
  change (App.escapeHtml (c :: s)) with (App.escape_map c ++ App.escapeHtml s).
  by rewrite escape_map_no_raw.
Qed.

(** One step of the text serialisation keeps the output free of raw
    [<], [>] and ampersand. *)
Lemma escape_text_unit_no_raw c r :
  escaped3 (escape_text_unit c ++ r) = escaped3 r.
Proof.
  unfold escaped3, escape_text_unit.
  destruct (c =? 38) eqn:E38; [reflexivity|].
  destruct (c =? 160) eqn:E160; [reflexivity|].
  destruct (c =? 60) eqn:E60; [reflexivity|].
  destruct (c =? 62) eqn:E62; [reflexivity|].
  apply no_raw_plain; [done|]. simpl. by rewrite E60, E62.
Qed.

Lemma chat_escapeHtml_escaped3 s : escaped3 (Chat.escapeHtml s) = true.
Proof.
  induction s as [|c s IH]; [reflexivity|].
  change (Chat.escapeHtml (c :: s))
    with (escape_text_unit c ++ Chat.escapeHtml s).
  by rewrite escape_text_unit_no_raw.
Qed.

Lemma strs_app (a b : html) : strs (a ++ b) = strs a ++ strs b.
Proof. apply bind_app. Qed.

Lemma strs_cons p (h : html) : strs (p :: h) = piece_strs p ++ strs h.
Proof. reflexivity. Qed.

(** The inserted strings of a list of items rendered by [imap]. *)
Lemma Forall_strs_imap {A} (Q : jsstring → Prop) (f : nat → A → html) l :
  (∀ i x, Forall Q (strs (f i x))) →
  Forall Q (strs (mjoin (imap f l))).
Proof.
  revert f. induction l as [|x l IH]; intros f Hf; [constructor|].
  simpl. rewrite strs_app. apply Forall_app. split; [apply Hf|].
  apply IH. intros i y. apply Hf.
Qed.

Lemma Forall_weaken_escaped5 (R : jsstring → Prop) (l : list jsstring) :
  Forall (λ s, escaped5 s = true) l →
  Forall (λ s, escaped5 s = true ∨ R s) l.
Proof. intros H. eapply Forall_impl; [exact H|]. auto. Qed.

Lemma showError_html_escaped message :
  Forall (λ s, escaped5 s = true) (strs (App.showError_html message)).
Proof.
  repeat constructor. apply app_escapeHtml_escaped5.
Qed.

Lemma app_evidence_item_escaped i e :
  Forall (λ s, escaped5 s = true) (strs (App.evidence_item_html i e)).
Proof. repeat constructor; apply app_escapeHtml_escaped5. Qed.

Lemma app_evidence_section_escaped ev :
  Forall (λ s, escaped5 s = true) (strs (App.evidence_section_html ev)).
Proof.
  destruct ev as [|e ev]; [constructor|].
  unfold App.evidence_section_html. set (l := e :: ev).
  rewrite !strs_app, !Forall_app. split_and!.
  - repeat constructor.
  - apply Forall_strs_imap, app_evidence_item_escaped.
  - repeat constructor.
Qed.

Lemma metadata_html_escaped result :
  Forall (λ s, escaped5 s = true
               ∨ Some s = substring0 8 <$> App.trace_id result)
    (strs (App.metadata_html result)).
Proof.
  unfold App.metadata_html. rewrite !strs_app, !Forall_app. split_and!.
  - constructor.
  - repeat constructor. apply app_escapeHtml_escaped5.
  - constructor.
  - constructor.
  - destruct (App.trace_id result) as [t|]; [|constructor].
    destruct (truthy t); [|constructor].
    apply Forall_cons_2; [by right|constructor].
  - constructor.
Qed.

Lemma displayResults_html_escaped result :
  Forall (λ s, escaped5 s = true
               ∨ Some s = substring0 8 <$> App.trace_id result)
    (strs (App.displayResults_html result)).
Proof.
  unfold App.displayResults_html. rewrite !strs_app, !Forall_app. split_and!.
  - repeat constructor; apply app_escapeHtml_escaped5.
  - apply Forall_weaken_escaped5, app_evidence_section_escaped.
  - apply metadata_html_escaped.
  - constructor.
Qed.

Lemma userMessage_html_escaped content time :
  Forall (λ s, escaped3 s = true) (strs (Chat.userMessage_html content time)).
Proof. repeat constructor. apply chat_escapeHtml_escaped3. Qed.

Lemma errorMessage_html_escaped error time :
  Forall (λ s, escaped3 s = true) (strs (Chat.errorMessage_html error time)).
Proof. repeat constructor. apply chat_escapeHtml_escaped3. Qed.

Lemma chat_evidence_item_escaped i e :
  Forall (λ s, escaped3 s = true) (strs (Chat.evidence_item_html i e)).
Proof. repeat constructor; apply chat_escapeHtml_escaped3. Qed.

Lemma assistantMessage_html_escaped messageId content metadata time :
  Forall (λ s, escaped3 s = true)
    (strs (Chat.assistantMessage_html messageId content metadata time)).
Proof.
  unfold Chat.assistantMessage_html, Chat.message_header,
    Chat.message_actions_html, Chat.action_button.
  rewrite !strs_app, !Forall_app. split_and!; try by repeat constructor.
  - repeat constructor. apply chat_escapeHtml_escaped3.
  - unfold Chat.evidence_html, Chat.evidence_items_html.
    destruct (Chat.evidence metadata) as [|e ev] eqn:E; [constructor|].
    set (l := e :: ev).
    rewrite !strs_app, !Forall_app. split_and!; try by repeat constructor.
    apply Forall_strs_imap, chat_evidence_item_escaped.
Qed.

(** C1 (as amended).  Every string that the pages pass through
    [escapeHtml] is inserted in escaped form.  On the query page the
    inserted form has no raw ampersand, [<], [>], double quote or
    apostrophe: this covers the query, the answer, the evidence actor,
    source and text, the model name and the error message, that is
    every inserted string of [displayResults] other than the trace-id
    item, and every inserted string of [showError].  On the chat page
    the inserted form has no raw ampersand, [<] or [>], while double
    quotes and apostrophes are kept as they are: this covers the user
    message, the assistant answer with its evidence, and the error
    entry. *)
Theorem inserted_strings_are_escaped :
  (∀ s, escaped5 (App.escapeHtml s) = true)
  ∧ (∀ result,
       Forall (λ s, escaped5 s = true
                    ∨ Some s = substring0 8 <$> App.trace_id result)
         (strs (App.displayResults_html result)))
  ∧ (∀ message,
       Forall (λ s, escaped5 s = true) (strs (App.showError_html message)))
  ∧ (∀ s, escaped3 (Chat.escapeHtml s) = true)
  ∧ Chat.escapeHtml [34; 39] = [34; 39]
  ∧ (∀ content time,
       Forall (λ s, escaped3 s = true)
         (strs (Chat.userMessage_html content time)))
  ∧ (∀ messageId content metadata time,
       Forall (λ s, escaped3 s = true)
         (strs (Chat.assistantMessage_html messageId content metadata time)))
  ∧ (∀ error time,
       Forall (λ s, escaped3 s = true)
         (strs (Chat.errorMessage_html error time))).
Proof.
  split; [exact app_escapeHtml_escaped5|].
  split; [exact displayResults_html_escaped|].
  split; [exact showError_html_escaped|].
  split; [exact chat_escapeHtml_escaped3|].
  split; [reflexivity|].
  split; [exact userMessage_html_escaped|].
  split; [exact assistantMessage_html_escaped|].
  exact errorMessage_html_escaped.
Qed.

End Escaping.

(** C1 (as stated) fails on the chat page: the apostrophe of a user
    message reaches the transcript as it was typed. *)
Lemma chat_apostrophe_stays_raw :
  ¬ Forall (λ s, escaped5 s = true)
      (strs (Chat.userMessage_html (lit "it's") (lit "10:15:00")))
  ∧ lit "it's" ∈ strs (Chat.userMessage_html (lit "it's") (lit "10:15:00"))
  ∧ 39 ∈ serialize (Chat.userMessage_html (lit "it's") (lit "10:15:00")).
Proof.
  split_and!.
  - intros H. apply Forall_inv in H. vm_compute in H. discriminate.
  - vm_compute. set_solver.
  - vm_compute. set_solver.
Qed.

(** The trace id of [displayResults] is inserted without escaping. *)
Lemma displayResults_trace_id_raw :
  lit "<script>" ∈
    strs (App.displayResults_html
            (Sample.app_result (Some (lit "<script>alert(1)</script>"))))
  ∧ escaped5 (lit "<script>") = false.
Proof. split; [|reflexivity]. vm_compute. set_solver. Qed.

(** ** Evidence in the chat transcript *)

Section Evidence.
Context {P : Platform}.

Lemma first_text_app cls (a b : html) :
  tag_first b →
  first_text cls (a ++ b) = first_text cls a ++ first_text cls b.
Proof.
  intros Hb. induction a as [|p a IH]; [done|].
  simpl. rewrite IH. destruct a as [|q a]; simpl.
  - destruct b as [|[] b]; destruct (opens cls p); simpl in *; done.
  - by rewrite <- !app_assoc.
Qed.

Lemma count_class_app cls (a b : html) :
  count_class cls (a ++ b) = (count_class cls a + count_class cls b)%nat.
Proof. unfold count_class. by rewrite filter_app, length_app. Qed.

Lemma count_class_items {A} cls (f : nat → A → html) l :
  (∀ i x, count_class cls (f i x) = 1%nat) →
  count_class cls (mjoin (imap f l)) = length l.
Proof.
  revert f. induction l as [|x l IH]; intros f Hf; [done|].
  simpl. rewrite count_class_app, Hf, IH; [done|]. intros i y. apply Hf.
Qed.

Lemma first_text_items {A} cls (f : nat → A → html) (g : A → list chunk) l rest :
  (∀ i x r, tag_first r → first_text cls (f i x ++ r) = g x ++ first_text cls r) →
  (∀ i x r, tag_first (f i x ++ r)) →
  tag_first rest →
  first_text cls (mjoin (imap f l) ++ rest) = (l ≫= g) ++ first_text cls rest
  ∧ tag_first (mjoin (imap f l) ++ rest).
Proof.
  intros Hf Htag Hrest. revert f Hf Htag.
  induction l as [|x l IH]; intros f Hf Htag; [done|].
  simpl. rewrite <- !app_assoc.
  destruct (IH (f ∘ S)) as [IH1 IH2]; [intros; by apply Hf|intros; apply Htag|].
  split; [|apply Htag].
  rewrite Hf by done. by rewrite IH1.
Qed.

Lemma chat_item_count i e :
  count_class "evidence-item" (Chat.evidence_item_html i e) = 1%nat.
Proof. reflexivity. Qed.

Lemma chat_item_text i e r :
  tag_first r →
  first_text "evidence-text" (Chat.evidence_item_html i e ++ r)
  = [Str (Chat.escapeHtml (text e))] ++ first_text "evidence-text" r.
Proof. intros Hr. by rewrite first_text_app. Qed.

Lemma chat_item_badge i e r :
  tag_first r →
  first_text "evidence-count" (Chat.evidence_item_html i e ++ r)
  = [] ++ first_text "evidence-count" r.
Proof. intros Hr. by rewrite first_text_app. Qed.

Lemma bind_to_nil {A B} (l : list A) : l ≫= (λ _, @nil B) = [].
Proof. induction l as [|x l IH]; [done|]. exact IH. Qed.

Lemma bind_to_singleton {A B} (f : A → B) (l : list A) :
  l ≫= (λ x, [f x]) = f <$> l.
Proof. induction l as [|x l IH]; [done|]. simpl. by f_equal. Qed.

Lemma first_text_items_nil {A} cls (f : nat → A → html) (g : A → list chunk) l :
  (∀ i x r, tag_first r → first_text cls (f i x ++ r) = g x ++ first_text cls r) →
  (∀ i x r, tag_first (f i x ++ r)) →
  first_text cls (mjoin (imap f l)) = l ≫= g.
Proof.
  intros Hf Htag.
  destruct (first_text_items cls f g l [] Hf Htag I) as [H _].
  by rewrite !app_nil_r in H.
Qed.

(** What the template of an assistant message shows right after the
    opening tags of class [cls], for the two classes of the evidence
    block. *)
Lemma assistant_first_text cls messageId content metadata time e ev g :
  Chat.evidence metadata = e :: ev →
  cls = "evidence-count"%string ∨ cls = "evidence-text"%string →
  (∀ i x r, tag_first r →
     first_text cls (Chat.evidence_item_html i x ++ r) = g x ++ first_text cls r) →
  first_text cls (Chat.assistantMessage_html messageId content metadata time)
  = first_text cls [Div "span" "evidence-count";
                    Content (Gen (decimal_nat (length (e :: ev)))); Close "span"]
    ++ (take 3 (e :: ev) ≫= g).
Proof.
  intros E Hcls Hg.
  unfold Chat.assistantMessage_html, Chat.evidence_html, Chat.evidence_items_html.
  rewrite E. set (l := e :: ev).
  rewrite <- !app_assoc.
  repeat (rewrite (first_text_app cls) by exact I).
  rewrite (first_text_items_nil cls _ g) by (done || intros; exact I).
  destruct Hcls as [-> | ->]; by rewrite app_nil_r.
Qed.

Lemma assistant_count_items messageId content metadata time :
  count_class "evidence-item"
    (Chat.assistantMessage_html messageId content metadata time)
  = length (take 3 (Chat.evidence metadata)).
Proof.
  unfold Chat.assistantMessage_html, Chat.evidence_html, Chat.evidence_items_html.
  destruct (Chat.evidence metadata) as [|e ev]; [reflexivity|].
  set (l := e :: ev).
  rewrite !count_class_app.
  rewrite (count_class_items _ _ _ chat_item_count).
  change (0 + (0 + (0 + (0 + length (take 3 l) + 0 + (0 + 0)))) = length (take 3 l))%nat.
  lia.
Qed.

(** C10.  For an assistant message with [N > 0] evidence items, the
    element that [appendAssistantMessage] inserts shows [N] in its
    evidence-count badge and renders the first three items only (all of
    them when [N] is at most three); when [N > 3] the badge is larger
    than the number of rendered items. *)
Theorem evidence_badge_counts_unrendered_items
    (c : Chat.Clock) (content : option jsstring) (metadata : Chat.Metadata)
    (timestamp : option jsstring) (st : Chat.State) :
  let ev := Chat.evidence metadata in
  (0 < length ev)%nat →
  ∃ e, Chat.container
         (Chat.appendAssistantMessage c content (Some metadata) timestamp st)
       = Chat.container st ++ [e]
    ∧ first_text "evidence-count" (Chat.outer e)
      = [Gen (decimal_nat (length ev))]
    ∧ first_text "evidence-text" (Chat.outer e)
      = (λ x, Str (Chat.escapeHtml (text x))) <$> take 3 ev
    ∧ count_class "evidence-item" (Chat.outer e) = (length ev `min` 3)%nat
    ∧ ((3 < length ev)%nat →
       (count_class "evidence-item" (Chat.outer e) < length ev)%nat).
Proof.
  intros ev Hpos.
  exists {| Chat.kind := Chat.KAssistant (Chat.new_messageId c);
            Chat.outer := Chat.assistantMessage_html (Chat.new_messageId c)
                            (default [] content) metadata
                            (Chat.message_time c timestamp);
            Chat.active := None |}.
  split; [reflexivity|]. cbn [Chat.outer].
  subst ev. destruct (Chat.evidence metadata) as [|x ev] eqn:E;
    [simpl in Hpos; lia|].
  split_and!.
  - rewrite (assistant_first_text _ _ _ _ _ x ev (λ _, [])
               E (or_introl eq_refl) chat_item_badge).
    by rewrite bind_to_nil.
  - rewrite (assistant_first_text _ _ _ _ _ x ev
               (λ x, [Str (Chat.escapeHtml (text x))])
               E (or_intror eq_refl) chat_item_text).
    by rewrite bind_to_singleton.
  - rewrite assistant_count_items, E, length_take. lia.
  - intros Hlt. rewrite assistant_count_items, E, length_take. lia.
Qed.

End Evidence.

(** The message of the example has four evidence items. *)
Lemma evidence_badge_counts_unrendered_items_witness :
  (0 < length (Chat.evidence Sample.four_items))%nat
  ∧ ∃ e, Chat.container
           (Chat.appendAssistantMessage (Sample.clock 0)
              (Some (lit "APT28 uses phishing"))
              (Some Sample.four_items) None Sample.blank)
         = Chat.container Sample.blank ++ [e]
      ∧ first_text "evidence-count" (Chat.outer e) = [Gen (decimal_nat 4)]
      ∧ first_text "evidence-text" (Chat.outer e)
        = (λ x, Str (Chat.escapeHtml (text x)))
            <$> take 3 (Chat.evidence Sample.four_items)
      ∧ count_class "evidence-item" (Chat.outer e) = 3%nat
      ∧ ((3 < 4)%nat → (count_class "evidence-item" (Chat.outer e) < 4)%nat).
Proof.
  split; [simpl; lia|].
  apply (evidence_badge_counts_unrendered_items (Sample.clock 0)
           (Some (lit "APT28 uses phishing")) Sample.four_items None
           Sample.blank).
  simpl; lia.
Defined.

(** ** The event loop of the chat page *)

Section Machine.
Context {P : Platform}.
Import Chat.

Implicit Types (st : State) (sys : System) (c : Clock) (r : reply).

(** *** The registry *)

Lemma has_entry_same st st' messageId :
  messageMetadata st' = messageMetadata st →
  has_entry messageId st → has_entry messageId st'.
Proof. intros E (reg & H & Hreg). exists reg. by rewrite E. Qed.

Lemma entries_kept_refl st : entries_kept st st.
Proof. by intros ?. Qed.

Lemma entries_kept_trans st1 st2 st3 :
  entries_kept st1 st2 → entries_kept st2 st3 → entries_kept st1 st3.
Proof. intros H1 H2 id H. by apply H2, H1. Qed.

Lemma entries_kept_same st st' :
  messageMetadata st' = messageMetadata st → entries_kept st st'.
Proof. intros E id. by apply has_entry_same. Qed.

(** What [appendAssistantMessage] does to the registry and to the
    transcript. *)
Lemma appendAssistantMessage_registry c content metadata timestamp st :
  messageMetadata (appendAssistantMessage c content metadata timestamp st)
  = Some (<[ new_messageId c :=
               {| entry_content := content;
                  entry_metadata := default no_metadata metadata |} ]>
            (default ∅ (messageMetadata st))).
Proof. reflexivity. Qed.

Lemma appendAssistantMessage_container c content metadata timestamp st :
  container (appendAssistantMessage c content metadata timestamp st)
  = container st
    ++ [ {| kind := KAssistant (new_messageId c);
            outer := assistantMessage_html (new_messageId c)
                       (default [] content)
                       (default no_metadata metadata)
                       (message_time c timestamp);
            active := None |} ].
Proof. reflexivity. Qed.

Lemma appendAssistantMessage_has_entry c content metadata timestamp st :
  has_entry (new_messageId c)
    (appendAssistantMessage c content metadata timestamp st).
Proof.
  eexists. split; [apply appendAssistantMessage_registry|].
  rewrite lookup_insert_eq. by eexists.
Qed.

Lemma appendAssistantMessage_kept c content metadata timestamp st :
  entries_kept st (appendAssistantMessage c content metadata timestamp st).
Proof.
  intros id (reg & E & [entry Hentry]).
  eexists. split; [apply appendAssistantMessage_registry|].
  rewrite E. simpl. destruct (decide (new_messageId c = id)) as [->|Hne].
  - rewrite lookup_insert_eq. by eexists.
  - rewrite lookup_insert_ne by done. by eexists.
Qed.

(** *** Counting typing indicators and messages *)

Lemma typing_count_app (l1 l2 : list element) :
  length (filter (λ e, is_typing e = true) (l1 ++ l2))
  = (length (filter (λ e, is_typing e = true) l1)
     + length (filter (λ e, is_typing e = true) l2))%nat.
Proof. by rewrite filter_app, length_app. Qed.

Lemma remove_first_typing_count (l : list element) :
  length (filter (λ e, is_typing e = true) (remove_first_typing l))
  = pred (length (filter (λ e, is_typing e = true) l)).
Proof.
  induction l as [|e l IH]; [done|]. simpl.
  destruct (is_typing e) eqn:E.
  - rewrite filter_cons_True by done. done.
  - rewrite !filter_cons_False by (by rewrite E). done.
Qed.

Lemma remove_first_typing_messages (l : list element) :
  filter (λ e, is_typing e = false) (remove_first_typing l)
  = filter (λ e, is_typing e = false) l.
Proof.
  induction l as [|e l IH]; [done|]. simpl.
  destruct (is_typing e) eqn:E.
  - rewrite filter_cons_False by (by rewrite E). done.
  - rewrite !filter_cons_True by done. by rewrite IH.
Qed.

Lemma remove_first_typing_subset (l : list element) e :
  e ∈ remove_first_typing l → e ∈ l.
Proof.
  induction l as [|x l IH]; [done|]. simpl.
  destruct (is_typing x); [by constructor|].
  intros [->|H]%elem_of_cons; [by left|]. right. by apply IH.
Qed.



(** *** What each handler does to the pending flag, the transcript and
    the registry *)

Lemma neutral_same st out :
  isWaitingForResponse out.1 = isWaitingForResponse st →
  container out.1 = container st →
  messageMetadata out.1 = messageMetadata st →
  filter (λ k, k = KSendMessage) (spawned out.2) = [] →
  neutral st out.
Proof.
  intros Hf Hc Hm Hs. split_and!; try done.
  - unfold typing_indicators. by rewrite Hc.
  - intros Hok e id He Hk. rewrite Hc in He.
    eapply has_entry_same; [done|]. by eapply Hok.
  - by apply entries_kept_same.
Qed.

Lemma entries_ok_app st st' (new : list element) :
  container st' = container st ++ new →
  entries_kept st st' →
  (∀ e id, e ∈ new → kind e = KAssistant id → has_entry id st') →
  entries_ok st → entries_ok st'.
Proof.
  intros Hc Hkept Hnew Hok e id He Hk. rewrite Hc in He.
  apply elem_of_app in He as [He|He]; [|by eapply Hnew].
  apply Hkept. by eapply Hok.
Qed.

Lemma appendUserMessage_entries_ok c content timestamp st :
  entries_ok st → entries_ok (appendUserMessage c content timestamp st).
Proof.
  eapply (entries_ok_app _ _ [_]); [reflexivity|by apply entries_kept_same|].
  intros e id ->%list_elem_of_singleton Hk. discriminate.
Qed.

Lemma appendAssistantMessage_entries_ok c content metadata timestamp st :
  entries_ok st →
  entries_ok (appendAssistantMessage c content metadata timestamp st).
Proof.
  eapply (entries_ok_app _ _ [_]);
    [apply appendAssistantMessage_container
    |apply appendAssistantMessage_kept|].
  intros e id ->%list_elem_of_singleton [= <-].
  apply appendAssistantMessage_has_entry.
Qed.

Lemma appendErrorMessage_entries_ok c error st :
  entries_ok st → entries_ok (appendErrorMessage c error st).
Proof.
  eapply (entries_ok_app _ _ [_]); [reflexivity|by apply entries_kept_same|].
  intros e id ->%list_elem_of_singleton Hk. discriminate.
Qed.

Lemma removeTypingIndicator_entries_ok st :
  entries_ok st → entries_ok (removeTypingIndicator st).
Proof.
  intros Hok e id He Hk. apply remove_first_typing_subset in He.
  eapply (has_entry_same st); [done|]. by eapply Hok.
Qed.

(** Rendering a stored conversation adds no typing indicator, keeps
    the pending flag, and gives every assistant message its entry. *)
Lemma render_messages_spec env i ms st :
  let st' := render_messages env i ms st in
  isWaitingForResponse st' = isWaitingForResponse st
  ∧ typing_indicators st' = typing_indicators st
  ∧ (entries_ok st → entries_ok st')
  ∧ entries_kept st st'.
Proof.
  revert i st. induction ms as [|msg ms IH]; intros i st; simpl.
  { split_and!; try done. apply entries_kept_refl. }
  destruct (decide (role msg = lit "user")).
  - destruct (IH (S i) (appendUserMessage (env i) (content msg)
                          (timestamp msg) st)) as (H1 & H2 & H3 & H4).
    split_and!.
    + by rewrite H1.
    + rewrite H2. unfold typing_indicators. simpl.
      rewrite typing_count_app. simpl. lia.
    + intros Hok. by apply H3, appendUserMessage_entries_ok.
    + eapply entries_kept_trans; [|exact H4]. by apply entries_kept_same.
  - destruct (IH (S i) (appendAssistantMessage (env i) (Some (content msg))
                          (metadata msg) (timestamp msg) st))
      as (H1 & H2 & H3 & H4).
    split_and!.
    + by rewrite H1.
    + rewrite H2. unfold typing_indicators.
      rewrite appendAssistantMessage_container, typing_count_app. simpl. lia.
    + intros Hok. by apply H3, appendAssistantMessage_entries_ok.
    + eapply entries_kept_trans; [|exact H4].
      apply appendAssistantMessage_kept.
Qed.

Lemma entries_ok_empty st : container st = [] → entries_ok st.
Proof. intros E e id He. rewrite E in He. by apply elem_of_nil in He. Qed.

Lemma loadConversations_settled_neutral r st :
  neutral st (loadConversations_settled r st).
Proof.
  unfold loadConversations_settled.
  repeat case_match; by apply neutral_same.
Qed.

Lemma createNewChat_settled_neutral r st :
  neutral st (createNewChat_settled r st).
Proof.
  destruct r as [m|ok b]; [by apply neutral_same|].
  split_and!; try done.
  - unfold typing_indicators. simpl. lia.
  - intros _. by apply entries_ok_empty.
  - by apply entries_kept_same.
Qed.

Lemma loadConversation_settled_neutral convId env r st :
  neutral st (loadConversation_settled convId env r st).
Proof.
  destruct r as [m|ok b]; [by apply neutral_same|].
  unfold loadConversation_settled.
  destruct (body_messages b) as [ms|].
  - match goal with |- context [render_messages env 0 ms ?s] =>
      destruct (render_messages_spec env 0 ms s) as (H1 & H2 & H3 & H4);
      set (st0 := s) in *
    end.
    split_and!; simpl.
    + by rewrite H1.
    + done.
    + rewrite H2. unfold typing_indicators. simpl. lia.
    + intros _. apply H3. by apply entries_ok_empty.
    + eapply entries_kept_trans; [|exact H4]. by apply entries_kept_same.
  - split_and!; try done.
    + unfold typing_indicators. simpl. lia.
    + intros _. by apply entries_ok_empty.
    + by apply entries_kept_same.
Qed.

Lemma deleteConversation_settled_neutral convId r st :
  neutral st (deleteConversation_settled convId r st).
Proof.
  unfold deleteConversation_settled.
  repeat case_match; by apply neutral_same.
Qed.

Lemma exportMessage_settled_neutral f c r st :
  neutral st (exportMessage_settled f c r st).
Proof.
  unfold exportMessage_settled. repeat case_match; by apply neutral_same.
Qed.

Lemma quickFeedback_settled_neutral r st :
  neutral st (quickFeedback_settled r st).
Proof.
  unfold quickFeedback_settled. repeat case_match; by apply neutral_same.
Qed.

Lemma submitFeedback_settled_neutral r st :
  neutral st (submitFeedback_settled r st).
Proof.
  unfold submitFeedback_settled. repeat case_match; by apply neutral_same.
Qed.

Lemma exportMessage_neutral f c messageId st :
  neutral st (exportMessage f c messageId st).
Proof. unfold exportMessage. repeat case_match; by apply neutral_same. Qed.

Lemma highlight_same_render target st :
  Forall2 same_render (container st) (container (highlight target st)).
Proof.
  destruct target as [i b]. simpl. generalize (container st). clear st.
  intros l. revert i. induction l as [|e l IH]; intros [|i]; simpl.
  - constructor.
  - constructor.
  - constructor; [done|]. by apply Forall_Forall2_diag, Forall_true.
  - constructor; [done|]. apply IH.
Qed.

Lemma same_render_typing (l l' : list element) :
  Forall2 same_render l l' →
  length (filter (λ e, is_typing e = true) l')
  = length (filter (λ e, is_typing e = true) l).
Proof.
  induction 1 as [|e e' l l' [Hk _] _ IH]; [done|].
  assert (Ht : is_typing e' = is_typing e)
    by (unfold is_typing; by rewrite Hk).
  rewrite !filter_cons, Ht.
  destruct (decide _); simpl; by rewrite IH.
Qed.

(** Highlighting a button neither starts nor finishes a send. *)
Lemma neutral_highlight target st fx :
  filter (λ k, k = KSendMessage) (spawned fx) = [] →
  neutral st (highlight target st, fx).
Proof.
  intros Hs. pose proof (highlight_same_render target st) as Hsame.
  unfold neutral. cbn [fst snd]. split_and!; try done.
  - unfold typing_indicators. by rewrite (same_render_typing _ _ Hsame).
  - intros Hok e' id He' Hk'.
    apply list_elem_of_lookup in He' as [i Hi].
    destruct (Forall2_lookup_r _ _ _ _ _ Hsame Hi) as (e & Hi' & Hk & _).
    eapply has_entry_same; [done|].
    apply (Hok e id); [by eapply list_elem_of_lookup_2|congruence].
  - by apply entries_kept_same.
Qed.

Lemma quickFeedback_neutral target messageId type st :
  neutral st (quickFeedback target messageId type st).
Proof.
  unfold quickFeedback.
  repeat case_match; (by apply neutral_same) || by apply neutral_highlight.
Qed.

Lemma clickIcon_neutral i b st : neutral st (clickIcon i b st).
Proof.
  unfold clickIcon.
  repeat case_match; (by apply neutral_same) || apply quickFeedback_neutral.
Qed.

Lemma submitFeedback_neutral st : neutral st (submitFeedback st).
Proof. unfold submitFeedback. repeat case_match; by apply neutral_same. Qed.

Lemma deleteConversation_neutral convId confirmed st :
  neutral st (deleteConversation convId confirmed st).
Proof. unfold deleteConversation. repeat case_match; by apply neutral_same. Qed.


(** *** [sendMessage] *)

Lemma sendMessage_noop c st :
  truthy (trim (input_value st)) = false ∨ isWaitingForResponse st = true →
  sendMessage c st = (st, []).
Proof.
  intros [H|H]; unfold sendMessage; rewrite H; [done|].
  by rewrite orb_true_r.
Qed.

Lemma sendMessage_starts c st :
  truthy (trim (input_value st)) = true →
  isWaitingForResponse st = false →
  (sendMessage c st).2
  = [Fetch (PostMessage (currentConversationId st) (trim (input_value st)))
       KSendMessage]
  ∧ isWaitingForResponse (sendMessage c st).1 = true
  ∧ container (sendMessage c st).1
    = container st
      ++ [ {| kind := KUser;
              outer := userMessage_html (trim (input_value st)) (time_now c);
              active := None |};
           {| kind := KTyping; outer := typingIndicator_html; active := None |} ]
  ∧ messageMetadata (sendMessage c st).1 = messageMetadata st
  ∧ currentConversationId (sendMessage c st).1 = currentConversationId st.
Proof.
  intros Ht Hw. unfold sendMessage. rewrite Ht, Hw. simpl.
  destruct (decide (welcome_display st ≠ DNone)); simpl;
    rewrite <- ?app_assoc; done.
Qed.

(** Whatever settles a send, the continuation clears the pending flag,
    starts no send, removes a typing indicator, appends elements that
    are not typing indicators, and keeps the registry entries. *)
Lemma sendMessage_settled_finishes c r st :
  let out := sendMessage_settled c r st in
  isWaitingForResponse out.1 = false
  ∧ filter (λ k, k = KSendMessage) (spawned out.2) = []
  ∧ (typing_indicators out.1 ≤ pred (typing_indicators st))%nat
  ∧ (entries_ok st → entries_ok out.1)
  ∧ entries_kept st out.1.
Proof.
  assert (Hrest : ∀ st0 error,
            let st1 := sendMessage_finally
                         (appendErrorMessage c error (removeTypingIndicator st0)) in
            isWaitingForResponse st1 = false
            ∧ (typing_indicators st1 ≤ pred (typing_indicators st0))%nat
            ∧ (entries_ok st0 → entries_ok st1)
            ∧ entries_kept st0 st1).
  { intros st0 error st1. split_and!; try done.
    - unfold typing_indicators. simpl.
      rewrite typing_count_app, remove_first_typing_count. simpl. lia.
    - intros Hok.
      by apply (appendErrorMessage_entries_ok c _ (removeTypingIndicator st0)),
               removeTypingIndicator_entries_ok.
    - by apply entries_kept_same. }
  assert (Hans : ∀ content metadata,
            let st1 := appendAssistantMessage c content metadata None
                         (removeTypingIndicator st) in
            (typing_indicators st1 ≤ pred (typing_indicators st))%nat
            ∧ (entries_ok st → entries_ok st1)
            ∧ entries_kept st st1).
  { intros content metadata st1. split_and!.
    - unfold typing_indicators. subst st1.
      rewrite appendAssistantMessage_container, typing_count_app. simpl.
      rewrite remove_first_typing_count. lia.
    - intros Hok. apply appendAssistantMessage_entries_ok.
      by apply removeTypingIndicator_entries_ok.
    - apply (entries_kept_trans _ (removeTypingIndicator st));
        [by apply entries_kept_same|apply appendAssistantMessage_kept]. }
  intros out. subst out. unfold sendMessage_settled.
  destruct r as [m|[] data].
  - destruct (Hrest st (lit "Connection error: " +++ m)) as (?&?&?&?).
    by split_and!.
  - destruct (Hans (body_assistant_message data) (body_metadata data))
      as (Ht & Hok & Hkept).
    destruct (body_assistant_message data) as [a|] eqn:Ea.
    + split_and!; try done.
    + match goal with |- context [appendErrorMessage c ?e (removeTypingIndicator ?s)] =>
        destruct (Hrest s e) as (H1 & H2 & H3 & H4)
      end.
      split_and!; try done.
      * simpl in *. lia.
      * intros Hst. by apply H3, Hok.
  - destruct (Hrest st (or_else (body_error data) (lit "Unknown error")))
      as (?&?&?&?).
    by split_and!.
Qed.

(** *** Counting the sends in flight *)

Lemma sends_delete (l : list cont) i k :
  l !! i = Some k →
  length (filter (λ k, k = KSendMessage) (delete i l))
  = if decide (k = KSendMessage)
    then pred (length (filter (λ k, k = KSendMessage) l))
    else length (filter (λ k, k = KSendMessage) l).
Proof.
  revert i. induction l as [|x l IH]; intros i Hi; [done|].
  destruct i as [|i]; simpl in *.
  - simplify_eq. destruct (decide (k = KSendMessage)).
    + by rewrite filter_cons_True.
    + by rewrite filter_cons_False.
  - specialize (IH i Hi). destruct (decide (x = KSendMessage)).
    + rewrite !filter_cons_True by done. simpl. rewrite IH.
      destruct (decide (k = KSendMessage)); [|done].
      assert (Hin : k ∈ filter (λ k, k = KSendMessage) l).
      { apply list_elem_of_filter. split; [done|]. by eapply list_elem_of_lookup_2. }
      destruct (filter _ l); [by apply elem_of_nil in Hin|done].
    + rewrite !filter_cons_False by done. done.
Qed.

Lemma sends_after sys pending out :
  sends_in_flight (after sys pending out)
  = (length (filter (λ k, k = KSendMessage) pending)
     + length (filter (λ k, k = KSendMessage) (spawned out.2)))%nat.
Proof. unfold sends_in_flight. simpl. by rewrite filter_app, length_app. Qed.

(** *** One turn of the event loop keeps the invariant *)

Lemma neutral_turn sys out :
  neutral (page sys) out → invariant sys →
  invariant (after sys (inflight sys) out)
  ∧ entries_kept (page sys) (page (after sys (inflight sys) out)).
Proof.
  intros (Hf & Hs & Ht & He & Hk) (I1 & I2 & I3).
  split; [|done]. split_and!.
  - unfold flag_ok. rewrite sends_after, Hs. simpl. rewrite Hf.
    unfold flag_ok, sends_in_flight in I1. lia.
  - unfold indicator_ok in *. simpl. rewrite Hf. lia.
  - by apply He.
Qed.

Lemma neutral_settles sys i k out :
  inflight sys !! i = Some k → k ≠ KSendMessage →
  neutral (page sys) out → invariant sys →
  invariant (after sys (delete i (inflight sys)) out)
  ∧ entries_kept (page sys) (page (after sys (delete i (inflight sys)) out)).
Proof.
  intros Hi Hne (Hf & Hs & Ht & He & Hk) (I1 & I2 & I3).
  split; [|done]. split_and!.
  - unfold flag_ok. rewrite sends_after, Hs, (sends_delete _ _ _ Hi).
    rewrite decide_False by done. simpl. rewrite Hf.
    unfold flag_ok, sends_in_flight in I1. lia.
  - unfold indicator_ok in *. simpl. rewrite Hf. lia.
  - by apply He.
Qed.

Lemma sendMessage_turn c sys :
  invariant sys →
  invariant (after sys (inflight sys) (sendMessage c (page sys)))
  ∧ entries_kept (page sys)
      (page (after sys (inflight sys) (sendMessage c (page sys)))).
Proof.
  intros Hinv.
  destruct (truthy (trim (input_value (page sys)))) eqn:Ht;
    [destruct (isWaitingForResponse (page sys)) eqn:Hw|].
  2: { destruct (sendMessage_starts c (page sys) Ht Hw)
         as (Hfx & Hflag & Hcont & Hreg & _).
       destruct Hinv as (I1 & I2 & I3).
       split; [|by apply entries_kept_same]. split_and!.
       - unfold flag_ok. rewrite sends_after, Hfx. simpl. rewrite Hflag.
         unfold flag_ok, sends_in_flight in I1. rewrite Hw in I1.
         rewrite I1. done.
       - unfold indicator_ok, typing_indicators in *. simpl.
         rewrite Hflag, Hcont, typing_count_app. rewrite Hw in I2.
         simpl. lia.
       - eapply entries_ok_app; [exact Hcont|by apply entries_kept_same| |done].
         intros e id [->| ->%list_elem_of_singleton]%elem_of_cons Hk;
           discriminate. }
  all: rewrite sendMessage_noop by auto;
    apply neutral_turn; [by apply neutral_same|done].
Qed.

Lemma step_invariant sys ev sys' :
  step sys ev = Some sys' → invariant sys →
  invariant sys' ∧ entries_kept (page sys) (page sys').
Proof.
  intros Hstep Hinv. destruct ev; simpl in Hstep; simplify_eq.
  - apply neutral_turn; [by apply neutral_same|done].
  - by apply sendMessage_turn.
  - unfold useExample.
    destruct Hinv as (I1 & I2 & I3).
    destruct (sendMessage_turn c
                {| page := set_input_value prompt (page sys);
                   inflight := inflight sys; log := log sys |}) as [H1 H2].
    { split_and!; done. }
    split; [exact H1|exact H2].
  - apply neutral_turn; [by apply neutral_same|done].
  - apply neutral_turn; [by apply neutral_same|done].
  - apply neutral_turn; [apply deleteConversation_neutral|done].
  - apply neutral_turn; [apply exportMessage_neutral|done].
  - apply neutral_turn; [apply clickIcon_neutral|done].
  - apply neutral_turn; [by apply neutral_same|done].
  - apply neutral_turn; [by apply neutral_same|done].
  - apply neutral_turn; [by apply neutral_same|done].
  - apply neutral_turn; [by apply neutral_same|done].
  - apply neutral_turn; [apply submitFeedback_neutral|done].
  - apply neutral_turn; [|done]. unfold escapeKey.
    case_match; by apply neutral_same.
  - destruct (inflight sys !! i) as [k|] eqn:Hi; simpl in Hstep; [|done].
    simplify_eq.
    destruct k; simpl resume;
      try (apply (neutral_settles _ _ _ _ Hi); [done| |done]).
    + apply loadConversations_settled_neutral.
    + apply createNewChat_settled_neutral.
    + apply loadConversation_settled_neutral.
    + apply deleteConversation_settled_neutral.
    + destruct (sendMessage_settled_finishes (env 0%nat) r (page sys))
        as (Hf & Hs & Ht & He & Hk).
      destruct Hinv as (I1 & I2 & I3).
      split; [|done]. split_and!.
      * unfold flag_ok. rewrite sends_after, Hs, (sends_delete _ _ _ Hi).
        rewrite decide_True by done. simpl. rewrite Hf.
        unfold flag_ok, sends_in_flight in I1.
        destruct (isWaitingForResponse (page sys)); rewrite I1; done.
      * unfold indicator_ok in *. simpl. rewrite Hf.
        destruct (isWaitingForResponse (page sys)); lia.
      * by apply He.
    + apply exportMessage_settled_neutral.
    + apply quickFeedback_settled_neutral.
    + apply submitFeedback_settled_neutral.
Qed.

Lemma run_invariant evs sys sys' :
  run sys evs = Some sys' → invariant sys →
  invariant sys' ∧ entries_kept (page sys) (page sys').
Proof.
  revert sys. induction evs as [|ev evs IH]; intros sys Hrun Hinv; simpl in Hrun.
  { simplify_eq. split; [done|apply entries_kept_refl]. }
  destruct (step sys ev) as [sys1|] eqn:Hstep; simpl in Hrun; [|done].
  destruct (step_invariant _ _ _ Hstep Hinv) as [Hinv1 Hk1].
  destruct (IH _ Hrun Hinv1) as [Hinv' Hk'].
  split; [done|]. by eapply entries_kept_trans.
Qed.

Lemma boot_invariant st : fresh st → invariant (boot st).
Proof.
  intros (_ & Hw & _ & _ & _ & Hc). split_and!.
  - unfold flag_ok. simpl. by rewrite Hw.
  - unfold indicator_ok, typing_indicators. simpl. rewrite Hc. simpl. lia.
  - by apply entries_ok_empty.
Qed.

Lemma reachable_invariant sys : reachable sys → invariant sys.
Proof.
  intros (st & evs & Hfresh & Hrun).
  by apply (run_invariant _ _ _ Hrun), boot_invariant.
Qed.

End Machine.

(** ** Sending a message *)

Section Sending.
Context {P : Platform}.
Import Chat.

Implicit Types (st : State) (sys : System) (c : Clock) (r : reply).

Lemma sendMessage_settled_no_chat_call c r st :
  chat_calls (sendMessage_settled c r st).2 = [].
Proof.
  unfold sendMessage_settled.
  destruct r as [m|[] b]; [done| |done].
  by destruct (body_assistant_message b).
Qed.

(** C2.  In every state the event loop can reach, at most one send is
    in flight, and one is in flight exactly while [isWaitingForResponse]
    is set.  Called on an idle page with a non-empty trimmed input,
    [sendMessage] issues exactly one chat call, for that input, and sets
    the flag; called while the flag is set it changes nothing and
    issues nothing.  However the call settles (answer, error response,
    rejection), the continuation clears the flag and issues no chat
    call. *)
Theorem single_flight_send sys :
  reachable sys →
  (sends_in_flight sys ≤ 1)%nat
  ∧ (isWaitingForResponse (page sys) = true ↔ sends_in_flight sys = 1%nat)
  ∧ (∀ c, truthy (trim (input_value (page sys))) = true →
          isWaitingForResponse (page sys) = false →
          chat_calls (sendMessage c (page sys)).2
          = [PostMessage (currentConversationId (page sys))
               (trim (input_value (page sys)))]
          ∧ isWaitingForResponse (sendMessage c (page sys)).1 = true
          ∧ sends_in_flight
              (after sys (inflight sys) (sendMessage c (page sys))) = 1%nat)
  ∧ (∀ c, isWaitingForResponse (page sys) = true →
          sendMessage c (page sys) = (page sys, []))
  ∧ (∀ c r,
       isWaitingForResponse (sendMessage_settled c r (page sys)).1 = false
       ∧ chat_calls (sendMessage_settled c r (page sys)).2 = []).
Proof.
  intros Hreach. pose proof (reachable_invariant _ Hreach) as (I1 & I2 & I3).
  unfold flag_ok in I1. split_and!.
  - destruct (isWaitingForResponse (page sys)); lia.
  - destruct (isWaitingForResponse (page sys)); split; (done || lia).
  - intros c Ht Hw.
    destruct (sendMessage_starts c (page sys) Ht Hw) as (Hfx & Hflag & _).
    split_and!; [by rewrite Hfx|done|].
    rewrite sends_after, Hfx. rewrite Hw in I1.
    unfold sends_in_flight in I1. by rewrite I1.
  - intros c Hw. apply sendMessage_noop. by right.
  - intros c r. split.
    + by destruct (sendMessage_settled_finishes c r (page sys)).
    + apply sendMessage_settled_no_chat_call.
Qed.

End Sending.

(** A run of the sample page that does not get stuck ends in a
    reachable state. *)
Lemma run_from_boot_reachable evs :
  is_Some (Chat.run (Chat.boot Sample.blank) evs) →
  Chat.reachable (Sample.run_from_boot evs).
Proof.
  intros [sys Hrun]. exists Sample.blank, evs.
  split; [by repeat split|].
  unfold Sample.run_from_boot. by rewrite Hrun.
Defined.

Lemma waiting_reachable : Chat.reachable Sample.waiting.
Proof.
  apply run_from_boot_reachable, (bool_decide_unpack _). by vm_compute.
Defined.

(** While the question of the example waits for its answer, one send is
    in flight and a second press of the send button does nothing. *)
Lemma single_flight_send_witness :
  Chat.reachable Sample.waiting
  ∧ (Chat.sends_in_flight Sample.waiting ≤ 1)%nat
  ∧ Chat.sendMessage (Sample.clock 2)
      (Chat.set_input_value (lit "again") (Chat.page Sample.waiting))
    = (Chat.set_input_value (lit "again") (Chat.page Sample.waiting), []).
Proof.
  split; [exact waiting_reachable|].
  split; [exact (proj1 (single_flight_send Sample.waiting waiting_reachable))|].
  vm_compute. reflexivity.
Defined.

Lemma answered_reachable : Chat.reachable Sample.answered.
Proof.
  apply run_from_boot_reachable, (bool_decide_unpack _). by vm_compute.
Defined.

(** ** A send that fails *)

Section Failure.
Context {P : Platform}.
Import Chat.

Implicit Types (st : State) (sys : System) (c : Clock) (r : reply).


End Failure.


(** ** The title of the conversation *)

Section Title.
Context {P : Platform}.
Import Chat.

(** Every answered send sets the title to the first fifty code units of
    the answer, whatever the title was. *)
Lemma sendMessage_settled_title c assistant_message metadata st :
  title
    (sendMessage_settled c
       (Response true (BAnswer assistant_message metadata)) st).1
  = substring0 50 assistant_message.
Proof. reflexivity. Qed.

End Title.

(** C4 (the code departs from the claim).  The conversation opened in
    the example carries the title [Emotet analysis]; after the next
    answered question the title is the beginning of that answer. *)
Theorem later_reply_replaces_title :
  Chat.title (Chat.page Sample.opened) = lit "Emotet analysis"
  ∧ Chat.title ∘ Chat.page <$> Chat.run Sample.opened Sample.follow_up
    = Some (lit "Mostly finance and government.").
Proof. split; vm_compute; reflexivity. Qed.

(** ** Opening a conversation *)

Section Loading.
Context {P : Platform}.
Import Chat.

(** When the request of [loadConversation] rejects, the page is left as
    it was and the user is alerted. *)
Lemma loadConversation_rejected convId env m st :
  loadConversation_settled convId env (Rejected m) st
  = (st, [ConsoleError (lit "Error loading conversation:");
          Alert (lit "Error loading conversation")]).
Proof. reflexivity. Qed.

Lemma render_messages_conversation env i ms st :
  currentConversationId (render_messages env i ms st)
  = currentConversationId st.
Proof.
  revert i st. induction ms as [|msg ms IH]; intros i st; [done|].
  simpl. rewrite IH. by destruct (decide (role msg = lit "user")).
Qed.

(** When a conversation arrives, it becomes the active one. *)
Lemma loadConversation_succeeded convId env ok t ms st :
  currentConversationId
    (loadConversation_settled convId env (Response ok (BConversation t ms)) st).1
  = Some convId.
Proof.
  unfold loadConversation_settled. simpl.
  by rewrite render_messages_conversation.
Qed.

(** When an error object arrives in place of a conversation, the page
    has switched to the requested id and emptied the title and the
    transcript before the missing [messages] raises. *)
Lemma loadConversation_error_response convId env ok error st :
  let out :=
    loadConversation_settled convId env (Response ok (BError error)) st in
  currentConversationId out.1 = Some convId
  ∧ container out.1 = []
  ∧ title out.1 = []
  ∧ alerts out.2 = [lit "Error loading conversation"].
Proof. by split_and!. Qed.

End Loading.

(** C5 (the code departs from the claim).  Conversation [c1] is active
    and shows a question and its answer; the user clicks conversation
    [c2] and the service answers 404 with an error object.  The alert
    is raised, but [c2] is now the active conversation and the
    transcript is empty. *)
Theorem error_response_switches_conversation :
  let view (sys : Chat.System) :=
    (Chat.currentConversationId (Chat.page sys),
     length (Chat.container (Chat.page sys)),
     Chat.alerts (Chat.log sys)) in
  view Sample.answered = (Some (lit "c1"), 2%nat, [])
  ∧ view <$> Chat.run Sample.answered
               [ Chat.ClicksConversation (lit "c2");
                 Chat.Settles 1 Sample.not_found Sample.env ]
    = Some (Some (lit "c2"), 0%nat, [lit "Error loading conversation"]).
Proof. split; vm_compute; reflexivity. Qed.

(** ** Deleting a conversation *)

Section Deleting.
Context {P : Platform}.
Import Chat.

Lemma run_cons sys ev evs :
  run sys (ev :: evs) = step sys ev ≫= λ sys', run sys' evs.
Proof. reflexivity. Qed.

(** A confirmed click on a delete button issues the DELETE request. *)
Lemma clicks_delete st pending fx convId :
  step {| page := st; inflight := pending; log := fx |}
    (ClicksDelete convId true)
  = Some {| page := st;
            inflight := pending ++ [KDeleteConversation convId];
            log := fx ++ [Fetch (DeleteConversation convId)
                            (KDeleteConversation convId)] |}.
Proof. reflexivity. Qed.

(** The request issued last settles: its handler is resumed and leaves
    the list of requests in flight. *)
Lemma settles_newest (pending : list cont) k st fx r env :
  step {| page := st; inflight := pending ++ [k]; log := fx |}
    (Settles (length pending) r env)
  = Some {| page := (resume k env r st).1;
            inflight := pending ++ spawned (resume k env r st).2;
            log := fx ++ (resume k env r st).2 |}.
Proof.
  simpl. rewrite list_lookup_middle by done. simpl.
  unfold after. simpl. by rewrite delete_middle, app_nil_r.
Qed.

(** Deleting the active conversation, seen from the event loop: the
    DELETE request settles, then the request of [createNewChat]. *)
Lemma delete_active_then_created sys convId ok b ok' new env env' :
  currentConversationId (page sys) = Some convId →
  ∃ sys',
    run sys [ ClicksDelete convId true;
              Settles (length (inflight sys)) (Response ok b) env;
              Settles (length (inflight sys)) (Response ok' (BCreated new)) env' ]
    = Some sys'
    ∧ currentConversationId (page sys') = Some new
    ∧ container (page sys') = [].
Proof.
  intros Hactive. destruct sys as [st pending fx]. simpl in Hactive.
  eexists. split.
  - rewrite run_cons, clicks_delete. cbn [mbind option_bind].
    rewrite run_cons, settles_newest. cbn [mbind option_bind].
    cbn [resume deleteConversation_settled].
    rewrite decide_True by done.
    cbn [createNewChat fst snd spawned mbind list_bind app].
    rewrite run_cons, settles_newest. reflexivity.
  - done.
Qed.

Lemma delete_active_then_creation_fails sys convId ok b m env env' :
  currentConversationId (page sys) = Some convId →
  ∃ sys',
    run sys [ ClicksDelete convId true;
              Settles (length (inflight sys)) (Response ok b) env;
              Settles (length (inflight sys)) (Rejected m) env' ]
    = Some sys'
    ∧ page sys' = page sys
    ∧ alerts (log sys') = alerts (log sys) ++ [lit "Error creating new chat"].
Proof.
  intros Hactive. destruct sys as [st pending fx]. simpl in Hactive.
  eexists. split.
  - rewrite run_cons, clicks_delete. cbn [mbind option_bind].
    rewrite run_cons, settles_newest. cbn [mbind option_bind].
    cbn [resume deleteConversation_settled].
    rewrite decide_True by done.
    cbn [createNewChat fst snd spawned mbind list_bind app].
    rewrite run_cons, settles_newest. reflexivity.
  - split; [done|]. simpl. unfold alerts. rewrite !bind_app. simpl.
    by rewrite !app_nil_r.
Qed.

Lemma delete_other_refreshes_list sys convId ok b env :
  currentConversationId (page sys) ≠ Some convId →
  ∃ sys',
    run sys [ ClicksDelete convId true;
              Settles (length (inflight sys)) (Response ok b) env ]
    = Some sys'
    ∧ page sys' = page sys
    ∧ inflight sys' = inflight sys ++ [KLoadConversations]
    ∧ requests (log sys')
      = requests (log sys) ++ [DeleteConversation convId; GetConversations].
Proof.
  intros Hother. destruct sys as [st pending fx]. simpl in Hother.
  eexists. split.
  - rewrite run_cons, clicks_delete. cbn [mbind option_bind].
    rewrite run_cons, settles_newest. cbn [mbind option_bind].
    cbn [resume deleteConversation_settled].
    rewrite decide_False by congruence. reflexivity.
  - split_and!; try done. simpl. unfold requests. rewrite !bind_app. simpl.
    by rewrite <- app_assoc.
Qed.

(** C6 (as amended).  A confirmed [deleteConversation(id)] issues one
    DELETE request and changes nothing else; declined, it does nothing.
    When the DELETE request rejects, the user is alerted and nothing
    changes.  When it settles with a response and [id] is the active
    conversation, [createNewChat] is started: if its request returns a
    conversation id, that new conversation becomes the active one and
    the transcript is emptied; if its request rejects, the user is
    alerted and the page, its active conversation included, stays as
    it was.  When [id] is not the active conversation, the page is left
    as it was and the list of conversations is requested. *)
Theorem deleteConversation_outcome convId sys :
  deleteConversation convId false (page sys) = (page sys, [])
  ∧ deleteConversation convId true (page sys)
    = (page sys,
       [Fetch (DeleteConversation convId) (KDeleteConversation convId)])
  ∧ (∀ m, deleteConversation_settled convId (Rejected m) (page sys)
          = (page sys, [ConsoleError (lit "Error deleting conversation:");
                        Alert (lit "Error deleting conversation")]))
  ∧ (currentConversationId (page sys) = Some convId →
     (∀ ok b ok' new env env',
        ∃ sys',
          run sys [ ClicksDelete convId true;
                    Settles (length (inflight sys)) (Response ok b) env;
                    Settles (length (inflight sys))
                      (Response ok' (BCreated new)) env' ]
          = Some sys'
          ∧ currentConversationId (page sys') = Some new
          ∧ container (page sys') = [])
     ∧ (∀ ok b m env env',
          ∃ sys',
            run sys [ ClicksDelete convId true;
                      Settles (length (inflight sys)) (Response ok b) env;
                      Settles (length (inflight sys)) (Rejected m) env' ]
            = Some sys'
            ∧ page sys' = page sys
            ∧ alerts (log sys')
              = alerts (log sys) ++ [lit "Error creating new chat"]))
  ∧ (currentConversationId (page sys) ≠ Some convId →
     ∀ ok b env,
       ∃ sys',
         run sys [ ClicksDelete convId true;
                   Settles (length (inflight sys)) (Response ok b) env ]
         = Some sys'
         ∧ page sys' = page sys
         ∧ inflight sys' = inflight sys ++ [KLoadConversations]
         ∧ requests (log sys')
           = requests (log sys)
             ++ [DeleteConversation convId; GetConversations]).
Proof.
  split_and!; try done.
  - intros Hactive. split.
    + intros. by apply delete_active_then_created.
    + intros. by apply delete_active_then_creation_fails.
  - intros Hother ok b env. by apply delete_other_refreshes_list.
Qed.

End Deleting.

(** C6 (as stated) fails: the active conversation [c1] is deleted, the
    request for its replacement fails, and [c1] is still the active
    conversation. *)
Lemma deleted_conversation_stays_active :
  (λ sys, (Chat.currentConversationId (Chat.page sys),
           Chat.alerts (Chat.log sys)))
    <$> Chat.run (Chat.boot Sample.blank) Sample.delete_then_create_fails
  = Some (Some (lit "c1"), [lit "Error creating new chat"]).
Proof. vm_compute. reflexivity. Qed.

(** The deletion of the active conversation [c1] followed by a
    successful creation of conversation [c2]. *)
Lemma deleteConversation_outcome_witness :
  let sys :=
    {| Chat.page := Chat.set_currentConversationId (Some (lit "c1")) Sample.blank;
       Chat.inflight := []; Chat.log := [] |} in
  Chat.currentConversationId (Chat.page sys) = Some (lit "c1")
  ∧ ∃ sys',
      Chat.run sys
        [ Chat.ClicksDelete (lit "c1") true;
          Chat.Settles 0 (Chat.Response true Chat.BOther) Sample.env;
          Chat.Settles 0 (Chat.Response true (Chat.BCreated (lit "c2")))
            Sample.env ]
      = Some sys'
      ∧ Chat.currentConversationId (Chat.page sys') = Some (lit "c2")
      ∧ Chat.container (Chat.page sys') = [].
Proof.
  intros sys. split; [reflexivity|].
  destruct (deleteConversation_outcome (lit "c1") sys)
    as (_ & _ & _ & Hactive & _).
  exact (proj1 (Hactive eq_refl) true Chat.BOther true (lit "c2")
           Sample.env Sample.env).
Defined.

(** ** Blank input *)

Section Blank.
Context {P : Platform}.

(** C7 (as amended).  With an input that is empty after trimming,
    [sendMessage] of the chat page returns at once: no request, no
    change of the page and no message to the user.  [submitQuery] of
    the query page issues no request either; it replaces the results
    pane by the validation message and changes nothing else. *)
Theorem blank_input_is_not_sent c (st : Chat.State) (page : App.State) :
  trim (Chat.input_value st) = [] →
  trim (App.query_value page) = [] →
  Chat.sendMessage c st = (st, [])
  ∧ App.submitQuery page
    = (App.showError (lit "Please enter a threat intelligence query") page, [])
  ∧ App.results (App.submitQuery page).1
    = App.showError_html (lit "Please enter a threat intelligence query")
  ∧ App.set_results (App.results page) (App.submitQuery page).1 = page.
Proof.
  intros Hchat Hquery. split_and!.
  - apply sendMessage_noop. left. by rewrite Hchat.
  - unfold App.submitQuery. by rewrite Hquery.
  - unfold App.submitQuery. by rewrite Hquery.
  - unfold App.submitQuery. rewrite Hquery. by destruct page.
Qed.

End Blank.

(** C7 (as stated) fails on the chat page: with only blanks in the
    input box, [sendMessage] performs no effect at all and leaves the
    page as it was, so no validation message reaches the user. *)
Lemma blank_send_shows_no_message :
  trim (Chat.input_value Sample.blank_input) = []
  ∧ ¬ ((Chat.sendMessage (Sample.clock 0) Sample.blank_input).2 ≠ []
       ∨ (Chat.sendMessage (Sample.clock 0) Sample.blank_input).1
         ≠ Sample.blank_input).
Proof. split; [reflexivity|]. intros [H|H]; by apply H. Qed.

Lemma blank_input_is_not_sent_witness :
  trim (Chat.input_value Sample.blank_input) = []
  ∧ trim (App.query_value Sample.app_blank) = []
  ∧ Chat.sendMessage (Sample.clock 0) Sample.blank_input
    = (Sample.blank_input, [])
  ∧ (App.submitQuery Sample.app_blank).2 = [].
Proof.
  split; [reflexivity|]. split; [reflexivity|].
  destruct (blank_input_is_not_sent (Sample.clock 0) Sample.blank_input
              Sample.app_blank eq_refl eq_refl) as (H1 & H2 & _).
  split; [exact H1|]. by rewrite H2.
Defined.

(** ** Export and feedback for an id without entry *)

Section Absent.
Context {P : Platform}.
Import Chat.

Lemma registry_get_no_entry messageId st :
  ¬ has_entry messageId st →
  registry_get messageId st = NoRegistry
  ∨ registry_get messageId st = Absent
  ∨ registry_get messageId st = Inherited.
Proof.
  intros Hno. unfold registry_get.
  destruct (messageMetadata st) as [registry|] eqn:E; [|by left].
  destruct (registry !! messageId) as [entry|] eqn:Hentry.
  - exfalso. apply Hno. exists registry. split; [done|]. by eexists.
  - destruct (proto_has messageId); auto.
Qed.

(** A lookup that finds nothing, or an inherited property only, means
    that there is no entry. *)
Lemma registry_get_absent messageId st :
  registry_get messageId st = Absent ∨ registry_get messageId st = Inherited →
  ¬ has_entry messageId st.
Proof.
  unfold registry_get. intros Hget (registry & Hreg & [entry Hentry]).
  rewrite Hreg, Hentry in Hget. by destruct Hget.
Qed.

(** C8 (as amended).  For a message id without registry entry, the two
    export functions, [quickFeedback] and [submitFeedback] issue no
    request.  Each export function raises one alert and leaves the page
    as it was.  [submitFeedback] leaves the page as it was and raises
    one alert when the id is not empty and the registry exists.
    [quickFeedback] raises no alert; it leaves the page as it was,
    unless the id is a property name that every object inherits: then
    its guard passes and the clicked button is highlighted before the
    request fails to be built. *)
Theorem absent_entry_fails_locally messageId st :
  ¬ has_entry messageId st →
  (∀ f c, (exportMessage f c messageId st).1 = st
          ∧ requests (exportMessage f c messageId st).2 = []
          ∧ length (alerts (exportMessage f c messageId st).2) = 1%nat)
  ∧ (∀ target type,
       requests (quickFeedback target messageId type st).2 = []
       ∧ alerts (quickFeedback target messageId type st).2 = []
       ∧ (quickFeedback target messageId type st).1
         = match registry_get messageId st with
           | Inherited => highlight target st
           | _ => st
           end)
  ∧ (currentFeedbackMessageId st = Some messageId →
     (submitFeedback st).1 = st
     ∧ requests (submitFeedback st).2 = []
     ∧ (messageId ≠ [] → messageMetadata st ≠ None →
        length (alerts (submitFeedback st).2) = 1%nat)).
Proof.
  intros Hno. pose proof (registry_get_no_entry _ _ Hno) as Hget.
  split_and!.
  - intros f c. unfold exportMessage.
    destruct Hget as [-> | [-> | ->]]; by destruct f.
  - intros target type. unfold quickFeedback.
    by destruct Hget as [-> | [-> | ->]].
  - intros Hid. unfold submitFeedback. rewrite Hid. simpl.
    destruct (truthy messageId) eqn:Ht; simpl.
    + assert (Hreg : registry_get messageId st = NoRegistry
                     → messageMetadata st = None).
      { unfold registry_get. by repeat case_match. }
      destruct Hget as [Hg | [-> | ->]].
      * rewrite Hg. split_and!; try done. intros _ Hsome.
        by apply Hreg in Hg.
      * done.
      * by case_match.
    + split_and!; try done. intros Hne. by destruct messageId.
Qed.

End Absent.

(** C8 (as stated) fails for [quickFeedback]: the thumbs-down button of
    the answer of the example is clicked for an id that is not in the
    registry; the function returns without an alert. *)
Lemma quickFeedback_absent_is_silent :
  Chat.registry_get (lit "msg-0-unknown") (Chat.page Sample.answered)
  = Chat.Absent
  ∧ Chat.quickFeedback (1%nat, Chat.NotHelpful) (lit "msg-0-unknown")
      (lit "negative") (Chat.page Sample.answered)
    = (Chat.page Sample.answered, []).
Proof.
  assert (Hget : Chat.registry_get (lit "msg-0-unknown")
                   (Chat.page Sample.answered) = Chat.Absent)
    by (vm_compute; reflexivity).
  split; [exact Hget|]. unfold Chat.quickFeedback. by rewrite Hget.
Qed.

(** The feedback modal is opened on the page of the example for an id
    that the registry, which holds the entry of the answer, does not
    have: the lookup of each function finds nothing.  For the inherited
    name [toString] the guard of [quickFeedback] passes: the clicked
    thumbs-up button of the answer is highlighted and nothing is
    sent. *)
Lemma absent_entry_fails_locally_witness :
  (¬ Chat.has_entry ChatSample.unknown_id ChatSample.modal_on_unknown
   ∧ Chat.registry_get ChatSample.unknown_id ChatSample.modal_on_unknown
     = Chat.Absent
   ∧ Chat.currentFeedbackMessageId ChatSample.modal_on_unknown
     = Some ChatSample.unknown_id
   ∧ (∀ f c,
        Chat.requests
          (Chat.exportMessage f c ChatSample.unknown_id
             ChatSample.modal_on_unknown).2 = []
        ∧ length (Chat.alerts
                    (Chat.exportMessage f c ChatSample.unknown_id
                       ChatSample.modal_on_unknown).2) = 1%nat)
   ∧ (∀ target type,
        (Chat.quickFeedback target ChatSample.unknown_id type
           ChatSample.modal_on_unknown).1 = ChatSample.modal_on_unknown
        ∧ Chat.requests
            (Chat.quickFeedback target ChatSample.unknown_id type
               ChatSample.modal_on_unknown).2 = []
        ∧ Chat.alerts
            (Chat.quickFeedback target ChatSample.unknown_id type
               ChatSample.modal_on_unknown).2 = [])
   ∧ (Chat.submitFeedback ChatSample.modal_on_unknown).1
     = ChatSample.modal_on_unknown
   ∧ Chat.requests (Chat.submitFeedback ChatSample.modal_on_unknown).2 = []
   ∧ length (Chat.alerts (Chat.submitFeedback ChatSample.modal_on_unknown).2)
     = 1%nat)
  ∧ (¬ Chat.has_entry (lit "toString") (Chat.page Sample.answered)
     ∧ Chat.registry_get (lit "toString") (Chat.page Sample.answered)
       = Chat.Inherited
     ∧ (Chat.quickFeedback (1%nat, Chat.Helpful) (lit "toString")
          (lit "positive") (Chat.page Sample.answered)).1
       = Chat.highlight (1%nat, Chat.Helpful) (Chat.page Sample.answered)
     ∧ Chat.requests
         (Chat.quickFeedback (1%nat, Chat.Helpful) (lit "toString")
            (lit "positive") (Chat.page Sample.answered)).2 = []
     ∧ Chat.active
         <$> Chat.container
               (Chat.highlight (1%nat, Chat.Helpful)
                  (Chat.page Sample.answered)) !! 1%nat
       = Some (Some Chat.Helpful)).
Proof.
  split.
  - assert (Hget : Chat.registry_get ChatSample.unknown_id
                     ChatSample.modal_on_unknown = Chat.Absent)
      by (vm_compute; reflexivity).
    assert (Hno : ¬ Chat.has_entry ChatSample.unknown_id
                      ChatSample.modal_on_unknown)
      by exact (registry_get_absent _ _ (or_introl Hget)).
    assert (Hid : Chat.currentFeedbackMessageId ChatSample.modal_on_unknown
                  = Some ChatSample.unknown_id) by reflexivity.
    destruct (absent_entry_fails_locally ChatSample.unknown_id
                ChatSample.modal_on_unknown Hno)
      as (Hexport & Hquick & Hsubmit).
    destruct (Hsubmit Hid) as (Hpage & Hreq & Halert).
    split_and!; [exact Hno|exact Hget|exact Hid| | |exact Hpage|exact Hreq|].
    + intros f c. destruct (Hexport f c) as (_ & Hr & Ha). by split.
    + intros target type. destruct (Hquick target type) as (Hr & Ha & Hst).
      rewrite Hget in Hst. by split_and!.
    + apply Halert; [by vm_compute|].
      intros Hnone. unfold Chat.registry_get in Hget.
      by rewrite Hnone in Hget.
  - assert (Hget : Chat.registry_get (lit "toString")
                     (Chat.page Sample.answered) = Chat.Inherited)
      by (vm_compute; reflexivity).
    assert (Hno : ¬ Chat.has_entry (lit "toString") (Chat.page Sample.answered))
      by exact (registry_get_absent _ _ (or_intror Hget)).
    destruct (absent_entry_fails_locally (lit "toString")
                (Chat.page Sample.answered) Hno) as (_ & Hquick & _).
    destruct (Hquick (1%nat, Chat.Helpful) (lit "positive"))
      as (Hr & _ & Hst).
    rewrite Hget in Hst.
    split_and!; [exact Hno|exact Hget|exact Hst|exact Hr|].
    vm_compute. reflexivity.
Defined.

(** * Further properties of the chat page *)

(** ** Message ids *)

Section MessageIds.
Import Chat.

Lemma uint_codes_digits d : Forall (λ c, c ≠ 45) (uint_codes d).
Proof. induction d; simpl; constructor; (done || lia). Qed.

Lemma uint_codes_inj d1 d2 : uint_codes d1 = uint_codes d2 → d1 = d2.
Proof.
  revert d2. induction d1; intros d2 H; destruct d2; simpl in H;
    try discriminate; try done; injection H as H; f_equal; by apply IHd1.
Qed.

(** Two digit strings, each followed by a hyphen and a tail, are equal
    only if the digits and the tails are. *)
Lemma digits_hyphen_inj (a b r s : jsstring) :
  Forall (λ c, c ≠ 45) a → Forall (λ c, c ≠ 45) b →
  a ++ 45 :: r = b ++ 45 :: s → a = b ∧ r = s.
Proof.
  intros Ha. revert b. induction Ha as [|x a Hx Ha IH]; intros b Hb H.
  - destruct Hb as [|y b Hy Hb]; simpl in H; [by simplify_eq|].
    simplify_eq.
  - destruct Hb as [|y b Hy Hb]; simpl in H; simplify_eq.
    destruct (IH b Hb) as [-> ->]; done.
Qed.

(** X1.  The id of a rendered message determines the clock and the random
    readings it was made from. *)
Theorem new_messageId_inj (c1 c2 : Clock) :
  new_messageId c1 = new_messageId c2
  ↔ date_now c1 = date_now c2 ∧ random36 c1 = random36 c2.
Proof.
  split.
  - unfold new_messageId, decimal. intros H.
    apply app_inv_head in H.
    change (lit "-" +++ random36 c1) with (45 :: random36 c1) in H.
    change (lit "-" +++ random36 c2) with (45 :: random36 c2) in H.
    apply digits_hyphen_inj in H as [Hd Hr]; try apply uint_codes_digits.
    split; [|done].
    by apply DecimalN.Unsigned.to_uint_inj, uint_codes_inj.
  - unfold new_messageId. by intros [-> ->].
Qed.

End MessageIds.

Section Trim.

Lemma trim_start_head s :
  match trim_start s with [] => True | c :: _ => is_space c = false end.
Proof.
  induction s as [|c s IH]; [done|]. simpl.
  by destruct (is_space c) eqn:E.
Qed.

Lemma trim_start_suffix s : ∃ sp, s = sp ++ trim_start s.
Proof.
  induction s as [|c s [sp IH]]; [by exists []|]. simpl.
  destruct (is_space c).
  - exists (c :: sp). simpl. by rewrite <- IH.
  - by exists [].
Qed.

(** [trim] leaves no white space at either end. *)
Lemma trim_trimmed s : ChatObs.trimmed (trim s).
Proof.
  unfold trim.
  pose proof (trim_start_head s) as Hhead.
  pose proof (trim_start_head (rev (trim_start s))) as Hlast.
  destruct (trim_start_suffix (rev (trim_start s))) as [sp Hsp].
  set (t := trim_start s) in *. set (u := trim_start (rev t)) in *.
  assert (Ht : t = rev u ++ rev sp).
  { by rewrite <- (rev_involutive t), Hsp, rev_app_distr. }
  destruct u as [|x u]; [done|].
  unfold ChatObs.trimmed.
  destruct (rev (x :: u)) as [|y w] eqn:Hrev.
  { apply (f_equal length) in Hrev. rewrite length_rev in Hrev. done. }
  split.
  - rewrite Ht in Hhead. by simpl in Hhead.
  - rewrite <- Hrev. simpl rev. rewrite last_snoc. simpl. by rewrite Hlast.
Qed.

End Trim.

Section OwnEntry.
Context {P : Platform}.
Import Chat ChatObs.

Implicit Types (st : State) (sys : System) (c : Clock) (r : reply).

Lemma assistants_same st st' :
  container st' = container st → assistants st' = assistants st.
Proof. unfold assistants. by intros ->. Qed.



















(** A turn of the event loop either resumes the handler of a request
    in flight or runs the handler of a user event. *)
Lemma step_cases sys ev sys' :
  step sys ev = Some sys' →
  (∃ i r env k,
     ev = Settles i r env ∧ inflight sys !! i = Some k
     ∧ sys' = after sys (delete i (inflight sys)) (resume k env r (page sys)))
  ∨ sys' = after sys (inflight sys) (handle ev (page sys)).
Proof.
  intros Hstep.
  destruct ev as [| | | | | | | | | | | | | |i r env]; simpl in Hstep;
    simplify_eq; try (by right).
  left. destruct (inflight sys !! i) as [k|] eqn:Hi; simpl in Hstep;
    simplify_eq. by exists i, r, env, k.
Qed.




End OwnEntry.

(** ** The message registry *)

Section Registry.
Context {P : Platform}.
Import Chat ChatObs.

Implicit Types (st : State) (sys : System) (c : Clock) (r : reply).




(** The id is made of the clock and the random readings only: a
    message rendered under the readings of an earlier one gets the
    same id, and the entry then describes the later message. *)
Lemma repeated_reading_shares_entry c a b metadata timestamp st :
  let st' :=
    appendAssistantMessage c (Some b) metadata timestamp
      (appendAssistantMessage c (Some a) metadata timestamp st) in
  ∃ e1 e2 registry,
    container st' = container st ++ [e1; e2]
    ∧ kind e1 = KAssistant (new_messageId c)
    ∧ kind e2 = KAssistant (new_messageId c)
    ∧ messageMetadata st' = Some registry
    ∧ entry_content <$> registry !! new_messageId c = Some (Some b).
Proof.
  intros st'. do 3 eexists. split_and!.
  - subst st'. rewrite !appendAssistantMessage_container, <- app_assoc.
    reflexivity.
  - reflexivity.
  - reflexivity.
  - apply appendAssistantMessage_registry.
  - by rewrite lookup_insert_eq.
Qed.

End Registry.




(** ** What the chat page sends *)

Section Calls.
Context {P : Platform}.
Import Chat ChatObs.

Implicit Types (st : State) (sys : System) (c : Clock) (r : reply).

Lemma requests_app (fx1 fx2 : list effect) :
  requests (fx1 ++ fx2) = requests fx1 ++ requests fx2.
Proof. apply bind_app. Qed.

Lemma sendMessage_well_formed c st :
  Forall well_formed (requests (sendMessage c st).2).
Proof.
  unfold sendMessage.
  destruct (truthy (trim (input_value st))) eqn:Ht; [|constructor].
  destruct (isWaitingForResponse st); [constructor|]. simpl.
  repeat constructor; [|apply trim_trimmed].
  intros E. by rewrite E in Ht.
Qed.

Lemma handle_well_formed ev st :
  Forall well_formed (requests (handle ev st).2).
Proof.
  destruct ev; simpl; try by repeat constructor.
  - apply sendMessage_well_formed.
  - apply sendMessage_well_formed.
  - unfold deleteConversation. case_match; simpl; by repeat constructor.
  - unfold exportMessage. repeat case_match; simpl; by repeat constructor.
  - unfold clickIcon, quickFeedback.
    repeat case_match; simpl; by repeat constructor.
  - unfold submitFeedback. repeat case_match; simpl; by repeat constructor.
Qed.

Lemma resume_well_formed k env r st :
  Forall well_formed (requests (resume k env r st).2).
Proof.
  destruct k; simpl.
  - unfold loadConversations_settled. repeat case_match; simpl; by repeat constructor.
  - unfold createNewChat_settled. case_match; simpl; by repeat constructor.
  - unfold loadConversation_settled. repeat case_match; simpl; by repeat constructor.
  - unfold deleteConversation_settled. repeat case_match; simpl; by repeat constructor.
  - unfold sendMessage_settled, loadConversations.
    repeat case_match; simplify_eq; simpl; by repeat constructor.
  - unfold exportMessage_settled. repeat case_match; simpl; by repeat constructor.
  - unfold quickFeedback_settled. repeat case_match; simpl; by repeat constructor.
  - unfold submitFeedback_settled. repeat case_match; simpl; by repeat constructor.
Qed.

Lemma run_well_formed evs sys sys' :
  run sys evs = Some sys' →
  Forall well_formed (requests (log sys)) →
  Forall well_formed (requests (log sys')).
Proof.
  revert sys. induction evs as [|ev evs IH]; intros sys Hrun Hinv;
    simpl in Hrun; [by simplify_eq|].
  destruct (step sys ev) as [sys1|] eqn:Hstep; simpl in Hrun; [|done].
  apply (IH _ Hrun). clear IH Hrun.
  apply step_cases in Hstep as [(i & r & env & k & -> & Hi & ->)| ->];
    simpl; rewrite requests_app; apply Forall_app; split; try done.
  - apply resume_well_formed.
  - apply handle_well_formed.
Qed.

(** X3.  Every chat call the page has issued carries a message that is
    not empty and has no white space at either end. *)
Theorem chat_calls_are_trimmed sys conv message :
  reachable sys →
  PostMessage conv message ∈ requests (log sys) →
  message ≠ [] ∧ trimmed message.
Proof.
  intros (st & evs & Hfresh & Hrun) Hin.
  assert (Hall : Forall well_formed (requests (log sys))).
  { apply (run_well_formed _ _ _ Hrun). by repeat constructor. }
  rewrite Forall_forall in Hall. by apply (Hall _ Hin).
Qed.

End Calls.

(** ** Actions on rendered messages *)

Section Actions.
Context {P : Platform}.
Import Chat ChatObs.

Implicit Types (st : State) (sys : System) (c : Clock) (r : reply).

(** X4.  In every reachable state, for every assistant message of the
    transcript: the export functions issue exactly one request and no
    alert and leave the page as it is.  A click on one of the two icon
    buttons of the message issues exactly one feedback request, with
    rating 5 for thumbs up and rating 1 for thumbs down; it makes the
    clicked button the active one of that message and changes nothing
    else: the other elements and the rest of the page stay as they
    are.  Called for the id of the message with any [type],
    [quickFeedback] sends rating 5 for [positive] and rating 1 for
    every other type. *)
Theorem rendered_message_actions_send sys i e messageId :
  reachable sys →
  container (page sys) !! i = Some e →
  kind e = KAssistant messageId →
  (∀ f c, ∃ result,
     exportMessage f c messageId (page sys)
     = (page sys, [Fetch (PostExport f result) (KExport f)]))
  ∧ (∀ b, ∃ body st',
       handle (ClicksQuickFeedback i b) (page sys)
       = (st', [Fetch (PostFeedback body) KQuickFeedback])
       ∧ fb_rating body = match b with Helpful => 5 | NotHelpful => 1 end
       ∧ fb_comments body = lit "Quick feedback: " +++ icon_type b
       ∧ container st' !! i
         = Some {| kind := kind e; outer := outer e; active := Some b |}
       ∧ (∀ j, j ≠ i → container st' !! j = container (page sys) !! j)
       ∧ st' = set_container (container st') (page sys))
  ∧ (∀ target type, ∃ body,
       quickFeedback target messageId type (page sys)
       = (highlight target (page sys),
          [Fetch (PostFeedback body) KQuickFeedback])
       ∧ fb_rating body = (if bool_decide (type = lit "positive") then 5 else 1)
       ∧ fb_comments body = lit "Quick feedback: " +++ type).
Proof.
  intros Hreach He Hk.
  destruct (reachable_invariant _ Hreach) as (_ & _ & Hok).
  destruct (Hok e messageId (list_elem_of_lookup_2 _ _ _ He) Hk)
    as (reg & Hreg & [entry Hentry]).
  split_and!.
  - intros f c. eexists. unfold exportMessage, registry_get.
    by rewrite Hreg, Hentry.
  - intros b. do 2 eexists. cbn [handle]. unfold clickIcon.
    rewrite He. cbn [fmap option_fmap option_map]. rewrite Hk.
    unfold quickFeedback, registry_get. rewrite Hreg, Hentry.
    split_and!; [reflexivity|destruct b; reflexivity|done| | |done].
    + simpl. rewrite list_lookup_alter, He. simpl.
      rewrite decide_True by done. by rewrite Hk.
    + intros j Hj. simpl.
      by rewrite list_lookup_alter_ne.
  - intros target type. eexists. unfold quickFeedback, registry_get.
    rewrite Hreg, Hentry. by split_and!.
Qed.

End Actions.

(** ** Opening a stored conversation *)

Section Rendering.
Context {P : Platform}.
Import Chat ChatObs.

Implicit Types (st : State) (sys : System) (c : Clock) (r : reply).

Lemma render_messages_kinds env i ms st :
  kind <$> container (render_messages env i ms st)
  = (kind <$> container st)
    ++ imap (λ j msg, rendered_kind (env (i + j)%nat) msg) ms.
Proof.
  revert i st. induction ms as [|msg ms IH]; intros i st.
  { simpl. by rewrite app_nil_r. }
  simpl. rewrite IH. unfold rendered_kind at 2.
  rewrite Nat.add_0_r.
  assert (Himap : imap (λ j m, rendered_kind (env (S i + j)%nat) m) ms
                  = imap ((λ j m, rendered_kind (env (i + j)%nat) m) ∘ S) ms).
  { apply imap_ext. intros j m _. simpl. by rewrite Nat.add_succ_r. }
  rewrite Himap.
  destruct (decide (role msg = lit "user")); simpl;
    rewrite ?appendAssistantMessage_container, fmap_app, <- app_assoc; done.
Qed.

Lemma render_messages_title env i ms st :
  title (render_messages env i ms st) = title st.
Proof.
  revert i st. induction ms as [|msg ms IH]; intros i st; [done|].
  simpl. rewrite IH. by destruct (decide (role msg = lit "user")).
Qed.

(** X5.  When a stored conversation arrives, the transcript is replaced by
    one element per stored message, in the stored order: a user
    message for role [user] and an assistant message, with buttons and
    registry entry, for every other role.  The conversation becomes
    the active one, its title is shown and the list is requested. *)
Theorem loadConversation_renders_in_order convId env ok t ms st :
  let out :=
    loadConversation_settled convId env (Response ok (BConversation t ms)) st in
  kind <$> container out.1 = imap (λ i msg, rendered_kind (env i) msg) ms
  ∧ (∀ i msg, ms !! i = Some msg → role msg ≠ lit "user" →
       has_entry (new_messageId (env i)) out.1)
  ∧ currentConversationId out.1 = Some convId
  ∧ title out.1 = t
  ∧ out.2 = [Fetch GetConversations KLoadConversations].
Proof.
  intros out. subst out. unfold loadConversation_settled. simpl.
  set (st0 := set_container [] _).
  split_and!; try done.
  - by rewrite render_messages_kinds.
  - intros i msg Hi Hrole.
    destruct (render_messages_spec env 0 ms st0) as (_ & _ & Hok & _).
    assert (Hin : KAssistant (new_messageId (env i))
                  ∈ kind <$> container (render_messages env 0 ms st0)).
    { rewrite render_messages_kinds. simpl.
      apply list_elem_of_lookup. exists i.
      rewrite list_lookup_imap, Hi. simpl. unfold rendered_kind.
      by rewrite decide_False. }
    apply list_elem_of_fmap in Hin as (e & Hk & He).
    eapply Hok; [by apply entries_ok_empty|exact He|done].
  - by rewrite render_messages_conversation.
  - by rewrite render_messages_title.
Qed.

End Rendering.

(** ** A question and its answer *)

Section RoundTrip.
Context {P : Platform}.
Import Chat ChatObs.

Implicit Types (st : State) (sys : System) (c : Clock) (r : reply).

Lemma remove_first_typing_app (l l' : list element) :
  filter (λ e, is_typing e = true) l = [] →
  remove_first_typing (l ++ l') = l ++ remove_first_typing l'.
Proof.
  induction l as [|e l IH]; [done|]. intros Hnone. simpl.
  destruct (is_typing e) eqn:E.
  - by rewrite filter_cons_True in Hnone.
  - rewrite filter_cons_False in Hnone by (by rewrite E). by rewrite IH.
Qed.

(** X6.  On an idle page, a question that is answered adds exactly two
    elements to the transcript, the user message with the trimmed
    input and the assistant message, and leaves no typing indicator;
    the input box is empty and the send button enabled again. *)
Theorem answered_send_appends_question_and_answer sys c c' a md :
  reachable sys →
  isWaitingForResponse (page sys) = false →
  trim (input_value (page sys)) ≠ [] →
  let st1 := (sendMessage c (page sys)).1 in
  let st2 := (sendMessage_settled c' (Response true (BAnswer a md)) st1).1 in
  container st2
  = container (page sys)
    ++ [ {| kind := KUser;
            outer := userMessage_html (trim (input_value (page sys)))
                       (time_now c);
            active := None |};
         {| kind := KAssistant (new_messageId c');
            outer := assistantMessage_html (new_messageId c') a
                       (default no_metadata md) (time_now c');
            active := None |} ]
  ∧ isWaitingForResponse st2 = false
  ∧ send_disabled st2 = false
  ∧ input_value st2 = []
  ∧ title st2 = substring0 50 a.
Proof.
  intros Hreach Hidle Hinput st1 st2.
  destruct (reachable_invariant _ Hreach) as (_ & Hind & _).
  unfold indicator_ok, typing_indicators in Hind. rewrite Hidle in Hind.
  assert (Hnone : filter (λ e, is_typing e = true) (container (page sys)) = []).
  { destruct (filter _ _); [done|simpl in Hind; lia]. }
  assert (Ht : truthy (trim (input_value (page sys))) = true).
  { by destruct (trim (input_value (page sys))). }
  destruct (sendMessage_starts c (page sys) Ht Hidle) as (_ & _ & Hc & _).
  fold st1 in Hc.
  assert (Hin : input_value st1 = []).
  { subst st1. unfold sendMessage. by rewrite Ht, Hidle. }
  split_and!; try done.
  subst st2. unfold sendMessage_settled. simpl.
  rewrite Hc, remove_first_typing_app by done. simpl.
  by rewrite <- app_assoc.
Qed.

End RoundTrip.

(** ** An answer that arrives after a new chat was started *)

Section LateAnswer.
Context {P : Platform}.
Import Chat ChatObs.

Implicit Types (st : State) (sys : System) (c : Clock) (r : reply).

Lemma settles_at sys i k r env :
  inflight sys !! i = Some k →
  step sys (Settles i r env)
  = Some (after sys (delete i (inflight sys)) (resume k env r (page sys))).
Proof. intros Hi. simpl. by rewrite Hi. Qed.

(** X7.  While a send waits for its answer, the user starts a new chat and
    the new conversation is created first.  The answer that arrives
    afterwards is rendered as the only element of the new
    conversation, behind the welcome screen, and its beginning becomes
    the displayed title. *)
Theorem late_answer_lands_in_new_chat sys i ok new a md env env' :
  inflight sys !! i = Some KSendMessage →
  ∃ sys',
    run sys [ ClicksNewChat;
              Settles (length (inflight sys)) (Response ok (BCreated new)) env;
              Settles i (Response true (BAnswer a md)) env' ]
    = Some sys'
    ∧ currentConversationId (page sys') = Some new
    ∧ kind <$> container (page sys') = [KAssistant (new_messageId (env' 0%nat))]
    ∧ title (page sys') = substring0 50 a
    ∧ welcome_display (page sys') = DFlex
    ∧ messages_display (page sys') = DNone.
Proof.
  intros Hi. destruct sys as [st pending fx]. simpl in Hi.
  eexists. split.
  - rewrite run_cons.
    change (step _ ClicksNewChat)
      with (Some {| page := st; inflight := pending ++ [KCreateNewChat];
                    log := fx ++ [Fetch (PostConversations (lit "New Chat"))
                                    KCreateNewChat] |}).
    cbn [mbind option_bind inflight].
    rewrite run_cons, settles_newest. cbn [mbind option_bind].
    rewrite run_cons.
    rewrite (settles_at _ i KSendMessage)
      by (simpl; by apply lookup_app_l_Some).
    reflexivity.
  - by split_and!.
Qed.

End LateAnswer.

(** ** The feedback modal *)

Section ModalFlow.
Context {P : Platform}.
Import Chat ChatObs.

Implicit Types (st : State) (sys : System) (c : Clock) (r : reply).

(** X8.  For a message with a registry entry: submitting the freshly opened
    modal sends nothing and asks for input; once a rating is set the
    submission posts one feedback record with that rating and the
    content of the message; a successful submission closes the modal,
    after which a further submission does nothing; a refused one
    alerts and leaves the modal as it was. *)
Theorem feedback_modal_flow messageId entry st rating :
  registry_get messageId st = Own entry →
  messageId ≠ [] →
  rating ≠ 0 →
  let opened := openFeedbackModal messageId st in
  let rated := setModalRating rating opened in
  submitFeedback opened
  = (opened, [Alert (lit "Please provide at least one piece of feedback")])
  ∧ (∃ body,
       submitFeedback rated = (rated, [Fetch (PostFeedback body) KSubmitFeedback])
       ∧ fb_rating body = rating
       ∧ fb_answer body = entry_content entry
       ∧ fb_evidence_count body
         = Some (length (evidence (entry_metadata entry))))
  ∧ (∀ b, let closed := (submitFeedback_settled (Response true b) rated).1 in
          modal_display (modal closed) = DNone
          ∧ submitFeedback closed = (closed, []))
  ∧ (∀ b, submitFeedback_settled (Response false b) rated
          = (rated, [Alert (lit "Error submitting feedback")])).
Proof.
  intros Hget Hid Hrating opened rated.
  assert (Ht : truthy messageId = true) by by destruct messageId.
  assert (Hzero : (rating =? 0) = false) by by apply N.eqb_neq.
  assert (Hget1 : registry_get messageId opened = Own entry) by done.
  assert (Hget2 : registry_get messageId rated = Own entry) by done.
  split_and!.
  - unfold submitFeedback. simpl. by rewrite Ht, Hget1.
  - eexists. unfold submitFeedback. simpl. rewrite Ht, Hget2, Hzero. simpl.
    by split_and!.
  - done.
  - done.
Qed.

End ModalFlow.


(** ** More on the two [escapeHtml] functions *)

Section EscapeMore.
Import Attr.

Ltac escape_cases :=
  repeat match goal with
         | |- context [N.eqb ?a ?b] => destruct (N.eqb_spec a b)
         | H : context [N.eqb ?a ?b] |- _ => destruct (N.eqb_spec a b)
         end.

Lemma escape_map_inj c d r s :
  App.escape_map c ++ r = App.escape_map d ++ s → c = d ∧ r = s.
Proof.
  unfold App.escape_map. intros H.
  escape_cases; simpl in H; simplify_eq; done.
Qed.

Lemma escape_text_unit_inj c d r s :
  escape_text_unit c ++ r = escape_text_unit d ++ s → c = d ∧ r = s.
Proof.
  unfold escape_text_unit. intros H.
  escape_cases; simpl in H; simplify_eq; done.
Qed.

Lemma escape_map_nonempty c r : App.escape_map c ++ r ≠ [].
Proof. unfold App.escape_map. by escape_cases. Qed.

Lemma escape_text_unit_nonempty c r : escape_text_unit c ++ r ≠ [].
Proof. unfold escape_text_unit. by escape_cases. Qed.

(** X9.  Both [escapeHtml] functions lose nothing: texts that differ are
    escaped to texts that differ. *)
Theorem escapeHtml_injective :
  (∀ s t, App.escapeHtml s = App.escapeHtml t ↔ s = t)
  ∧ (∀ s t, Chat.escapeHtml s = Chat.escapeHtml t ↔ s = t).
Proof.
  split; intros s t; (split; [|by intros ->]); revert t;
    induction s as [|c s IH]; intros [|d t] H; try done.
  - symmetry in H. by apply escape_map_nonempty in H.
  - by apply escape_map_nonempty in H.
  - apply escape_map_inj in H as [-> H]. f_equal. by apply IH.
  - symmetry in H. by apply escape_text_unit_nonempty in H.
  - by apply escape_text_unit_nonempty in H.
  - apply escape_text_unit_inj in H as [-> H]. f_equal. by apply IH.
Qed.

End EscapeMore.


(** * Properties of [debounce] *)

Section DebounceFacts.
Context {A : Type}.
Import Debounce.

Implicit Types (t : Timers A) (args : A).

Lemma executedFunction_at_most_latest args t :
  at_most_latest t → at_most_latest (executedFunction args t).
Proof.
  intros [Hlive Hid]. split; simpl.
  - intros id [a Ha].
    destruct (decide (next t = id)) as [->|Hne]; [done|].
    rewrite lookup_insert_ne in Ha by done. exfalso.
    destruct (timeout t) as [old|] eqn:Eold.
    + destruct (decide (old = id)) as [->|Hne'].
      * by rewrite lookup_delete_eq in Ha.
      * rewrite lookup_delete_ne in Ha by done.
        specialize (Hlive id (ex_intro _ a Ha)). by simplify_eq.
    + by specialize (Hlive id (ex_intro _ a Ha)).
  - intros id [= <-]. lia.
Qed.

Lemma fires_at_most_latest id t t' args :
  fires id t = Some (t', args) →
  at_most_latest t →
  timeout t = Some id ∧ live t' = ∅ ∧ at_most_latest t'.
Proof.
  unfold fires. intros H [Hlive Hid].
  destruct (live t !! id) as [a|] eqn:Ha; simpl in H; simplify_eq.
  pose proof (Hlive id (ex_intro _ _ Ha)) as Ht.
  assert (Hempty : delete id (delete id (live t)) = ∅).
  { apply map_eq. intros j. rewrite lookup_empty.
    destruct (decide (id = j)) as [->|Hne]; [by rewrite lookup_delete_eq|].
    rewrite !lookup_delete_ne by done.
    destruct (live t !! j) as [b|] eqn:Hb; [|done].
    specialize (Hlive j (ex_intro _ _ Hb)). by simplify_eq. }
  split_and!; [done| |].
  - simpl. by rewrite Ht.
  - split; simpl; [|done]. rewrite Ht, Hempty. intros j [b Hb].
    by rewrite lookup_empty in Hb.
Qed.

Lemma run_at_most_latest evs t t' calls :
  run t evs = Some (t', calls) → at_most_latest t → at_most_latest t'.
Proof.
  revert t calls. induction evs as [|[args|id] evs IH]; intros t calls H Hinv;
    simpl in H.
  - by simplify_eq.
  - eapply IH; [exact H|]. by apply executedFunction_at_most_latest.
  - destruct (fires id t) as [[t1 a]|] eqn:Hf; simpl in H; [|done].
    destruct (run t1 evs) as [[t2 cs]|] eqn:Hr; simpl in H; simplify_eq.
    eapply IH; [exact Hr|].
    by destruct (fires_at_most_latest _ _ _ _ Hf Hinv) as (_ & _ & ?).
Qed.

Lemma reachable_at_most_latest t : reachable t → at_most_latest t.
Proof.
  intros (evs & calls & Hrun). apply (run_at_most_latest _ _ _ _ Hrun).
  split; simpl; [|done]. intros id [a Ha]. by rewrite lookup_empty in Ha.
Qed.

Lemma calls_leave_one_timer t (l : list A) args :
  at_most_latest t →
  let t' := foldl (λ t a, executedFunction a t) t (l ++ [args]) in
  ∃ id, timeout t' = Some id ∧ live t' = {[ id := args ]}
        ∧ at_most_latest t'.
Proof.
  intros Hinv t'. subst t'. rewrite foldl_app. simpl.
  set (t0 := foldl _ t l).
  assert (Hinv0 : at_most_latest t0).
  { subst t0. clear args. revert t Hinv.
    induction l as [|a l IH]; intros t Hinv; [done|].
    simpl. by apply IH, executedFunction_at_most_latest. }
  exists (next t0). split_and!; [done| |by apply executedFunction_at_most_latest].
  simpl. destruct Hinv0 as [Hlive Hid].
  apply map_eq. intros j.
  destruct (decide (next t0 = j)) as [->|Hne].
  - by rewrite lookup_insert_eq, lookup_singleton_eq.
  - rewrite lookup_insert_ne, lookup_singleton_ne by done.
    destruct (timeout t0) as [old|] eqn:Eold.
    + destruct (decide (old = j)) as [->|Hne']; [by rewrite lookup_delete_eq|].
      rewrite lookup_delete_ne by done.
      destruct (live t0 !! j) as [b|] eqn:Hb; [|done].
      specialize (Hlive j (ex_intro _ _ Hb)). by simplify_eq.
    + destruct (live t0 !! j) as [b|] eqn:Hb; [|done].
      by specialize (Hlive j (ex_intro _ _ Hb)).
Qed.

(** X10.  After any burst of calls of the debounced function, whatever
    happened before, exactly one timer is pending; when it fires,
    [func] runs once, with the arguments of the last call of the burst,
    and no timer is left: the earlier calls of the burst never reach
    [func]. *)
Theorem debounce_runs_last_call_once t (l : list A) args :
  reachable t →
  let t' := foldl (λ t a, executedFunction a t) t (l ++ [args]) in
  ∃ id t'',
    (∀ j, fires j t' = if decide (j = id) then Some (t'', args) else None)
    ∧ live t'' = ∅
    ∧ (∀ j, fires j t'' = None).
Proof.
  intros Hreach t'.
  destruct (calls_leave_one_timer t l args (reachable_at_most_latest _ Hreach))
    as (id & Ht & Hlive & Hinv).
  fold t' in Ht, Hlive, Hinv.
  assert (Hf : is_Some (fires id t')).
  { unfold fires. rewrite Hlive, lookup_singleton_eq. by eexists. }
  destruct Hf as [[t'' a] Hf].
  assert (a = args) as ->.
  { unfold fires in Hf. rewrite Hlive, lookup_singleton_eq in Hf.
    simpl in Hf. by simplify_eq. }
  destruct (fires_at_most_latest _ _ _ _ Hf Hinv) as (_ & Hempty & _).
  exists id, t''. split_and!; [|done|].
  - intros j. destruct (decide (j = id)) as [->|Hne]; [done|].
    unfold fires. by rewrite Hlive, lookup_singleton_ne.
  - intros j. unfold fires. by rewrite Hempty, lookup_empty.
Qed.

End DebounceFacts.


(** * Properties of the query page *)

Section SessionFacts.
Context `{H : Host}.
Import Session.

Lemma submitQuery_settled_shown_ok r st :
  shown_ok st → shown_ok (App.submitQuery_settled r st).
Proof.
  intros Hok. destruct r as [m|e|result]; simpl.
  - intros Hs. by destruct Hs.
  - intros Hs. by destruct Hs.
  - intros _. by exists result.
Qed.

Lemma submitQuery_shown_ok st st' fx :
  submitQuery st = (st', fx) → shown_ok st → shown_ok st'.
Proof.
  unfold submitQuery, App.submitQuery. intros Hq Hok.
  destruct (negb (truthy (trim (App.query_value st)))); simplify_eq;
    intros Hs; by destruct Hs.
Qed.

Lemma step_shown_ok sys ev sys' :
  step sys ev = Some sys' → shown_ok (page sys) → shown_ok (page sys').
Proof.
  intros Hstep Hok. destruct ev; simpl in Hstep.
  all: try (simplify_eq; exact Hok).
  - destruct (App.submit_disabled (page sys)); [done|].
    destruct (submitQuery (page sys)) as [st' fx] eqn:Hq. simplify_eq.
    by eapply submitQuery_shown_ok.
  - destruct (submitQuery (page sys)) as [st' fx] eqn:Hq. simplify_eq.
    by eapply submitQuery_shown_ok.
  - destruct (search_fires id (side sys)) as [[sb' fx]|]; simpl in Hstep; simplify_eq; exact Hok.
  - destruct (inflight sys !! i) as [k|]; [|done]. simpl in Hstep.
    destruct k, r as [r|r|r|r]; simpl in Hstep; try done.
    + simplify_eq. by apply submitQuery_settled_shown_ok.
    + simplify_eq. exact Hok.
    + destruct r; simpl in Hstep; simplify_eq; exact Hok.
    + destruct (loadQueryHistory_settled r (side sys)); simpl in Hstep; simplify_eq; exact Hok.
    + destruct (searchHistory_settled r (side sys)); simpl in Hstep; simplify_eq; exact Hok.
    + destruct (clearHistory_settled r (side sys)); simpl in Hstep; simplify_eq; exact Hok.
Qed.

Lemma run_shown_ok evs sys sys' :
  run sys evs = Some sys' → shown_ok (page sys) → shown_ok (page sys').
Proof.
  revert sys. induction evs as [|ev evs IH]; intros sys Hrun Hok;
    simpl in Hrun; [by simplify_eq|].
  destruct (step sys ev) as [sys1|] eqn:Hstep; [|done].
  eapply IH; [exact Hrun|]. by eapply step_shown_ok.
Qed.

(** X11.  Whenever the export buttons are on the page, the results pane
    shows one result in full, and a click on either button posts
    exactly that result. *)
Theorem export_buttons_export_what_is_shown sys :
  reachable sys →
  export_buttons_shown (page sys) →
  ∃ result,
    shows (page sys) result
    ∧ ∀ f, exportResult f (page sys) = [Fetch (PostExport f result) (KExport f)].
Proof.
  intros (st & sb & evs & Hfresh & Hrun) Hs.
  assert (Hok : shown_ok (page sys)).
  { apply (run_shown_ok _ _ _ Hrun). simpl.
    destruct Hfresh as (_ & _ & Hnone & _). intros Hshown. by destruct Hshown. }
  destruct (Hok Hs) as (result & Hlast & Hshows).
  exists result. split; [done|]. intros f. unfold exportResult. by rewrite Hlast.
Qed.

(** X12.  [lastResult] is written by one handler only: by the continuation
    of [submitQuery] when the query succeeded.  Every other turn of
    the event loop -- a failed query, [newQuery], an export, feedback,
    the history -- leaves it as it was. *)
Theorem lastResult_only_replaced_by_success sys ev sys' :
  step sys ev = Some sys' →
  App.lastResult (page sys') =
    match ev with
    | Settles _ (QuerySettled (App.Succeeded result)) => Some result
    | _ => App.lastResult (page sys)
    end.
Proof.
  intros Hstep. destruct ev; simpl in Hstep.
  all: try (by simplify_eq).
  - destruct (App.submit_disabled (page sys)); [done|].
    unfold submitQuery, App.submitQuery in Hstep.
    destruct (negb (truthy (trim (App.query_value (page sys)))));
      by simplify_eq.
  - unfold submitQuery, App.submitQuery in Hstep.
    destruct (negb (truthy (trim (App.query_value (page sys)))));
      by simplify_eq.
  - destruct (search_fires id (side sys)) as [[sb' fx]|]; simpl in Hstep; by simplify_eq.
  - destruct (inflight sys !! i) as [k|]; [|done]. simpl in Hstep.
    destruct k, r as [r|r|r|r]; simpl in Hstep; try done.
    + simplify_eq. by destruct r.
    + by simplify_eq.
    + destruct r; simpl in Hstep; by simplify_eq.
    + destruct (loadQueryHistory_settled r (side sys)); simpl in Hstep; by simplify_eq.
    + destruct (searchHistory_settled r (side sys)); simpl in Hstep; by simplify_eq.
    + destruct (clearHistory_settled r (side sys)); simpl in Hstep; by simplify_eq.
Qed.

(** *** The submit button *)

Lemma queries_in_flight_after sys pending st sb fx :
  queries_in_flight (after sys pending st sb fx)
  = (length (filter (λ k, k = KSubmitQuery) pending)
     + length (filter (λ k, k = KSubmitQuery) (spawned fx)))%nat.
Proof. unfold queries_in_flight. simpl. by rewrite filter_app, length_app. Qed.

Lemma button_ok_kept sys st sb fx :
  button_ok sys →
  App.submit_disabled st = App.submit_disabled (page sys) →
  button_ok (after sys (inflight sys) st sb fx).
Proof.
  intros Hok Heq Hd. rewrite queries_in_flight_after.
  simpl in Hd. rewrite Heq in Hd. specialize (Hok Hd).
  unfold queries_in_flight in Hok. lia.
Qed.

Lemma submitQuery_button_ok sys st fx sb :
  submitQuery (page sys) = (st, fx) →
  button_ok sys → button_ok (after sys (inflight sys) st sb fx).
Proof.
  unfold submitQuery, App.submitQuery. intros Hq Hok.
  destruct (negb (truthy (trim (App.query_value (page sys))))); simplify_eq.
  - by apply button_ok_kept.
  - intros _. rewrite queries_in_flight_after. simpl. lia.
Qed.

Lemma delete_other_keeps_queries (l : list cont) i k :
  l !! i = Some k → k ≠ KSubmitQuery →
  filter (λ k, k = KSubmitQuery) (delete i l)
  = filter (λ k, k = KSubmitQuery) l.
Proof.
  revert i. induction l as [|x l IH]; intros [|i] Hl Hk; simpl in *;
    try done.
  - simplify_eq. by rewrite filter_cons_False.
  - rewrite !filter_cons.
    destruct (decide (x = KSubmitQuery)); [f_equal|]; by apply IH.
Qed.

Lemma step_button_ok sys ev sys' :
  step sys ev = Some sys' → button_ok sys → button_ok sys'.
Proof.
  intros Hstep Hok. destruct ev; simpl in Hstep.
  all: try (simplify_eq; by apply button_ok_kept).
  - destruct (App.submit_disabled (page sys)); [done|].
    destruct (submitQuery (page sys)) as [st' fx] eqn:Hq. simplify_eq.
    by apply submitQuery_button_ok.
  - destruct (submitQuery (page sys)) as [st' fx] eqn:Hq. simplify_eq.
    by apply submitQuery_button_ok.
  - destruct (search_fires id (side sys)) as [[sb' fx]|]; simpl in Hstep; simplify_eq.
    by apply button_ok_kept.
  - destruct (inflight sys !! i) as [k|] eqn:Hk; [|done]. simpl in Hstep.
    assert (Hother : ∀ st sb fx,
      k ≠ KSubmitQuery → App.submit_disabled st = App.submit_disabled (page sys) →
      button_ok (after sys (delete i (inflight sys)) st sb fx)).
    { intros st sb fx Hne Heq Hd. rewrite queries_in_flight_after.
      rewrite (delete_other_keeps_queries _ _ _ Hk Hne).
      simpl in Hd. rewrite Heq in Hd. specialize (Hok Hd).
      unfold queries_in_flight in Hok. lia. }
    destruct k, r as [r|r|r|r]; simpl in Hstep; try done.
    + simplify_eq. intros Hd. by destruct r.
    + simplify_eq. by apply Hother.
    + destruct r; simpl in Hstep; simplify_eq; by apply Hother.
    + destruct (loadQueryHistory_settled r (side sys)); simpl in Hstep; simplify_eq.
      by apply Hother.
    + destruct (searchHistory_settled r (side sys)); simpl in Hstep; simplify_eq.
      by apply Hother.
    + destruct (clearHistory_settled r (side sys)); simpl in Hstep; simplify_eq.
      by apply Hother.
Qed.

Lemma run_button_ok evs sys sys' :
  run sys evs = Some sys' → button_ok sys → button_ok sys'.
Proof.
  revert sys. induction evs as [|ev evs IH]; intros sys Hrun Hok;
    simpl in Hrun; [by simplify_eq|].
  destruct (step sys ev) as [sys1|] eqn:Hstep; [|done].
  eapply IH; [exact Hrun|]. by eapply step_button_ok.
Qed.

(** X13.  The submit button is never left disabled: whenever it is disabled
    a query is in flight, and when a query settles, however it
    settles, the button is enabled again. *)
Theorem submit_button_is_not_stuck sys :
  reachable sys →
  (App.submit_disabled (page sys) = true → (0 < queries_in_flight sys)%nat)
  ∧ ∀ i r sys',
      step sys (Settles i (QuerySettled r)) = Some sys' →
      App.submit_disabled (page sys') = false.
Proof.
  intros (st & sb & evs & Hfresh & Hrun). split.
  - apply (run_button_ok _ _ _ Hrun). intros Hd. simpl in Hd.
    destruct Hfresh as (_ & Hen & _). congruence.
  - intros i r sys' Hstep. simpl in Hstep.
    destruct (inflight sys !! i) as [k|]; [|done]. simpl in Hstep.
    destruct k; simpl in Hstep; by simplify_eq.
Qed.

(** *** The rating *)

Lemma foldr_max_in (n : N) rest : foldr N.max n rest ∈ n :: rest.
Proof.
  induction rest as [|m rest IH]; simpl; [by left|].
  destruct (N.max_spec m (foldr N.max n rest)) as [[_ ->]|[_ ->]].
  - apply elem_of_cons in IH as [->|IH]; [by left|by do 2 right].
  - right. by left.
Qed.

Lemma foldr_max_ge (n : N) rest x :
  x ∈ n :: rest → x ≤ foldr N.max n rest.
Proof.
  induction rest as [|m rest IH]; simpl.
  - intros ->%list_elem_of_singleton. lia.
  - intros Hx. apply elem_of_cons in Hx as [->|Hx].
    + assert (n ≤ foldr N.max n rest) by (apply IH; by left). lia.
    + apply elem_of_cons in Hx as [->|Hx]; [lia|].
      assert (x ≤ foldr N.max n rest) by (apply IH; by right). lia.
Qed.

(** X14.  The rating round trip: after [setRating(rating)], [submitFeedback]
    posts [rating] itself exactly when a star carries that rating; it
    posts [null] exactly when every star carries a higher one. *)
Theorem submitted_rating_is_the_one_set st rating completeness corrections iso :
  let body := feedback_body completeness corrections iso (setRating rating st) in
  (fb_rating body = Some rating ↔ rating ∈ star_ratings)
  ∧ (fb_rating body = None ↔ ∀ b, b ∈ star_ratings → rating < b).
Proof.
  simpl. unfold read_rating. simpl.
  set (active := filter (λ b, b ≤ rating) star_ratings).
  assert (Hin : ∀ b, b ∈ active ↔ b ≤ rating ∧ b ∈ star_ratings).
  { intros b. subst active. by rewrite list_elem_of_filter. }
  destruct active as [|n rest] eqn:Hactive.
  - split; split.
    + done.
    + intros Hr. assert (rating ∈ @nil N) as Hnil by (apply Hin; split; [lia|done]).
      by apply elem_of_nil in Hnil.
    + intros _ b Hb. destruct (decide (b ≤ rating)) as [Hle|]; [|lia].
      assert (b ∈ @nil N) as Hnil by (by apply Hin).
      by apply elem_of_nil in Hnil.
    + done.
  - pose proof (foldr_max_in n rest) as Hmax.
    apply Hin in Hmax as [Hle Hstar].
    split; split.
    + intros [= <-]. done.
    + intros Hr. f_equal. apply N.le_antisymm; [done|].
      apply foldr_max_ge. apply Hin. split; [lia|done].
    + done.
    + intros Hall. specialize (Hall _ Hstar). lia.
Qed.

(** X15.  Unlike [sendMessage] of the chat page, [submitQuery] has no guard
    of its own: only the disabled button keeps the user from sending
    twice.  A click on it cannot happen while it is disabled, but
    Ctrl+Enter in the query box calls [submitQuery] all the same, and
    with a non-blank query it always puts one more query in flight. *)
Theorem ctrl_enter_sends_while_waiting sys :
  trim (App.query_value (page sys)) ≠ [] →
  ∃ sys',
    step sys PressesCtrlEnter = Some sys'
    ∧ queries_in_flight sys' = S (queries_in_flight sys)
    ∧ requests (log sys')
      = requests (log sys)
        ++ [PostQuery (App.PostQuery (trim (App.query_value (page sys))))]
    ∧ (App.submit_disabled (page sys) = true → step sys ClicksSubmit = None).
Proof.
  intros Hq.
  assert (Ht : truthy (trim (App.query_value (page sys))) = true)
    by by destruct (trim (App.query_value (page sys))).
  eexists. split_and!.
  - simpl. unfold submitQuery, App.submitQuery. rewrite Ht. simpl. reflexivity.
  - rewrite queries_in_flight_after. unfold queries_in_flight. simpl. lia.
  - simpl. unfold requests. by rewrite bind_app.
  - intros Hd. simpl. by rewrite Hd.
Qed.

End SessionFacts.


(** * Escaping twice, and the apostrophe replacement *)

Section EscapeFixed.
Import Attr.

Ltac eqb_cases :=
  repeat match goal with
         | |- context [N.eqb ?a ?b] => destruct (N.eqb_spec a b)
         | H : context [N.eqb ?a ?b] |- _ => destruct (N.eqb_spec a b)
         end.

Lemma app_escapeHtml_cons c s :
  App.escapeHtml (c :: s) = App.escape_map c ++ App.escapeHtml s.
Proof. reflexivity. Qed.

Lemma chat_escapeHtml_cons c s :
  Chat.escapeHtml (c :: s) = escape_text_unit c ++ Chat.escapeHtml s.
Proof. reflexivity. Qed.

Lemma escape_map_length c : (1 ≤ length (App.escape_map c))%nat.
Proof. unfold App.escape_map. eqb_cases; simpl; lia. Qed.

Lemma escape_text_unit_length c : (1 ≤ length (escape_text_unit c))%nat.
Proof. unfold escape_text_unit. eqb_cases; simpl; lia. Qed.

Lemma app_escapeHtml_length s : (length s ≤ length (App.escapeHtml s))%nat.
Proof.
  induction s as [|c s IH]; [done|].
  rewrite app_escapeHtml_cons, length_app. simpl.
  pose proof (escape_map_length c). lia.
Qed.

Lemma chat_escapeHtml_length s : (length s ≤ length (Chat.escapeHtml s))%nat.
Proof.
  induction s as [|c s IH]; [done|].
  rewrite chat_escapeHtml_cons, length_app. simpl.
  pose proof (escape_text_unit_length c). lia.
Qed.

Lemma escape_map_plain c : special5 c = false → App.escape_map c = [c].
Proof. unfold special5, App.escape_map. by eqb_cases. Qed.

Lemma escape_text_unit_plain c : special4 c = false → escape_text_unit c = [c].
Proof. unfold special4, escape_text_unit. by eqb_cases. Qed.

Lemma escape_map_special c :
  special5 c = true → (2 ≤ length (App.escape_map c))%nat.
Proof.
  unfold special5, App.escape_map. eqb_cases; simpl; intros; (lia || done).
Qed.

Lemma escape_text_unit_special c :
  special4 c = true → (2 ≤ length (escape_text_unit c))%nat.
Proof.
  unfold special4, escape_text_unit. eqb_cases; simpl; intros; (lia || done).
Qed.

Lemma app_escapeHtml_fixed s :
  App.escapeHtml s = s ↔ Forall (λ c, special5 c = false) s.
Proof.
  split.
  - intros Heq. apply Forall_forall. intros c Hc.
    destruct (special5 c) eqn:Hsp; [exfalso|done].
    apply (f_equal length) in Heq.
    apply list_elem_of_split in Hc as (l1 & l2 & ->).
    unfold App.escapeHtml in Heq. rewrite bind_app, bind_cons in Heq.
    rewrite !length_app in Heq. simpl in Heq.
    pose proof (app_escapeHtml_length l1). pose proof (app_escapeHtml_length l2).
    pose proof (escape_map_special c Hsp).
    unfold App.escapeHtml in *. lia.
  - induction 1 as [|c s Hc _ IH]; [done|].
    by rewrite app_escapeHtml_cons, escape_map_plain, IH.
Qed.

Lemma chat_escapeHtml_fixed s :
  Chat.escapeHtml s = s ↔ Forall (λ c, special4 c = false) s.
Proof.
  split.
  - intros Heq. apply Forall_forall. intros c Hc.
    destruct (special4 c) eqn:Hsp; [exfalso|done].
    apply (f_equal length) in Heq.
    apply list_elem_of_split in Hc as (l1 & l2 & ->).
    unfold Chat.escapeHtml, text_innerHTML in Heq.
    rewrite bind_app, bind_cons in Heq.
    rewrite !length_app in Heq. simpl in Heq.
    pose proof (chat_escapeHtml_length l1). pose proof (chat_escapeHtml_length l2).
    pose proof (escape_text_unit_special c Hsp).
    unfold Chat.escapeHtml, text_innerHTML in *. lia.
  - induction 1 as [|c s Hc _ IH]; [done|].
    by rewrite chat_escapeHtml_cons, escape_text_unit_plain, IH.
Qed.

Lemma escapeHtml_injective_app s t :
  App.escapeHtml s = App.escapeHtml t → s = t.
Proof.
  revert t. induction s as [|c s IH]; intros [|d t] Heq; try done.
  - symmetry in Heq. by apply escape_map_nonempty in Heq.
  - by apply escape_map_nonempty in Heq.
  - apply escape_map_inj in Heq as [-> Heq]. f_equal. by apply IH.
Qed.

Lemma escapeHtml_injective_chat s t :
  Chat.escapeHtml s = Chat.escapeHtml t → s = t.
Proof.
  revert t. induction s as [|c s IH]; intros [|d t] Heq; try done.
  - symmetry in Heq. by apply escape_text_unit_nonempty in Heq.
  - by apply escape_text_unit_nonempty in Heq.
  - apply escape_text_unit_inj in Heq as [-> Heq]. f_equal. by apply IH.
Qed.

(** X16.  Neither [escapeHtml] is idempotent: escaping an escaped text once
    more changes it, unless the original text has none of the
    characters the function replaces (and then escaping changes
    nothing at all). *)
Theorem escaping_twice_differs s :
  (App.escapeHtml (App.escapeHtml s) = App.escapeHtml s
   ↔ Forall (λ c, special5 c = false) s)
  ∧ (Chat.escapeHtml (Chat.escapeHtml s) = Chat.escapeHtml s
     ↔ Forall (λ c, special4 c = false) s).
Proof.
  split.
  - rewrite <- app_escapeHtml_fixed. split.
    + apply escapeHtml_injective_app.
    + intros Heq. by rewrite !Heq.
  - rewrite <- chat_escapeHtml_fixed. split.
    + apply escapeHtml_injective_chat.
    + intros Heq. by rewrite !Heq.
Qed.

Lemma escape_apostrophes_cons c s :
  escape_apostrophes (c :: s)
  = (if c =? 39 then [92; 39] else [c]) ++ escape_apostrophes s.
Proof. reflexivity. Qed.

Lemma escape_apostrophes_app s t :
  escape_apostrophes (s ++ t) = escape_apostrophes s ++ escape_apostrophes t.
Proof. apply bind_app. Qed.

Lemma escape_apostrophes_none s :
  39 ∉ s → escape_apostrophes s = s.
Proof.
  induction s as [|c s IH]; [done|]. intros Hs.
  apply not_elem_of_cons in Hs as [Hc Hs].
  rewrite escape_apostrophes_cons, IH by done.
  destruct (N.eqb_spec c 39); [congruence|done].
Qed.

Lemma escape_apostrophes_length s :
  (length s ≤ length (escape_apostrophes s))%nat.
Proof.
  induction s as [|c s IH]; [done|].
  rewrite escape_apostrophes_cons, length_app. simpl.
  destruct (c =? 39); simpl; lia.
Qed.

Lemma escape_apostrophes_some s :
  39 ∈ s → escape_apostrophes s ≠ s.
Proof.
  intros Hin Heq. apply (f_equal length) in Heq.
  apply list_elem_of_split in Hin as (l1 & l2 & ->).
  rewrite escape_apostrophes_app, escape_apostrophes_cons in Heq.
  rewrite !length_app in Heq. simpl in Heq.
  pose proof (escape_apostrophes_length l1).
  pose proof (escape_apostrophes_length l2). lia.
Qed.

Lemma app_escapeHtml_no_apostrophe s : 39 ∉ App.escapeHtml s.
Proof.
  induction s as [|c s IH]; [apply not_elem_of_nil|].
  rewrite app_escapeHtml_cons. intros Hin.
  apply elem_of_app in Hin as [Hin|Hin]; [|done].
  unfold App.escape_map in Hin.
  eqb_cases; apply list_elem_of_In in Hin; vm_compute in Hin;
    intuition congruence.
Qed.

Lemma chat_escapeHtml_keeps c s :
  special4 c = false → c ∈ s → c ∈ Chat.escapeHtml s.
Proof.
  intros Hc. induction s as [|d s IH]; [done|].
  rewrite chat_escapeHtml_cons, elem_of_app, elem_of_cons.
  intros [<-|Hin]; [left|right; by apply IH].
  rewrite escape_text_unit_plain by done. by left.
Qed.

(** The double quote, the apostrophe and the backslash occur in no
    character reference. *)
Lemma chat_escapeHtml_adds_none c s :
  c ∈ [34; 39; 92] → c ∈ Chat.escapeHtml s → c ∈ s.
Proof.
  intros Hc. induction s as [|d s IH]; [done|].
  rewrite chat_escapeHtml_cons, elem_of_app, elem_of_cons.
  intros [Hin|Hin]; [left|right; by apply IH].
  apply list_elem_of_In in Hc. apply list_elem_of_In in Hin.
  unfold escape_text_unit in Hin.
  eqb_cases; vm_compute in Hc, Hin; intuition congruence.
Qed.

(** X17.  The replacement [.replace(/'/g, ...)] that follows [escapeHtml]
    where a text is put into an [onclick] handler: on the query page
    ([displayHistory]) it never changes anything, since the escaped
    text has no apostrophe left; on the chat page
    ([loadExamplePrompts]) it changes the text exactly when the sample
    has an apostrophe. *)
Theorem apostrophe_replacement_after_escapeHtml s :
  escape_apostrophes (App.escapeHtml s) = App.escapeHtml s
  ∧ (escape_apostrophes (Chat.escapeHtml s) = Chat.escapeHtml s ↔ 39 ∉ s).
Proof.
  split.
  - apply escape_apostrophes_none, app_escapeHtml_no_apostrophe.
  - split.
    + intros Heq Hin. apply (chat_escapeHtml_keeps 39) in Hin; [|done].
      by apply escape_apostrophes_some in Hin.
    + intros Hs. apply escape_apostrophes_none. intros Hin. apply Hs.
      apply (chat_escapeHtml_adds_none 39); [|done]. right. by left.
Qed.

End EscapeFixed.

(** * The example prompts and the history list *)

Section Lists.
Context `{H : Host}.
Import Attr Prompts Session.

Lemma count_class_cards {A} cls (f : A → html) k (l : list A) :
  (∀ x, count_class cls (f x) = k) →
  count_class cls (mjoin (f <$> l)) = (length l * k)%nat.
Proof.
  intros Hf. induction l as [|x l IH]; [done|].
  change (mjoin (f <$> x :: l)) with (f x ++ mjoin (f <$> l)).
  rewrite count_class_app, Hf, IH. simpl. lia.
Qed.

Lemma first_text_cards {A} cls (f : A → html) (g : A → list chunk) (l : list A) :
  (∀ x r, tag_first r → first_text cls (f x ++ r) = g x ++ first_text cls r) →
  (∀ x r, tag_first (f x ++ r)) →
  first_text cls (mjoin (f <$> l)) = l ≫= g ∧ tag_first (mjoin (f <$> l)).
Proof.
  intros Hf Htag. induction l as [|x l [IH1 IH2]]; [done|].
  change (mjoin (f <$> x :: l)) with (f x ++ mjoin (f <$> l)).
  split; [|apply Htag]. by rewrite Hf, IH1.
Qed.

Lemma Forall_strs_cards {A} (Q : jsstring → Prop) (f : A → html) (l : list A) :
  (∀ x, x ∈ l → Forall Q (strs (f x))) →
  Forall Q (strs (mjoin (f <$> l))).
Proof.
  induction l as [|x l IH]; intros Hf; [constructor|].
  change (mjoin (f <$> x :: l)) with (f x ++ mjoin (f <$> l)).
  rewrite strs_app. apply Forall_app. split.
  - apply Hf. by left.
  - apply IH. intros y Hy. apply Hf. by right.
Qed.

(** X18.  [loadExamplePrompts] shows at most four samples: one card for each
    of the first four, in the order of the response, each with the
    escaped sample as its text; further samples are dropped. *)
Theorem example_prompts_show_first_four (samples : list jsstring) :
  count_class "prompt-card" (examplePrompts_html samples)
    = (length samples `min` 4)%nat
  ∧ first_text "prompt-card-text" (examplePrompts_html samples)
    = (λ sample, Str (Chat.escapeHtml sample)) <$> take 4 samples.
Proof.
  unfold examplePrompts_html. split.
  - rewrite (count_class_cards _ _ 1%nat) by done.
    rewrite length_take. lia.
  - destruct (first_text_cards "prompt-card-text" promptCard_html
                (λ sample, [Str (Chat.escapeHtml sample)]) (take 4 samples))
      as [-> _].
    + intros x r Hr. by rewrite first_text_app.
    + done.
    + induction (take 4 samples) as [|x l IH]; [done|]. simpl. by f_equal.
Qed.

(** X19.  The text put into the [onclick] attribute of a prompt card keeps
    the double quotes and the backslashes of the sample: the chat
    page's [escapeHtml] does not replace them, and the attribute is
    delimited by double quotes. *)
Theorem prompt_onclick_keeps_double_quotes (sample : jsstring) :
  (34 ∈ onclick_argument sample ↔ 34 ∈ sample)
  ∧ (92 ∈ sample → 92 ∈ onclick_argument sample).
Proof.
  unfold onclick_argument.
  assert (Hstep : ∀ c s, c ≠ 39 →
            (c ∈ escape_apostrophes s ↔ c ∈ s ∨ (c = 92 ∧ 39 ∈ s))).
  { intros c s Hc. induction s as [|d s IH].
    - change (escape_apostrophes []) with (@nil N). rewrite !elem_of_nil.
      tauto.
    - rewrite escape_apostrophes_cons, elem_of_app, IH, !elem_of_cons.
      destruct (N.eqb_spec d 39) as [->|Hd].
      + rewrite !elem_of_cons, elem_of_nil. intuition congruence.
      + rewrite list_elem_of_singleton. intuition congruence. }
  split.
  - rewrite Hstep by done. split.
    + intros [Hin|[? _]]; [|done].
      apply (chat_escapeHtml_adds_none 34); [by left|done].
    + intros Hin. left. by apply chat_escapeHtml_keeps.
  - intros Hin. apply Hstep; [done|]. left.
    by apply chat_escapeHtml_keeps.
Qed.

Lemma history_item_escaped (queries : list HistoryItem) q :
  q ∈ queries →
  Forall (λ s, escaped5 s = true ∨ ∃ q, q ∈ queries ∧ s = query_id q)
    (strs (history_item_html q)).
Proof.
  intros Hq. unfold history_item_html, strs. simpl.
  repeat apply Forall_cons_2; try apply Forall_nil_2.
  - right. by exists q.
  - left. rewrite escape_apostrophes_none by apply app_escapeHtml_no_apostrophe.
    apply app_escapeHtml_escaped5.
  - left. apply app_escapeHtml_escaped5.
Qed.

(** X20.  [displayHistory] renders one item for every query, or the
    placeholder when there is none; of the strings it inserts, all but
    the query ids have passed through [escapeHtml]. *)
Theorem history_list_shows_every_query (queries : list HistoryItem) :
  count_class "history-item" (displayHistory_html queries) = length queries
  ∧ count_class "empty-history" (displayHistory_html queries)
    = (if queries is [] then 1 else 0)%nat
  ∧ Forall (λ s, escaped5 s = true ∨ ∃ q, q ∈ queries ∧ s = query_id q)
      (strs (displayHistory_html queries)).
Proof.
  destruct queries as [|q queries]; [by repeat split|].
  unfold displayHistory_html. set (l := q :: queries). split_and!.
  - rewrite (count_class_cards _ _ 1%nat) by done. lia.
  - by rewrite (count_class_cards _ _ 0%nat), Nat.mul_0_r.
  - apply Forall_strs_cards. apply history_item_escaped.
Qed.

End Lists.

(** * The debounced search of the history *)

Section SearchFlow.
Context `{H : Host}.
Import Session.

Lemma history_settled_timers r sb :
  search_timers (loadQueryHistory_settled r sb).1 = search_timers sb
  ∧ search_timers (searchHistory_settled r sb).1 = search_timers sb
  ∧ search_timers (clearHistory_settled r sb).1 = search_timers sb.
Proof.
  split_and!.
  - by destruct r as [|ok [queries|] [stats|]].
  - by destruct r as [|ok [queries|] stats].
  - by destruct r as [|[] queries stats].
Qed.

Lemma step_timers_ok sys ev sys' :
  step sys ev = Some sys' → timers_ok sys → timers_ok sys'.
Proof.
  unfold timers_ok. intros Hstep Hok. destruct ev; simpl in Hstep.
  all: try (simplify_eq; exact Hok).
  - destruct (App.submit_disabled (page sys)); [done|].
    destruct (submitQuery (page sys)). simplify_eq. exact Hok.
  - destruct (submitQuery (page sys)). simplify_eq. exact Hok.
  - simplify_eq. simpl. by apply executedFunction_at_most_latest.
  - unfold search_fires in Hstep.
    destruct (Debounce.fires id (search_timers (side sys))) as [[t a]|] eqn:Hf;
      simpl in Hstep; simplify_eq. simpl.
    by destruct (fires_at_most_latest _ _ _ _ Hf Hok) as (_ & _ & ?).
  - destruct (inflight sys !! i) as [k|]; [|done]. simpl in Hstep.
    destruct k, r as [r|r|r|r]; simpl in Hstep; try done.
    + simplify_eq. exact Hok.
    + simplify_eq. exact Hok.
    + destruct (submitFeedback_settled r (page sys)). simpl in Hstep.
      simplify_eq. exact Hok.
    + destruct (history_settled_timers r (side sys)) as (Hl' & _ & _).
      destruct (loadQueryHistory_settled r (side sys)); simpl in *.
      simplify_eq. simpl. by rewrite Hl'.
    + destruct (history_settled_timers r (side sys)) as (_ & Hs' & _).
      destruct (searchHistory_settled r (side sys)); simpl in *.
      simplify_eq. simpl. by rewrite Hs'.
    + destruct (history_settled_timers r (side sys)) as (_ & _ & Hc').
      destruct (clearHistory_settled r (side sys)); simpl in *.
      simplify_eq. simpl. by rewrite Hc'.
Qed.

Lemma reachable_timers_ok sys : reachable sys → timers_ok sys.
Proof.
  intros (st & sb & evs & Hfresh & Hrun).
  assert (Hboot : timers_ok (boot st sb)).
  { unfold timers_ok. simpl. destruct Hfresh as (_ & _ & _ & _ & ->).
    split; simpl; [|done]. intros id [a Ha]. by rewrite lookup_empty in Ha. }
  revert Hrun Hboot. generalize (boot st sb). clear.
  induction evs as [|ev evs IH]; intros sys0 Hrun Hok; simpl in Hrun;
    [by simplify_eq|].
  destruct (step sys0 ev) as [sys1|] eqn:Hstep; [|done].
  eapply IH; [exact Hrun|]. by eapply step_timers_ok.
Qed.

Lemma run_types_search l sys :
  run sys (TypesSearch <$> l) = Some (typed sys l).
Proof.
  revert sys. induction l as [|s l IH]; intros sys; [by destruct sys|].
  simpl. rewrite IH. unfold typed, after. simpl. by rewrite !app_nil_r.
Qed.

Lemma typed_timers l sb :
  search_timers (foldl (λ sb s, search_input s sb) sb l)
  = foldl (λ t a, Debounce.executedFunction a t) (search_timers sb)
      ((λ _, ()) <$> l).
Proof. revert sb. induction l as [|s l IH]; intros sb; [done|]. simpl. by rewrite IH. Qed.

Lemma typed_value l s sb :
  search_value (foldl (λ sb s, search_input s sb) sb (l ++ [s])) = s.
Proof. by rewrite foldl_app. Qed.

(** X21.  Typing into the history search: after a burst of [input] events,
    whatever the page did before, nothing has been requested yet and
    exactly one timer is pending.  When it fires, one request is
    issued, for the value typed last: a search for the trimmed value,
    or the whole history when that is empty.  No timer is left
    afterwards. *)
Theorem search_burst_issues_one_request sys (l : list jsstring) (s : jsstring) :
  reachable sys →
  ∃ sys' id sys'',
    run sys (TypesSearch <$> (l ++ [s])) = Some sys'
    ∧ log sys' = log sys
    ∧ (∀ j, j ≠ id → step sys' (TimerFires j) = None)
    ∧ step sys' (TimerFires id) = Some sys''
    ∧ log sys'' = log sys ++ [search_request s]
    ∧ (∀ j, step sys'' (TimerFires j) = None).
Proof.
  intros Hreach. pose proof (reachable_timers_ok _ Hreach) as Hok.
  destruct (calls_leave_one_timer (search_timers (side sys))
              ((λ _, ()) <$> l) () Hok) as (id & Ht & Hlive & Hinv).
  remember (typed sys (l ++ [s])) as sys' eqn:Hsys'.
  assert (Htimers : search_timers (side sys')
            = foldl (λ t a, Debounce.executedFunction a t)
                (search_timers (side sys)) (((λ _, ()) <$> l) ++ [()])).
  { subst sys'. simpl. by rewrite typed_timers, fmap_app. }
  rewrite <- Htimers in Ht, Hlive, Hinv.
  assert (Hvalue : search_value (side sys') = s)
    by (rewrite Hsys'; apply typed_value).
  assert (Hf : ∃ t, Debounce.fires id (search_timers (side sys')) = Some (t, ())).
  { unfold Debounce.fires. rewrite Hlive, lookup_singleton_eq. simpl.
    by eexists. }
  destruct Hf as (t & Hf).
  destruct (fires_at_most_latest _ _ _ _ Hf Hinv) as (_ & Hempty & _).
  eexists sys', id, _. split_and!.
  - rewrite Hsys'. apply run_types_search.
  - by rewrite Hsys'.
  - intros j Hj. simpl. unfold search_fires, Debounce.fires.
    by rewrite Hlive, lookup_singleton_ne.
  - simpl. unfold search_fires. rewrite Hf. simpl. reflexivity.
  - simpl. assert (log sys' = log sys) as -> by (by rewrite Hsys').
    f_equal. unfold search_listener, search_request. simpl.
    rewrite Hvalue. by destruct (truthy (trim s)).
  - intros j. simpl. unfold search_fires, Debounce.fires. simpl.
    by rewrite Hempty, lookup_empty.
Qed.

End SearchFlow.


(** * Worked examples *)


(** The chat call of the example carries the question as typed. *)
Lemma chat_calls_are_trimmed_witness :
  Chat.reachable Sample.waiting
  ∧ Chat.PostMessage (Some (lit "c1")) (lit "Describe Emotet")
    ∈ Chat.requests (Chat.log Sample.waiting)
  ∧ lit "Describe Emotet" ≠ []
  ∧ ChatObs.trimmed (lit "Describe Emotet").
Proof.
  assert (Hin : Chat.PostMessage (Some (lit "c1")) (lit "Describe Emotet")
                ∈ Chat.requests (Chat.log Sample.waiting)).
  { apply (list_elem_of_lookup_2 _ 3). vm_compute. reflexivity. }
  split; [exact waiting_reachable|]. split; [exact Hin|].
  exact (chat_calls_are_trimmed Sample.waiting (Some (lit "c1"))
           (lit "Describe Emotet") waiting_reachable Hin).
Defined.

(** The thumbs-down button of the answer of the example, which is the
    second element of the transcript. *)
Lemma rendered_message_actions_send_witness :
  Chat.reachable Sample.answered
  ∧ Chat.kind <$> Chat.container (Chat.page Sample.answered) !! 1%nat
    = Some (Chat.KAssistant ChatSample.answer_id)
  ∧ ∃ body st',
      Chat.handle (Chat.ClicksQuickFeedback 1 Chat.NotHelpful)
        (Chat.page Sample.answered)
      = (st', [Chat.Fetch (Chat.PostFeedback body) Chat.KQuickFeedback])
      ∧ Chat.fb_rating body = 1
      ∧ Chat.active <$> Chat.container st' !! 1%nat
        = Some (Some Chat.NotHelpful)
      ∧ Chat.container st' !! 0%nat
        = Chat.container (Chat.page Sample.answered) !! 0%nat.
Proof.
  assert (Hk : Chat.kind <$> Chat.container (Chat.page Sample.answered) !! 1%nat
               = Some (Chat.KAssistant ChatSample.answer_id))
    by (vm_compute; reflexivity).
  split; [exact answered_reachable|]. split; [exact Hk|].
  destruct (Chat.container (Chat.page Sample.answered) !! 1%nat) as [e|] eqn:He;
    [|discriminate Hk].
  injection Hk as Hk.
  destruct (rendered_message_actions_send Sample.answered 1 e
              ChatSample.answer_id answered_reachable He Hk) as (_ & Hq & _).
  destruct (Hq Chat.NotHelpful)
    as (body & st' & Hbody & Hrating & _ & Hi & Hother & _).
  exists body, st'. split_and!; [exact Hbody|exact Hrating| |].
  - by rewrite Hi.
  - by apply Hother.
Defined.

Lemma drafted_reachable : Chat.reachable ChatSample.drafted.
Proof.
  apply run_from_boot_reachable, (bool_decide_unpack _). by vm_compute.
Defined.

(** The question of the example, typed with blanks around it, and its
    answer. *)
Lemma answered_send_appends_question_and_answer_witness :
  Chat.reachable ChatSample.drafted
  ∧ Chat.isWaitingForResponse (Chat.page ChatSample.drafted) = false
  ∧ trim (Chat.input_value (Chat.page ChatSample.drafted)) ≠ []
  ∧ Chat.kind
      <$> Chat.container
            (Chat.sendMessage_settled (Sample.clock 2)
               (Chat.Response true
                  (Chat.BAnswer (lit "Emotet is a banking trojan.") None))
               (Chat.sendMessage (Sample.clock 1)
                  (Chat.page ChatSample.drafted)).1).1
    = [Chat.KUser; Chat.KAssistant (Chat.new_messageId (Sample.clock 2))].
Proof.
  assert (Hidle : Chat.isWaitingForResponse (Chat.page ChatSample.drafted)
                  = false) by (vm_compute; reflexivity).
  assert (Hinput : trim (Chat.input_value (Chat.page ChatSample.drafted)) ≠ [])
    by (vm_compute; discriminate).
  split_and!; [exact drafted_reachable|exact Hidle|exact Hinput|].
  destruct (answered_send_appends_question_and_answer ChatSample.drafted
              (Sample.clock 1) (Sample.clock 2)
              (lit "Emotet is a banking trojan.") None
              drafted_reachable Hidle Hinput) as (Hc & _).
  assert (Hempty : Chat.kind <$> Chat.container (Chat.page ChatSample.drafted)
                   = []) by (vm_compute; reflexivity).
  rewrite Hc, fmap_app, Hempty. reflexivity.
Defined.

(** While the question of the example waits, a new chat [c2] is
    started; the answer arrives in it. *)
Lemma late_answer_lands_in_new_chat_witness :
  Chat.inflight Sample.waiting !! 0%nat = Some Chat.KSendMessage
  ∧ ∃ sys',
      Chat.run Sample.waiting
        [ Chat.ClicksNewChat;
          Chat.Settles 1 (Chat.Response true (Chat.BCreated (lit "c2")))
            Sample.env;
          Chat.Settles 0
            (Chat.Response true
               (Chat.BAnswer (lit "Emotet is a banking trojan.") None))
            Sample.env ]
      = Some sys'
      ∧ Chat.currentConversationId (Chat.page sys') = Some (lit "c2")
      ∧ Chat.kind <$> Chat.container (Chat.page sys')
        = [Chat.KAssistant (Chat.new_messageId (Sample.env 0))].
Proof.
  assert (Hi : Chat.inflight Sample.waiting !! 0%nat = Some Chat.KSendMessage)
    by (vm_compute; reflexivity).
  split; [exact Hi|].
  destruct (late_answer_lands_in_new_chat Sample.waiting 0 true (lit "c2")
              (lit "Emotet is a banking trojan.") None Sample.env Sample.env Hi)
    as (sys' & Hrun & Hconv & Hkinds & _).
  exists sys'. split_and!; [|exact Hconv|exact Hkinds].
  assert (Hlen : length (Chat.inflight Sample.waiting) = 1%nat)
    by (vm_compute; reflexivity).
  rewrite Hlen in Hrun. exact Hrun.
Defined.

(** Detailed feedback on the answer of the example, with rating 4. *)
Lemma feedback_modal_flow_witness :
  Chat.registry_get ChatSample.answer_id (Chat.page Sample.answered)
  = Chat.Own ChatSample.answer_entry
  ∧ ChatSample.answer_id ≠ []
  ∧ ∃ body,
      Chat.submitFeedback
        (Chat.setModalRating 4
           (Chat.openFeedbackModal ChatSample.answer_id
              (Chat.page Sample.answered)))
      = (Chat.setModalRating 4
           (Chat.openFeedbackModal ChatSample.answer_id
              (Chat.page Sample.answered)),
         [Chat.Fetch (Chat.PostFeedback body) Chat.KSubmitFeedback])
      ∧ Chat.fb_rating body = 4
      ∧ Chat.fb_evidence_count body = Some 4%nat.
Proof.
  assert (Hget : Chat.registry_get ChatSample.answer_id
                   (Chat.page Sample.answered)
                 = Chat.Own ChatSample.answer_entry)
    by (vm_compute; reflexivity).
  assert (Hid : ChatSample.answer_id ≠ []) by (vm_compute; discriminate).
  assert (Hrating : (4 : N) ≠ 0) by discriminate.
  split; [exact Hget|]. split; [exact Hid|].
  destruct (feedback_modal_flow ChatSample.answer_id ChatSample.answer_entry
              (Chat.page Sample.answered) 4 Hget Hid Hrating)
    as (_ & (body & Hsub & Hr & _ & Hcount) & _).
  exists body. split_and!; [exact Hsub|exact Hr|exact Hcount].
Defined.

(** Three calls in a row: only the third reaches the function. *)
Lemma debounce_runs_last_call_once_witness :
  Debounce.reachable (Debounce.initial (A := N))
  ∧ ∃ id t'',
      Debounce.fires id
        (foldl (λ t a, Debounce.executedFunction a t) Debounce.initial [1; 2; 3])
      = Some (t'', 3)
      ∧ Debounce.live t'' = ∅.
Proof.
  assert (Hreach : Debounce.reachable (Debounce.initial (A := N)))
    by (by exists [], []).
  split; [exact Hreach|].
  destruct (debounce_runs_last_call_once Debounce.initial [1; 2] 3 Hreach)
    as (id & t'' & Hf & Hempty & _).
  exists id, t''. split; [|exact Hempty].
  specialize (Hf id). by rewrite decide_True in Hf.
Defined.

#[local] Existing Instance Sample.platform.
#[local] Existing Instance QuerySample.host.

Lemma query_run_reachable evs :
  is_Some (Session.run (Session.boot Sample.app_blank QuerySample.sidebar_blank) evs) →
  Session.reachable (QuerySample.run_from_boot evs).
Proof.
  intros [sys Hrun]. exists Sample.app_blank, QuerySample.sidebar_blank, evs.
  split; [by repeat split|].
  unfold QuerySample.run_from_boot. by rewrite Hrun.
Defined.

Lemma asked_reachable : Session.reachable QuerySample.asked.
Proof. apply query_run_reachable. by eexists. Defined.

Lemma shown_reachable : Session.reachable QuerySample.shown.
Proof. apply query_run_reachable. by eexists. Defined.

Lemma asked_again_reachable : Session.reachable QuerySample.asked_again.
Proof. apply query_run_reachable. by eexists. Defined.

(** The result of the example is on the page; the PDF button posts
    it. *)
Lemma export_buttons_export_what_is_shown_witness :
  Session.reachable QuerySample.shown
  ∧ Session.export_buttons_shown (Session.page QuerySample.shown)
  ∧ Session.exportResult Session.PDF (Session.page QuerySample.shown)
    = [Session.Fetch (Session.PostExport Session.PDF (Sample.app_result None))
         (Session.KExport Session.PDF)].
Proof.
  assert (Hs : Session.export_buttons_shown (Session.page QuerySample.shown)).
  { unfold Session.export_buttons_shown.
    assert (count_class "export-buttons"
              (App.results (Session.page QuerySample.shown)) = 1%nat) as ->
      by (vm_compute; reflexivity).
    discriminate. }
  split; [exact shown_reachable|]. split; [exact Hs|].
  destruct (export_buttons_export_what_is_shown QuerySample.shown
              shown_reachable Hs) as (result & _ & Hex).
  rewrite Hex.
  assert (Hlast : App.lastResult (Session.page QuerySample.shown)
                  = Some (Sample.app_result None)) by reflexivity.
  pose proof (Hex Session.PDF) as Hpdf.
  unfold Session.exportResult in Hpdf. rewrite Hlast in Hpdf.
  by injection Hpdf as ->.
Defined.

(** The second query of the example fails: the error is shown, the
    first result stays the one that is exported. *)
Lemma lastResult_only_replaced_by_success_witness :
  ∃ sys',
    Session.step QuerySample.asked_again
      (Session.Settles 1
         (Session.QuerySettled (App.Failed (Some (lit "LLM timeout")))))
    = Some sys'
    ∧ App.lastResult (Session.page sys') = Some (Sample.app_result None)
    ∧ App.results (Session.page sys')
      = App.showError_html (lit "LLM timeout").
Proof.
  eexists. split; [reflexivity|]. split; [|reflexivity].
  rewrite (lastResult_only_replaced_by_success QuerySample.asked_again
             (Session.Settles 1
                (Session.QuerySettled (App.Failed (Some (lit "LLM timeout")))))
             _ eq_refl).
  reflexivity.
Defined.

(** While the query of the example waits, the button is disabled and
    one query is in flight. *)
Lemma submit_button_is_not_stuck_witness :
  Session.reachable QuerySample.asked
  ∧ App.submit_disabled (Session.page QuerySample.asked) = true
  ∧ (0 < Session.queries_in_flight QuerySample.asked)%nat.
Proof.
  assert (Hd : App.submit_disabled (Session.page QuerySample.asked) = true)
    by reflexivity.
  split; [exact asked_reachable|]. split; [exact Hd|].
  exact (proj1 (submit_button_is_not_stuck QuerySample.asked asked_reachable) Hd).
Defined.

(** Ctrl+Enter while the first query of the example waits. *)
Lemma ctrl_enter_sends_while_waiting_witness :
  trim (App.query_value (Session.page QuerySample.asked)) ≠ []
  ∧ ∃ sys',
      Session.step QuerySample.asked Session.PressesCtrlEnter = Some sys'
      ∧ Session.queries_in_flight sys' = 2%nat
      ∧ Session.step QuerySample.asked Session.ClicksSubmit = None.
Proof.
  assert (Hq : trim (App.query_value (Session.page QuerySample.asked)) ≠ [])
    by (vm_compute; discriminate).
  split; [exact Hq|].
  destruct (ctrl_enter_sends_while_waiting QuerySample.asked Hq)
    as (sys' & Hstep & Hn & _ & Hclick).
  exists sys'. split; [exact Hstep|]. split.
  - rewrite Hn. reflexivity.
  - apply Hclick. reflexivity.
Defined.

(** The user types [apt] and then [apt28] into the search box: one
    search, for [apt28]. *)
Lemma search_burst_issues_one_request_witness :
  Session.reachable QuerySample.asked
  ∧ ∃ sys' id sys'',
      Session.run QuerySample.asked
        [Session.TypesSearch (lit "apt"); Session.TypesSearch (lit "apt28 ")]
      = Some sys'
      ∧ Session.step sys' (Session.TimerFires id) = Some sys''
      ∧ Session.log sys''
        = Session.log QuerySample.asked
          ++ [Session.Fetch (Session.GetHistorySearch (lit "apt28"))
                Session.KSearchHistory].
Proof.
  split; [exact asked_reachable|].
  destruct (search_burst_issues_one_request QuerySample.asked [lit "apt"]
              (lit "apt28 ") asked_reachable)
    as (sys' & id & sys'' & Hrun & _ & _ & Hstep & Hlog & _).
  exists sys', id, sys''. split; [exact Hrun|]. split; [exact Hstep|].
  rewrite Hlog. reflexivity.
Defined.
